(** * cower: dependency resolution core

    A shallow embedding of [src/pacman.c] (the merge with duplicate
    deletion and the sync-database search) and of [src/depends.c] (the
    PKGBUILD array parser and the dependency resolution driver), with the
    properties of the specification stated and settled against it.

    Conventions of the embedding:
    - an [alpm_list_t] is the sequence of the [data] pointers of its nodes,
      in [next] order; the [prev] links are not represented;
    - a [char *] into the PKGBUILD buffer is an offset into a [list ascii]
      holding the whole allocation, its terminating NUL included;
    - a dereference of [NULL] (or of [NULL + 1]) is the outcome [Crash];
    - loops whose termination is not structural take fuel and yield
      [OutOfFuel] when it runs out; the fuel given by the entry points is
      shown to suffice;
    - console output and failures of allocation are not represented, and
      the [int] that counts the fetched dependencies is an integer (the
      count is at most the number of bytes of the recipe). *)

From Stdlib Require Import ZArith Ascii Sorting.Sorted Permutation Lia.
From stdpp Require Import base list strings numbers.

(** ** Outcomes of a call *)

Inductive outcome (A : Type) : Type :=
  | Done (a : A)
  | Crash
  | OutOfFuel.

Arguments Done {A} a.
Arguments Crash {A}.
Arguments OutOfFuel {A}.

(** ** pacman.c: merge with duplicate deletion *)

Section Merge.

(** The payload of a list node ([void *data]), the comparison callback
    [fn], and the test [data == NULL] that guards the call of the
    disposal callback in [alpm_list_remove_item]. *)
Variable A : Type.
Variable fn : A -> A -> Z.
Variable is_null : A -> bool.

Local Open Scope Z_scope.

(** Calls of the disposal callback made when the node holding [d] is
    removed: [if (target->data) fn(target->data);]. *)
Definition fnf_calls (d : A) : list A :=
  if is_null d then [] else [d].

(** [alpm_list_remove_item listhead target fn], [target] being the node
    at index [target] of [listhead].  The three branches of the source
    (head, tail, interior) all unlink that one node; the call returns
    [target->next].  Result: the list without the node, the returned
    [next] list, the disposal calls. *)
Definition alpm_list_remove_item (listhead : list A) (target : nat)
  : outcome (list A * list A * list A) :=
  match listhead !! target with
  | None => Crash
  | Some d => Done (delete target listhead, drop (S target) listhead, fnf_calls d)
  end.

(** The [do ... while (compare == 0)] loop that picks the first node of
    the result; on equal heads it removes the head of [left]
    ([alpm_list_remove_item left left fnf]).  [right] is [r :: right'] throughout (it is non-NULL on
    entry and only advances on the exiting branch); [left] is
    dereferenced without a NULL test.  Result: the data of [newlist],
    the remaining [left], the remaining [right], the disposal calls. *)
Fixpoint first_node (left : list A) (r : A) (right' : list A)
  : outcome (A * list A * list A * list A) :=
  match left with
  | [] => Crash (* left->data with left == NULL *)
  | l :: left' =>
      let compare := fn l r in
      if compare >? 0 then Done (r, left, right', [])
      else if compare <? 0 then Done (l, left', r :: right', [])
      else
        match first_node left' r right' with
        | Done (n, lf, rt, calls) => Done (n, lf, rt, fnf_calls l ++ calls)
        | Crash => Crash
        | OutOfFuel => OutOfFuel
        end
  end.

(** The [while ((left != NULL) && (right != NULL))] loop together with
    the two [if]s that append what is left of one input; on equal heads
    it removes the head of [left] as the first loop does.  Result: the
    nodes linked after [lp], the disposal calls. *)
Fixpoint merge_rest (left right : list A) {struct left} : list A * list A :=
  match left with
  | [] => (right, [])
  | l :: left' =>
      (fix scan (right : list A) : list A * list A :=
         match right with
         | [] => (l :: left', [])
         | r :: right' =>
             let compare := fn l r in
             if compare <? 0 then
               let '(out, calls) := merge_rest left' right in (l :: out, calls)
             else if compare >? 0 then
               let '(out, calls) := scan right' in (r :: out, calls)
             else
               let '(out, calls) := merge_rest left' right in
               (out, fnf_calls l ++ calls)
         end) right
  end.

(** [alpm_list_mmerge_dedupe left right fn fnf]: the merged list and the
    calls of [fnf], in order. *)
Definition alpm_list_mmerge_dedupe (left right : list A)
  : outcome (list A * list A) :=
  match left, right with
  | [], _ => Done (right, [])
  | _, [] => Done (left, [])
  | _, r :: right' =>
      match first_node left r right' with
      | Done (newlist, lf, rt, calls1) =>
          let '(out, calls2) := merge_rest lf rt in
          Done (newlist :: out, calls1 ++ calls2)
      | Crash => Crash
      | OutOfFuel => OutOfFuel
      end
  end.

(** The order induced by the comparison callback. *)
Definition fn_lt (a b : A) : Prop := fn a b < 0.
Definition fn_le (a b : A) : Prop := fn a b <= 0.
Definition fn_eqb (a b : A) : bool := fn a b =? 0.

(** The nodes of [left] that the merge discards: those that compare
    equal to a node of [right]. *)
Definition dup_of (right : list A) (l : A) : bool :=
  existsb (fn_eqb l) right.
Definition discarded (left right : list A) : list A :=
  List.filter (dup_of right) left.

(** The nodes of [left] that the merge keeps. *)
Definition kept (left right : list A) : list A :=
  List.filter (fun l => negb (dup_of right l)) left.

(** Number of nodes of [l] that compare equal to [x]. *)
Definition occurrences (x : A) (l : list A) : nat :=
  length (List.filter (fn_eqb x) l).

(** The one shape of strictly sorted inputs on which the first loop
    runs off the end of [left]. *)
Definition left_exhausted (left right : list A) : Prop :=
  match left, right with
  | [x], r :: _ => fn x r = 0
  | _, _ => False
  end.

End Merge.

Arguments fnf_calls {A} is_null d.
Arguments alpm_list_remove_item {A} is_null listhead target.
Arguments first_node {A} fn is_null left r right'.
Arguments merge_rest {A} fn is_null left right.
Arguments alpm_list_mmerge_dedupe {A} fn is_null left right.
Arguments fn_lt {A} fn a b.
Arguments fn_le {A} fn a b.
Arguments fn_eqb {A} fn a b.
Arguments dup_of {A} fn right l.
Arguments discarded {A} fn left right.
Arguments kept {A} fn left right.
Arguments occurrences {A} fn x l.
Arguments left_exhausted {A} fn left right.

(** A concrete instance used in examples: nodes carrying integers (as
    pointers, 0 being NULL) compared by subtraction. *)
Definition int_cmp (a b : Z) : Z := (a - b)%Z.
Definition int_null (a : Z) : bool := (a =? 0)%Z.

(** ** The C library over a character buffer *)

(** A [char] array; a pointer into it is an offset. *)
Abbreviation buffer := (list ascii).

Definition NUL : ascii := "000"%char.
Definition newline : ascii := "010"%char.
Definition squote : ascii := "039"%char.
Definition dquote : ascii := "034"%char.

Definition is_nul (c : ascii) : bool := Ascii.eqb c NUL.

(** [*p]; a read past the end gives NUL.  The buffer of a file ends with
    a NUL and keeps it (see [terminated]), and the scans stop at a NUL. *)
Definition peek (m : buffer) (p : nat) : ascii := default NUL (m !! p).

(** Number of leading characters of [s] that satisfy [f]. *)
Fixpoint span_len (f : ascii -> bool) (s : list ascii) : nat :=
  match s with
  | c :: s' => if f c then S (span_len f s') else O
  | [] => O
  end.

Definition in_set (c : ascii) (set : string) : bool :=
  existsb (Ascii.eqb c) (String.list_ascii_of_string set).

Definition strlen (m : buffer) (s : nat) : nat :=
  span_len (fun c => negb (is_nul c)) (drop s m).

Definition strspn (m : buffer) (s : nat) (accept : string) : nat :=
  span_len (fun c => negb (is_nul c) && in_set c accept) (drop s m).

Definition strcspn (m : buffer) (s : nat) (reject : string) : nat :=
  span_len (fun c => negb (is_nul c) && negb (in_set c reject)) (drop s m).

(** [strchr(s, c)] for a character [c] other than NUL; [None] is NULL. *)
Definition strchr (m : buffer) (s : nat) (c : ascii) : option nat :=
  let p := s + strcspn m s (String c EmptyString) in
  if Ascii.eqb (peek m p) c then Some p else None.

(** [strdup(s)]: a fresh copy of the string at [s]. *)
Definition strdup (m : buffer) (s : nat) : string :=
  String.string_of_list_ascii (take (strlen m s) (drop s m)).

(** [memmove(dest, src, n)] inside one buffer: the [n] bytes read at [src]
    overwrite those at [dest]. *)
Definition memmove (m : buffer) (dest src n : nat) : buffer :=
  list_inserts dest (take n (drop src m)) m.

(** [isspace] in the C locale: space and the controls 9 to 13. *)
Definition isspace (c : ascii) : bool :=
  let n := nat_of_ascii c in
  (n =? 32) || ((9 <=? n) && (n <=? 13)).

(** One call of [strtok]: [s] is the string argument of a first call, or
    the pointer saved by the previous call when the argument is NULL.
    Result: the token (or NULL), the pointer saved for the next call and
    the buffer, in which the delimiter that ended the token is now NUL. *)
Definition strtok (m : buffer) (s : nat) (delim : string)
  : option nat * nat * buffer :=
  let s := s + strspn m s delim in
  if is_nul (peek m s) then (None, s, m)
  else
    let e := s + strcspn m s delim in
    if is_nul (peek m e) then (Some s, e, m)
    else (Some s, S e, <[e := NUL]> m).

(** libalpm's list of strings: membership by [strcmp], append at the end. *)
Definition alpm_list_find_str (haystack : list string) (needle : string) : bool :=
  existsb (String.eqb needle) haystack.

Definition alpm_list_add {A : Type} (lst : list A) (data : A) : list A :=
  lst ++ [data].

(** ** util.c *)

(** Modelled from the spec: [strtrim] of util.c, which is not part of the
    sources at hand.  The spec has each line trimmed of leading and
    trailing whitespace before matching; the callers discard the return
    value and go on with the pointer they passed, so the trimming is done
    in place, on the NUL-terminated string at [str]: the leading
    whitespace is removed by moving the rest of the string (terminator
    included) to [str], the trailing whitespace by writing the terminator
    after the last character that is not whitespace. *)
Definition strtrim (m : buffer) (str : nat) : buffer :=
  if is_nul (peek m str) then m
  else
    let pch := str + span_len isspace (drop str m) in
    let m := if pch =? str then m else memmove m str pch (strlen m pch + 1) in
    if is_nul (peek m str) then m
    else
      let len := strlen m str in
      let back := span_len isspace (rev (take len (drop str m))) in
      <[str + len - back := NUL]> m.

(** Modelled from the spec: [line_starts_with] of util.c, which is not
    part of the sources at hand.  The callers test its result against 0,
    and the spec skips a line that does not start with a recognized
    keyword: the result is 0 when the string at [line] starts with
    [starts_with], and not 0 otherwise. *)
Definition line_starts_with (m : buffer) (line : nat) (starts_with : string) : Z :=
  let k := String.list_ascii_of_string starts_with in
  let k := take (span_len (fun c => negb (is_nul c)) k) k in
  if bool_decide (take (length k) (drop line m) = k) then 0%Z else 1%Z.

(** ** depends.c: the PKGBUILD array parser *)

Definition delimiters : string := String " " (String newline EmptyString).
Definition operators : string :=
  String "=" (String "<" (String ">" (String dquote (String squote EmptyString)))).

Definition is_quote (c : ascii) : bool := Ascii.eqb c squote || Ascii.eqb c dquote.

(** The [if] that steps over a quote of either kind at the start of the
    token: [token++]. *)
Definition skip_quote (m : buffer) (token : nat) : nat :=
  if is_quote (peek m token) then S token else token.

(** The [if (stripdeps) ... else ...] that ends the token in place.  In
    raw mode [ptr] is the last character of the token, or, when the
    token is empty, the quote that was stepped over just before it. *)
Definition end_token (m : buffer) (token : nat) (stripdeps : bool) : buffer :=
  if stripdeps then <[token + strcspn m token operators := NUL]> m
  else
    let ptr := token + strlen m token - 1 in
    if is_quote (peek m ptr) then <[ptr := NUL]> m else m.

(** [if (alpm_list_find_str(deplist, token) == NULL)
      deplist = alpm_list_add(deplist, strdup(token));] *)
Definition add_token (deplist : list string) (m : buffer) (token : nat) : list string :=
  if alpm_list_find_str deplist (strdup m token) then deplist
  else alpm_list_add deplist (strdup m token).

(** The [while (token)] loop of [parse_bash_array]; [olds] is the pointer
    that [strtok] keeps between calls. *)
Fixpoint parse_tokens (fuel : nat) (deplist : list string) (m : buffer)
    (token : option nat) (olds : nat) (stripdeps : bool)
  : outcome (list string * buffer) :=
  match token with
  | None => Done (deplist, m)
  | Some token =>
      match fuel with
      | O => OutOfFuel
      | S fuel =>
          let token := skip_quote m token in
          let m := end_token m token stripdeps in
          let deplist := add_token deplist m token in
          let '(token, olds, m) := strtok m olds delimiters in
          parse_tokens fuel deplist m token olds stripdeps
      end
  end.

(** [parse_bash_array deplist deparray stripdeps]; every token takes at
    least one of the bytes that follow [deparray]. *)
Definition parse_bash_array (deplist : list string) (m : buffer)
    (deparray : nat) (stripdeps : bool) : outcome (list string * buffer) :=
  let fuel := length m - deparray in
  let '(token, olds, m) := strtok m deparray delimiters in
  parse_tokens fuel deplist m token olds stripdeps.

(** Modelled from the spec: the fields of [struct aur_pkg_t] (aur.h is
    not part of the sources at hand) that the code at hand uses, and the
    name the spec gives the record. *)
Record aur_pkg_t : Type := {
  name : string;
  depends : list string;
  makedepends : list string;
  optdepends : list string
}.

Section Parser.

(** The keyword macros of depends.h, which is not part of the sources
    at hand. *)
Variables PKGBUILD_DEPENDS PKGBUILD_MAKEDEPENDS PKGBUILD_OPTDEPENDS : string.

(** The [while] loop of [pkgbuild_get_deps]. *)
Fixpoint pkgbuild_get_deps_loop (fuel : nat) (m : buffer) (bptr : nat)
    (deplist : list string) : outcome (list string * buffer) :=
  match fuel with
  | O => OutOfFuel
  | S fuel =>
      match strchr m bptr newline with
      | None => Done (deplist, m)
      | Some nl =>
          let lineptr := S nl in
          let m := strtrim m lineptr in
          if negb (line_starts_with m lineptr PKGBUILD_DEPENDS =? 0)%Z
             && negb (line_starts_with m lineptr PKGBUILD_MAKEDEPENDS =? 0)%Z
          then
            match strchr m lineptr newline with
            | None => Done (deplist, m)
            | Some bptr => pkgbuild_get_deps_loop fuel m bptr deplist
            end
          else
            match strchr m lineptr ")" with
            | None => Crash (* *arrayend = 0 with arrayend == NULL *)
            | Some arrayend =>
                let m := <[arrayend := NUL]> m in
                match strchr m lineptr "(" with
                | None => Crash (* strtok is given NULL + 1 *)
                | Some paren =>
                    match parse_bash_array deplist m (S paren) true with
                    | Done (deplist, m) =>
                        pkgbuild_get_deps_loop fuel m (S arrayend) deplist
                    | Crash => Crash
                    | OutOfFuel => OutOfFuel
                    end
                end
            end
      end
  end.

Definition pkgbuild_get_deps (pkgbuild : buffer) : outcome (list string * buffer) :=
  pkgbuild_get_deps_loop (S (length pkgbuild)) pkgbuild 0 [].

(** The list that [populate_pkg_deps] selects for a line. *)
Inductive deps_field : Type := FDepends | FMakedepends | FOptdepends.

Definition get_field (pkg : aur_pkg_t) (f : deps_field) : list string :=
  match f with
  | FDepends => depends pkg
  | FMakedepends => makedepends pkg
  | FOptdepends => optdepends pkg
  end.

Definition set_field (pkg : aur_pkg_t) (f : deps_field) (l : list string) : aur_pkg_t :=
  match f with
  | FDepends =>
      {| name := name pkg; depends := l;
         makedepends := makedepends pkg; optdepends := optdepends pkg |}
  | FMakedepends =>
      {| name := name pkg; depends := depends pkg;
         makedepends := l; optdepends := optdepends pkg |}
  | FOptdepends =>
      {| name := name pkg; depends := depends pkg;
         makedepends := makedepends pkg; optdepends := l |}
  end.

Definition select_field (m : buffer) (lineptr : nat) : option deps_field :=
  if (line_starts_with m lineptr PKGBUILD_DEPENDS =? 0)%Z then Some FDepends
  else if (line_starts_with m lineptr PKGBUILD_MAKEDEPENDS =? 0)%Z then Some FMakedepends
  else if (line_starts_with m lineptr PKGBUILD_OPTDEPENDS =? 0)%Z then Some FOptdepends
  else None.

(** The [while] loop of [populate_pkg_deps]. *)
Fixpoint populate_pkg_deps_loop (fuel : nat) (m : buffer) (bptr : nat)
    (pkg : aur_pkg_t) : outcome (aur_pkg_t * buffer) :=
  match fuel with
  | O => OutOfFuel
  | S fuel =>
      match strchr m bptr newline with
      | None => Done (pkg, m)
      | Some nl =>
          let lineptr := S nl in
          let m := strtrim m lineptr in
          match select_field m lineptr with
          | None =>
              match strchr m lineptr newline with
              | None => Done (pkg, m)
              | Some bptr => populate_pkg_deps_loop fuel m bptr pkg
              end
          | Some deplist =>
              match strchr m lineptr ")" with
              | None => Crash (* *arrayend = 0 with arrayend == NULL *)
              | Some arrayend =>
                  let m := <[arrayend := NUL]> m in
                  match strchr m lineptr "(" with
                  | None => Crash (* strtok is given NULL + 1 *)
                  | Some paren =>
                      match parse_bash_array (get_field pkg deplist) m (S paren) false with
                      | Done (l, m) =>
                          populate_pkg_deps_loop fuel m (S arrayend)
                            (set_field pkg deplist l)
                      | Crash => Crash
                      | OutOfFuel => OutOfFuel
                      end
                  end
              end
          end
      end
  end.

Definition populate_pkg_deps (pkg : aur_pkg_t) (pkgbuild : buffer)
  : outcome (aur_pkg_t * buffer) :=
  populate_pkg_deps_loop (S (length pkgbuild)) pkgbuild 0 pkg.

End Parser.

(** Modelled from the spec: [get_file_as_buffer] of util.c, which is not
    part of the sources at hand, returns the full contents of the recipe
    as text; the callers use it as a C string, so the buffer holds the
    bytes of the file and a NUL. *)
Definition buffer_of (text : string) : buffer :=
  String.list_ascii_of_string text ++ [NUL].

(** ** pacman.c: the sync-database search *)

(** A package database as libalpm shows it here: its name and the names
    of the packages of its cache. *)
Record pmdb_t : Type := {
  treename : string;
  pkgcache : list string
}.

(** [alpm_db_get_pkg(db, name)], as a truth value. *)
Definition alpm_db_get_pkg (db : pmdb_t) (pkgname : string) : bool :=
  existsb (String.eqb pkgname) (pkgcache db).

(** [alpm_sync_search(target)], [target] being a list whose first node
    holds the name [target]: the first sync database with a package of
    that name. *)
Fixpoint alpm_sync_search (syncs : list pmdb_t) (target : string) : option pmdb_t :=
  match syncs with
  | [] => None
  | db :: syncs =>
      if existsb (fun pkg => String.eqb pkg target) (pkgcache db) then Some db
      else alpm_sync_search syncs target
  end.

(** [is_in_pacman(target)], as a truth value. *)
Definition is_in_pacman (syncs : list pmdb_t) (target : string) : bool :=
  match alpm_sync_search syncs target with
  | Some found_in => true
  | None => false
  end.

(** ** depends.c: the resolution driver *)

(** What the driver is given by its collaborators: the configuration, the
    working directory, the file system, the package databases and the AUR
    client.  [aur_rpc_query] yields the list of results, empty for NULL.
    Modelled from the spec: [aur_get_tarball] (download.c is not part of
    the sources at hand) retrieves the source archive and reports
    success ([true]) or an error. *)
Record world : Type := {
  download_dir : option string;
  getcwd : option string;
  realpath : string -> option string;
  get_file_as_buffer : string -> option string;
  db_local : pmdb_t;
  syncdbs : list pmdb_t;
  aur_rpc_query : string -> list aur_pkg_t;
  aur_get_tarball : aur_pkg_t -> bool
}.

(** The calls made to the collaborators, in order. *)
Inductive event : Type :=
  | EvReadFile (path : string)
  | EvLocalLookup (pkgname : string)
  | EvSyncSearch (pkgname : string)
  | EvAurQuery (pkgname : string)
  | EvGetTarball (pkg : aur_pkg_t).

(** The branch that the body of the [for] loop takes for a dependency,
    under the names the specification gives the four outcomes. *)
Inductive classification : Type :=
  | Installed
  | AvailableInRepository
  | AvailableInAUR (pkg : aur_pkg_t)
  | Unresolved.

(** The body of the [for] loop of [get_pkg_dependencies] for one
    [depend]: the branch taken and the calls made. *)
Definition resolve_dependency (w : world) (depend : string)
  : classification * list event :=
  if alpm_db_get_pkg (db_local w) depend then
    (Installed, [EvLocalLookup depend])
  else if is_in_pacman (syncdbs w) depend then
    (AvailableInRepository, [EvLocalLookup depend; EvSyncSearch depend])
  else
    match aur_rpc_query w depend with
    | pkg :: _ =>
        (AvailableInAUR pkg,
         [EvLocalLookup depend; EvSyncSearch depend; EvAurQuery depend;
          EvGetTarball pkg])
    | [] =>
        (Unresolved,
         [EvLocalLookup depend; EvSyncSearch depend; EvAurQuery depend])
    end.

(** The [for] loop: [ret] is incremented on the AUR branch, before the
    tarball is asked for, and nothing looks at what [aur_get_tarball]
    returns. *)
Fixpoint resolve_dependencies (w : world) (deplist : list string) (ret : Z)
  : Z * list event :=
  match deplist with
  | [] => (ret, [])
  | depend :: deplist =>
      let '(c, calls) := resolve_dependency w depend in
      let ret := match c with AvailableInAUR _ => (ret + 1)%Z | _ => ret end in
      let '(ret, calls') := resolve_dependencies w deplist ret in
      (ret, calls ++ calls')
  end.

(** [PATH_MAX] of linux/limits.h. *)
Definition PATH_MAX : nat := 4096.

(** [dir]: the current directory when no download directory is
    configured, the resolved download directory otherwise; either call
    may return NULL. *)
Definition working_dir (w : world) : option string :=
  match download_dir w with
  | None => getcwd w
  | Some d => realpath w d
  end.

(** What [snprintf] writes to [pkgbuild_path]. *)
Definition pkgbuild_path_of (dir pkg : string) : string :=
  (dir ++ "/" ++ pkg ++ "/PKGBUILD")%string.

Section Driver.

Variables PKGBUILD_DEPENDS PKGBUILD_MAKEDEPENDS : string.

(** [get_pkg_dependencies(pkg)]: the value returned and the calls made.
    [dir] is dereferenced without a NULL test, and [snprintf] is allowed
    [strlen(dir) + strlen(pkg) + 11] bytes of the [PATH_MAX + 1]
    allocated. *)
Definition get_pkg_dependencies (w : world) (pkg : string)
  : outcome (Z * list event) :=
  match working_dir w with
  | None => Crash (* strlen(dir) with dir == NULL *)
  | Some dir =>
      if PATH_MAX + 1 <? String.length dir + String.length pkg + 11
      then Crash (* snprintf writes past the end of pkgbuild_path *)
      else
        let pkgbuild_path := pkgbuild_path_of dir pkg in
        match get_file_as_buffer w pkgbuild_path with
        | None => Done (1%Z, [EvReadFile pkgbuild_path])
        | Some text =>
            match pkgbuild_get_deps PKGBUILD_DEPENDS PKGBUILD_MAKEDEPENDS
                    (buffer_of text) with
            | Done (deplist, _) =>
                let '(ret, calls) := resolve_dependencies w deplist 0%Z in
                Done (ret, EvReadFile pkgbuild_path :: calls)
            | Crash => Crash
            | OutOfFuel => OutOfFuel
            end
        end
  end.

End Driver.

(** The calls that classify a dependency or fetch a tarball. *)
Definition is_lookup (e : event) : bool :=
  match e with
  | EvReadFile _ => false
  | _ => true
  end.

(** The tarball retrievals of a trace that succeed in [w]. *)
Definition fetched_ok (w : world) (e : event) : bool :=
  match e with
  | EvGetTarball pkg => aur_get_tarball w pkg
  | _ => false
  end.

(** The dependencies that the loop takes down its AUR branch. *)
Definition in_aur (w : world) (depend : string) : bool :=
  negb (alpm_db_get_pkg (db_local w) depend)
  && negb (is_in_pacman (syncdbs w) depend)
  && match aur_rpc_query w depend with [] => false | _ :: _ => true end.

(** ** The extraction as a function of the array body

    The per-token treatment follows the words of the specification; the
    tokens are cut where [strtok] is told to cut them. *)

(** The string that starts at the head of [s]. *)
Definition c_string (s : list ascii) : list ascii :=
  take (span_len (fun c => negb (is_nul c)) s) s.

Definition is_delimiter (c : ascii) : bool := in_set c delimiters.
Definition is_operator (c : ascii) : bool := in_set c operators.

(** The tokens of an array body: its maximal runs of characters other
    than space and newline (a tab is a character of a token). *)
Fixpoint tokens_of (s : list ascii) : list (list ascii) :=
  match s with
  | [] => []
  | c :: s' =>
      if is_delimiter c then tokens_of s'
      else
        match s' with
        | [] => [[c]]
        | c' :: _ =>
            if is_delimiter c' then [c] :: tokens_of s'
            else
              match tokens_of s' with
              | t :: ts => (c :: t) :: ts
              | [] => [[c]]
              end
        end
  end.

(** A single leading quote is dropped. *)
Definition drop_leading_quote (t : list ascii) : list ascii :=
  match t with
  | c :: t' => if is_quote c then t' else t
  | [] => []
  end.

(** Stripped mode: the token is cut at the first [=], [<], [>] or quote
    of either kind. *)
Definition stripped_name (t : list ascii) : list ascii :=
  let t := drop_leading_quote t in
  take (span_len (fun c => negb (is_operator c)) t) t.

(** Raw mode: only a single trailing quote is removed. *)
Definition raw_name (t : list ascii) : list ascii :=
  let t := drop_leading_quote t in
  match t !! (length t - 1) with
  | Some c => if is_quote c then take (length t - 1) t else t
  | None => t
  end.

(** Insertion is skipped when the same string is already in the set. *)
Definition insert_unique (set : list string) (s : string) : list string :=
  if bool_decide (s ∈ set) then set else set ++ [s].

Definition normalized (stripdeps : bool) (t : list ascii) : string :=
  String.string_of_list_ascii (if stripdeps then stripped_name t else raw_name t).

Definition extract_names (stripdeps : bool) (set : list string) (body : list ascii)
  : list string :=
  fold_left (fun set t => insert_unique set (normalized stripdeps t))
    (tokens_of body) set.

(** The first line of a buffer: what precedes its first newline or NUL. *)
Definition first_line_length (m : buffer) : nat :=
  strcspn m 0 (String newline EmptyString).

(** The value of a call, the buffer or the trace left out. *)
Definition value_of {A B : Type} (o : outcome (A * B)) : outcome A :=
  match o with
  | Done (a, _) => Done a
  | Crash => Crash
  | OutOfFuel => OutOfFuel
  end.

(** The outcome of a run on the buffer [m], seen from the buffer
    [pre ++ m]. *)
Definition behind {A : Type} (pre : list ascii) (o : outcome (A * buffer))
  : outcome (A * buffer) :=
  match o with
  | Done (a, m) => Done (a, pre ++ m)
  | Crash => Crash
  | OutOfFuel => OutOfFuel
  end.

(** A line of text: neither a newline nor a NUL in it. *)
Definition is_line (s : string) : bool :=
  forallb (fun c => negb (Ascii.eqb c newline) && negb (is_nul c))
    (String.list_ascii_of_string s).

Definition nl : string := String newline EmptyString.

(** A name in which stripped mode has left nothing to cut. *)
Definition is_stripped (s : string) : bool :=
  forallb (fun c => negb (is_operator c)) (String.list_ascii_of_string s).

(** ** Worlds and recipes used in examples *)

Definition no_deps (n : string) : aur_pkg_t :=
  {| name := n; depends := []; makedepends := []; optdepends := [] |}.

(** A world in which the recipe of [foo] depends on [x], [y] and [z]:
    [x] is installed, [y] is in the repository [extra], [z] is in the
    AUR, and the retrieval of a tarball succeeds or not as [fetch]
    says. *)
Definition example_recipe : string :=
  ("pkgname=foo" ++ nl ++ "depends=('x' 'y>=2' 'z')" ++ nl)%string.

Definition example_world (fetch : bool) : world :=
  {| download_dir := None;
     getcwd := Some "/build"%string;
     realpath := fun d => Some d;
     get_file_as_buffer := fun path =>
       if String.eqb path "/build/foo/PKGBUILD" then Some example_recipe else None;
     db_local := {| treename := "local"; pkgcache := ["x"%string; "both"%string] |};
     syncdbs := [ {| treename := "core"; pkgcache := ["glibc"%string] |};
                  {| treename := "extra"; pkgcache := ["y"%string; "both"%string] |} ];
     aur_rpc_query := fun d => if String.eqb d "z" then [no_deps "z"] else [];
     aur_get_tarball := fun _ => fetch |}.

(** A recipe with a single dependency, which is in the AUR. *)
Definition single_recipe : string :=
  ("pkgname=bar" ++ nl ++ "depends=(z)" ++ nl)%string.

Definition single_world : world :=
  {| download_dir := None;
     getcwd := Some "/build"%string;
     realpath := fun d => Some d;
     get_file_as_buffer := fun path =>
       if String.eqb path "/build/bar/PKGBUILD" then Some single_recipe else None;
     db_local := {| treename := "local"; pkgcache := [] |};
     syncdbs := [];
     aur_rpc_query := fun d => if String.eqb d "z" then [no_deps "z"] else [];
     aur_get_tarball := fun _ => true |}.

(** The same world with another outcome of the tarball retrieval. *)
Definition with_tarball (w : world) (f : aur_pkg_t -> bool) : world :=
  {| download_dir := download_dir w;
     getcwd := getcwd w;
     realpath := realpath w;
     get_file_as_buffer := get_file_as_buffer w;
     db_local := db_local w;
     syncdbs := syncdbs w;
     aur_rpc_query := aur_rpc_query w;
     aur_get_tarball := f |}.

(** The AUR packages whose tarball the loop asks for: the first result
    of the query, for each dependency taken down the AUR branch. *)
Definition aur_hits (w : world) (deplist : list string) : list aur_pkg_t :=
  flat_map (fun d => if in_aur w d then take 1 (aur_rpc_query w d) else []) deplist.

(** [snprintf] stays inside the [PATH_MAX + 1] bytes of [pkgbuild_path]. *)
Definition path_fits (dir pkg : string) : bool :=
  negb (PATH_MAX + 1 <? String.length dir + String.length pkg + 11).

(** A buffer that ends with a NUL, as the buffer of a file does. *)
Definition terminated (m : buffer) : Prop := exists body, m = body ++ [NUL].

(** A keyword that ends with the opening parenthesis of the array, as
    [depends=(] does: it holds no other [(], neither a [)] nor a NUL, and
    does not start with whitespace. *)
Definition is_keyword (k : string) : bool :=
  let K := String.list_ascii_of_string k in
  match rev K with
  | c :: r =>
      Ascii.eqb c "("
      && forallb (fun c => negb (Ascii.eqb c "(") && negb (Ascii.eqb c ")")
                           && negb (is_nul c)) r
      && negb (isspace (peek K 0))
  | [] => false
  end.

(** The body of an array: neither a [)] nor a NUL in it. *)
Definition is_body (s : string) : bool :=
  forallb (fun c => negb (Ascii.eqb c ")") && negb (is_nul c))
    (String.list_ascii_of_string s).

(** Two keywords that differ at their first character. *)
Definition differ_at_start (k1 k2 : string) : bool :=
  match k1, k2 with
  | String c1 _, String c2 _ => negb (is_nul c1) && negb (Ascii.eqb c1 c2)
  | _, _ => false
  end.

(** A string without its trailing whitespace. *)
Definition without_trailing_space (l : list ascii) : list ascii :=
  take (length l - span_len isspace (rev l)) l.

(** The end of a recipe after its last array: no NUL in it, and no
    newline but in its trailing whitespace. *)
Definition is_last_line (s : string) : bool :=
  let l := String.list_ascii_of_string s in
  forallb (fun c => negb (is_nul c)) l
  && forallb (fun c => negb (Ascii.eqb c newline)) (without_trailing_space l).

(** * The rest of the two files

    The query of foreign packages and the reader of the configuration of
    pacman ([src/pacman.c]), and the definitions with which further
    properties of the merge, of the parser and of the driver are stated.
    Conventions, besides those above:
    - a write outside an allocated block is the outcome [Crash], as a
      dereference of [NULL] is;
    - the calls that [alpm_quick_init] makes to libalpm are recorded, in
      order, and not interpreted;
    - a package of a database is its name. *)

(** ** pacman.c: foreign packages *)

(** [is_foreign(pkg)], [pkg] being a package of the local database with
    the name [pkgname]: no sync database holds a package of that name. *)
Fixpoint is_foreign (syncs : list pmdb_t) (pkgname : string) : bool :=
  match syncs with
  | [] => true
  | db :: syncs =>
      if alpm_db_get_pkg db pkgname then false else is_foreign syncs pkgname
  end.

(** [alpm_query_foreign()]: the foreign packages of the cache of the
    local database, in the order of the cache. *)
Definition alpm_query_foreign (local : pmdb_t) (syncs : list pmdb_t) : list string :=
  fold_left (fun ret pkg => if is_foreign syncs pkg then alpm_list_add ret pkg else ret)
    (pkgcache local) [].

(** ** Inputs of the merge that exhaust [left] *)

(** Both inputs have a node and every node of [left] compares equal to
    the first node of [right]. *)
Definition left_all_equal {A : Type} (fn : A -> A -> Z) (left right : list A) : Prop :=
  match left, right with
  | _ :: _, r :: _ => Forall (fun l => fn l r = 0%Z) left
  | _, _ => False
  end.

(** The nodes that a call of the merge frees: nodes of [left], each of
    which compares equal to a node of [right]; the disposal callback is
    called on those that have data. *)
Definition freed_by {A : Type} (fn : A -> A -> Z) (is_null : A -> bool)
    (left right dropped calls : list A) : Prop :=
  sublist dropped left
  /\ Forall (fun d => exists r, In r right /\ fn d r = 0%Z) dropped
  /\ calls = List.filter (fun d => negb (is_null d)) dropped.

(** ** Reading a trace of the driver *)

Definition local_lookup_of (e : event) : option string :=
  match e with EvLocalLookup d => Some d | _ => None end.

Definition sync_search_of (e : event) : option string :=
  match e with EvSyncSearch d => Some d | _ => None end.

Definition aur_query_of (e : event) : option string :=
  match e with EvAurQuery d => Some d | _ => None end.

Definition tarball_of (e : event) : option aur_pkg_t :=
  match e with EvGetTarball p => Some p | _ => None end.

(** ** Lists of names that only grow *)

(** [l'] is [l] followed by names that [l] does not hold, each once. *)
Definition extended_by (l l' : list string) : Prop :=
  exists added, l' = l ++ added /\ NoDup added /\ forall s, s ∈ added -> s ∉ l.

(** The same for the three lists of a package, whose name stays. *)
Definition pkg_extended_by (pkg pkg' : aur_pkg_t) : Prop :=
  name pkg' = name pkg
  /\ extended_by (depends pkg) (depends pkg')
  /\ extended_by (makedepends pkg) (makedepends pkg')
  /\ extended_by (optdepends pkg) (optdepends pkg').

(** ** pacman.c: reading the configuration of pacman *)

(** The calls that [alpm_quick_init] makes to libalpm, in order; a
    [NULL] argument is [None]. *)
Inductive alpm_call : Type :=
  | AlpmInitialize
  | AlpmOptionSetRoot (root : option string)
  | AlpmOptionSetDbpath (dbpath : option string)
  | AlpmDbRegisterLocal
  | AlpmDbRegisterSync (treename : string).

(** [fgets(line, size, stream)] on what is left of the file: [None] at
    the end of the file; otherwise the characters stored in [line] (at
    most [size - 1], up to and including the first newline) and what is
    left of the file after them.  A NUL is appended to what is stored. *)
Definition fgets (size : nat) (stream : list ascii) : option (list ascii * list ascii) :=
  match stream with
  | [] => None
  | _ :: _ =>
      let n :=
        Nat.min (size - 1) (S (span_len (fun c => negb (Ascii.eqb c newline)) stream)) in
      Some (take n stream, drop n stream)
  end.

(** [strsep(&ptr, delim)], [stringp] being the value of [ptr] before the
    call: the value of [ptr] after the call ([None] for NULL) and the
    buffer, in which the first delimiter is now NUL. *)
Definition strsep (m : buffer) (stringp : nat) (delim : string) : option nat * buffer :=
  let e := stringp + strcspn m stringp delim in
  if is_nul (peek m e) then (None, m) else (Some (S e), <[e := NUL]> m).

Section Config.

(** util.c is not part of the sources at hand, and nothing at hand says
    what its [strtrim] does when it is handed NULL: whether that call
    returns is a parameter. *)
Variable strtrim_NULL_returns : bool.

(** [section = strdup(ptr); section[strlen(section) - 1] = 0;] and the
    registration that follows.  [section] is a block of its own; with an
    empty string the assignment writes before the start of the block. *)
Definition new_section (m : buffer) (ptr : nat) : outcome (list alpm_call) :=
  let section := String.list_ascii_of_string (strdup m ptr) ++ [NUL] in
  if strlen section 0 =? 0 then Crash
  else
    let section := <[strlen section 0 - 1 := NUL]> section in
    if negb (String.eqb (strdup section 0) "options")
    then Done [AlpmDbRegisterSync (strdup section 0)]
    else Done [].

(** The [else] branch: a line of the form [key = value]. *)
Definition key_value (m : buffer) : outcome (list alpm_call) :=
  let '(ptr, m) := strsep m 0 "=" in
  let m := strtrim m 0 in
  match ptr with
  | None =>
      if strtrim_NULL_returns then
        if String.eqb (strdup m 0) "RootDir" then Done [AlpmOptionSetRoot None]
        else if String.eqb (strdup m 0) "DBPath" then Done [AlpmOptionSetDbpath None]
        else Done []
      else Crash
  | Some ptr =>
      let m := strtrim m ptr in
      if String.eqb (strdup m 0) "RootDir"
      then Done [AlpmOptionSetRoot (Some (strdup m ptr))]
      else if String.eqb (strdup m 0) "DBPath"
      then Done [AlpmOptionSetDbpath (Some (strdup m ptr))]
      else Done []
  end.

(** The body of the [while] loop for what [fgets] has stored in [line]:
    the calls made to libalpm.  The bytes of [line] after the NUL are
    never read. *)
Definition config_line (line : list ascii) : outcome (list alpm_call) :=
  let m := strtrim (line ++ [NUL]) 0 in
  if Ascii.eqb (peek m 0) "#" || (strlen m 0 =? 0) then Done []
  else
    let m :=
      match strchr m 0 "#" with
      | Some ptr => <[ptr := NUL]> m
      | None => m
      end in
    if Ascii.eqb (peek m 0) "[" || Ascii.eqb (peek m (strlen m 0 - 1)) "]"
    then new_section m 1
    else key_value m.

(** The [while (fgets(line, PATH_MAX, pacfd))] loop. *)
Fixpoint alpm_quick_init_loop (fuel : nat) (pacfd : list ascii)
  : outcome (list alpm_call) :=
  match fuel with
  | O => OutOfFuel
  | S fuel =>
      match fgets PATH_MAX pacfd with
      | None => Done []
      | Some (line, pacfd) =>
          match config_line line with
          | Done calls =>
              match alpm_quick_init_loop fuel pacfd with
              | Done calls' => Done (calls ++ calls')
              | Crash => Crash
              | OutOfFuel => OutOfFuel
              end
          | Crash => Crash
          | OutOfFuel => OutOfFuel
          end
      end
  end.

(** [alpm_quick_init()], [pacconf] being the bytes of the file [PACCONF],
    or [None] when [fopen] fails: the calls made to libalpm. *)
Definition alpm_quick_init (pacconf : option (list ascii)) : outcome (list alpm_call) :=
  let calls :=
    [AlpmInitialize; AlpmOptionSetRoot (Some "/"%string);
     AlpmOptionSetDbpath (Some "/var/lib/pacman"%string); AlpmDbRegisterLocal] in
  match pacconf with
  | None => Done calls
  | Some text =>
      match alpm_quick_init_loop (S (length text)) text with
      | Done calls' => Done (calls ++ calls')
      | Crash => Crash
      | OutOfFuel => OutOfFuel
      end
  end.

End Config.

(** Whitespace only. *)
Definition is_blank (s : list ascii) : bool := forallb isspace s.

(** A string without its leading and trailing whitespace. *)
Definition trimmed (s : list ascii) : list ascii :=
  without_trailing_space (drop (span_len isspace s) s).

(** The calls of two steps, one after the other. *)
Definition then_calls (o1 o2 : outcome (list alpm_call)) : outcome (list alpm_call) :=
  match o1 with
  | Done calls =>
      match o2 with
      | Done calls' => Done (calls ++ calls')
      | Crash => Crash
      | OutOfFuel => OutOfFuel
      end
  | Crash => Crash
  | OutOfFuel => OutOfFuel
  end.

(** A string that neither starts nor ends with whitespace. *)
Definition is_trimmed (s : list ascii) : bool :=
  negb (isspace (peek s 0)) && negb (isspace (peek (rev s) 0)).

(** What is left of a line once it is cut at its first [#]. *)
Definition before_comment (s : list ascii) : list ascii :=
  take (span_len (fun c => negb (Ascii.eqb c "#")) s) s.

(** A string free of the characters of [set] and of NUL. *)
Definition free_of (set : string) (s : list ascii) : bool :=
  forallb (fun c => negb (is_nul c) && negb (in_set c set)) s.

(** No newline in it. *)
Definition no_newline (s : list ascii) : bool :=
  forallb (fun c => negb (Ascii.eqb c newline)) s.

(** A line that [fgets] reads whole, its newline included. *)
Definition short_line (s : list ascii) : bool :=
  no_newline s && (length s + 1 <? PATH_MAX).

(** The text of a file made of lines, each ended by a newline. *)
Definition text_of_lines (lines : list (list ascii)) : list ascii :=
  concat (map (fun l => l ++ [newline]) lines).

(** The calls with which [alpm_quick_init] starts. *)
Definition initial_calls : list alpm_call :=
  [AlpmInitialize; AlpmOptionSetRoot (Some "/"%string);
   AlpmOptionSetDbpath (Some "/var/lib/pacman"%string); AlpmDbRegisterLocal].

(** ** depends.c: the scan of a recipe as a function of its text *)

(** The place of the first [c] of a string. *)
Definition find_char (c : ascii) (s : list ascii) : option nat :=
  let k := span_len (fun x => negb (Ascii.eqb x c)) s in
  if k <? length s then Some k else None.

(** [line_starts_with] on a string of its own. *)
Definition starts_with (k : string) (s : list ascii) : bool :=
  (line_starts_with (s ++ [NUL]) 0 k =? 0)%Z.

Section Scan.

Variables PKGBUILD_DEPENDS PKGBUILD_MAKEDEPENDS : string.

(** What the loop of [pkgbuild_get_deps] returns, [s] being the string
    at [bptr]: the same steps on strings that are values, with no buffer
    written into.  The fuel counts the turns of the loop. *)
Fixpoint scan_lines (fuel : nat) (s : list ascii) (deplist : list string)
  : outcome (list string) :=
  match fuel with
  | O => OutOfFuel
  | S fuel =>
      match find_char newline s with
      | None => Done deplist
      | Some i =>
          let line := trimmed (drop (S i) s) in
          if negb (starts_with PKGBUILD_DEPENDS line)
             && negb (starts_with PKGBUILD_MAKEDEPENDS line)
          then
            match find_char newline line with
            | None => Done deplist
            | Some j => scan_lines fuel (drop j line) deplist
            end
          else
            match find_char ")" line with
            | None => Crash
            | Some e =>
                match find_char "(" (take e line) with
                | None => Crash
                | Some p =>
                    scan_lines fuel (drop (S e) line)
                      (extract_names true deplist (drop (S p) (take e line)))
                end
            end
      end
  end.

(** The dependencies of a recipe, from its text. *)
Definition dependencies_of_text (text : string) : outcome (list string) :=
  let s := String.list_ascii_of_string text in
  scan_lines (S (S (length s))) (c_string s) [].

End Scan.

(** ** Recipes made of lines and arrays *)

(** What follows the first line of a recipe, piece by piece: a line that
    is no array, or an array with what follows its closing parenthesis
    on the same line; either may be indented and preceded by blank
    lines. *)
Inductive recipe_item : Type :=
  | OtherLine (indent text : list ascii)
  | ArrayLine (indent : list ascii) (keyword : string) (body comment : list ascii).

Definition render_item (it : recipe_item) : list ascii :=
  match it with
  | OtherLine indent text => indent ++ text ++ [newline]
  | ArrayLine indent keyword body comment =>
      indent ++ String.list_ascii_of_string keyword ++ body
      ++ ")"%char :: comment ++ [newline]
  end.

Definition render_items (items : list recipe_item) : list ascii :=
  concat (map render_item items).

(** The conditions on a piece: the indentation is whitespace; a line that
    is no array has a first character, holds neither a newline nor a NUL
    and does not start with a keyword; an array starts with one of the
    two keywords, its body holds neither a [)] nor a NUL (it may hold
    newlines), and what follows the [)] holds neither a newline nor a
    NUL. *)
Definition item_ok (D M : string) (it : recipe_item) : bool :=
  match it with
  | OtherLine indent text =>
      is_blank indent
      && negb (length text =? 0) && negb (isspace (peek text 0))
      && free_of nl text
      && negb (starts_with D text) && negb (starts_with M text)
  | ArrayLine indent keyword body comment =>
      is_blank indent
      && (String.eqb keyword D || String.eqb keyword M)
      && free_of ")" body
      && free_of nl comment
  end.

(** The names of the arrays of the pieces, in order, without repeats. *)
Definition names_of_items (items : list recipe_item) (deplist : list string)
  : list string :=
  fold_left (fun deplist it =>
               match it with
               | OtherLine _ _ => deplist
               | ArrayLine _ _ body _ => extract_names true deplist body
               end) items deplist.

(** ** depends.c: the scan of the three arrays as a function of the text *)

Section ScanFields.

Variables PKGBUILD_DEPENDS PKGBUILD_MAKEDEPENDS PKGBUILD_OPTDEPENDS : string.

(** The list that [populate_pkg_deps] selects for a line, read off the
    string of the line. *)
Definition field_of_line (line : list ascii) : option deps_field :=
  if starts_with PKGBUILD_DEPENDS line then Some FDepends
  else if starts_with PKGBUILD_MAKEDEPENDS line then Some FMakedepends
  else if starts_with PKGBUILD_OPTDEPENDS line then Some FOptdepends
  else None.

(** What the loop of [populate_pkg_deps] returns, [s] being the string
    at [bptr]: the same steps on strings that are values. *)
Fixpoint scan_fields (fuel : nat) (s : list ascii) (pkg : aur_pkg_t)
  : outcome aur_pkg_t :=
  match fuel with
  | O => OutOfFuel
  | S fuel =>
      match find_char newline s with
      | None => Done pkg
      | Some i =>
          let line := trimmed (drop (S i) s) in
          match field_of_line line with
          | None =>
              match find_char newline line with
              | None => Done pkg
              | Some j => scan_fields fuel (drop j line) pkg
              end
          | Some deplist =>
              match find_char ")" line with
              | None => Crash
              | Some e =>
                  match find_char "(" (take e line) with
                  | None => Crash
                  | Some p =>
                      scan_fields fuel (drop (S e) line)
                        (set_field pkg deplist
                           (extract_names false (get_field pkg deplist)
                              (drop (S p) (take e line))))
                  end
              end
          end
      end
  end.

(** The three lists of a recipe, from its text. *)
Definition fields_of_text (pkg : aur_pkg_t) (text : string) : outcome aur_pkg_t :=
  let s := String.list_ascii_of_string text in
  scan_fields (S (S (length s))) (c_string s) pkg.

(** The list that an array goes to, by its keyword. *)
Definition field_of_keyword (keyword : string) : deps_field :=
  if String.eqb keyword PKGBUILD_DEPENDS then FDepends
  else if String.eqb keyword PKGBUILD_MAKEDEPENDS then FMakedepends
  else FOptdepends.

(** The conditions on a piece of a recipe, with the three keywords. *)
Definition field_item_ok (it : recipe_item) : bool :=
  match it with
  | OtherLine indent text =>
      is_blank indent
      && negb (length text =? 0) && negb (isspace (peek text 0))
      && free_of nl text
      && negb (starts_with PKGBUILD_DEPENDS text)
      && negb (starts_with PKGBUILD_MAKEDEPENDS text)
      && negb (starts_with PKGBUILD_OPTDEPENDS text)
  | ArrayLine indent keyword body comment =>
      is_blank indent
      && (String.eqb keyword PKGBUILD_DEPENDS || String.eqb keyword PKGBUILD_MAKEDEPENDS
          || String.eqb keyword PKGBUILD_OPTDEPENDS)
      && free_of ")" body
      && free_of nl comment
  end.

(** The package once the arrays of the pieces are recorded, each in the
    list of its keyword, in raw mode. *)
Definition fields_of_items (items : list recipe_item) (pkg : aur_pkg_t) : aur_pkg_t :=
  fold_left (fun pkg it =>
               match it with
               | OtherLine _ _ => pkg
               | ArrayLine _ keyword body _ =>
                   set_field pkg (field_of_keyword keyword)
                     (extract_names false (get_field pkg (field_of_keyword keyword)) body)
               end) items pkg.

End ScanFields.

(** Lists written with [++] and [::], up to association. *)
Ltac same_list := repeat (progress (rewrite <- ?app_assoc; cbn [app])); done.

(** * pacman.c: the merge *)

Lemma remove_item_head {A : Type} (is_null : A -> bool) (l : A) (left' : list A) :
  alpm_list_remove_item is_null (l :: left') 0 = Done (left', left', fnf_calls is_null l).
Proof. reflexivity. Qed.

Section MergeFacts.

Variable A : Type.
Variable fn : A -> A -> Z.
Variable is_null : A -> bool.

(** The comparison callback is a total order: the sign of [fn a b] is
    the opposite of that of [fn b a], and [<=] is transitive. *)
Hypothesis fn_sym : forall a b, Z.sgn (fn a b) = (- Z.sgn (fn b a))%Z.
Hypothesis fn_trans : forall a b c, (fn a b <= 0 -> fn b c <= 0 -> fn a c <= 0)%Z.

Local Open Scope Z_scope.

Lemma fn_flip_lt a b : fn a b < 0 <-> fn b a > 0.
Proof. pose proof (fn_sym a b). lia. Qed.

Lemma fn_flip_eq a b : fn a b = 0 <-> fn b a = 0.
Proof. pose proof (fn_sym a b). lia. Qed.

Lemma fn_refl a : fn a a = 0.
Proof. pose proof (fn_sym a a). lia. Qed.

Lemma fn_lt_le_trans a b c : fn a b < 0 -> fn b c <= 0 -> fn a c < 0.
Proof.
  intros Hab Hbc.
  destruct (Z_lt_le_dec (fn a c) 0) as [|Hac]; [done|].
  assert (fn c a <= 0) by (pose proof (fn_sym a c); lia).
  pose proof (fn_trans b c a Hbc H).
  pose proof (fn_sym a b). lia.
Qed.

Lemma fn_le_lt_trans a b c : fn a b <= 0 -> fn b c < 0 -> fn a c < 0.
Proof.
  intros Hab Hbc.
  destruct (Z_lt_le_dec (fn a c) 0) as [|Hac]; [done|].
  assert (fn c a <= 0) by (pose proof (fn_sym a c); lia).
  pose proof (fn_trans c a b H Hab).
  pose proof (fn_sym b c). lia.
Qed.

Lemma fn_lt_trans a b c : fn a b < 0 -> fn b c < 0 -> fn a c < 0.
Proof. intros. apply fn_lt_le_trans with b; lia. Qed.

Lemma merge_rest_nil_r left : merge_rest fn is_null left [] = (left, []).
Proof. by destruct left. Qed.

Lemma merge_rest_cons l left' r right' :
  merge_rest fn is_null (l :: left') (r :: right') =
    if fn l r <? 0 then
      let '(out, calls) := merge_rest fn is_null left' (r :: right') in (l :: out, calls)
    else if fn l r >? 0 then
      let '(out, calls) := merge_rest fn is_null (l :: left') right' in (r :: out, calls)
    else
      let '(out, calls) := merge_rest fn is_null left' (r :: right') in
      (out, fnf_calls is_null l ++ calls).
Proof. reflexivity. Qed.

Lemma dup_of_false right l :
  Forall (fun r => fn l r <> 0) right -> dup_of fn right l = false.
Proof.
  induction 1 as [|r right Hr _ IH]; [done|].
  simpl. rewrite IH. unfold fn_eqb.
  destruct (Z.eqb_spec (fn l r) 0); [done|done].
Qed.

Lemma dup_of_skip r right l :
  fn l r <> 0 -> dup_of fn (r :: right) l = dup_of fn right l.
Proof.
  intros H. simpl. unfold fn_eqb. by destruct (Z.eqb_spec (fn l r) 0).
Qed.

Lemma filter_dup_skip (f : bool -> bool) r right left :
  Forall (fun l => fn l r <> 0) left ->
  List.filter (fun l => f (dup_of fn (r :: right) l)) left =
  List.filter (fun l => f (dup_of fn right l)) left.
Proof.
  induction 1 as [|l left Hl _ IH]; [done|].
  cbn [List.filter]. rewrite IH, (dup_of_skip r right l Hl). done.
Qed.

Lemma discarded_skip r right left :
  Forall (fun l => fn l r <> 0) left ->
  discarded fn left (r :: right) = discarded fn left right.
Proof. apply (filter_dup_skip (fun b => b)). Qed.

Lemma kept_skip r right left :
  Forall (fun l => fn l r <> 0) left ->
  kept fn left (r :: right) = kept fn left right.
Proof. apply (filter_dup_skip negb). Qed.

Lemma kept_nil left : kept fn left [] = left.
Proof. unfold kept. induction left as [|l left IH]; [done|]. simpl in *. congruence. Qed.

Lemma discarded_nil left : discarded fn left [] = [].
Proof. unfold discarded. induction left as [|l left IH]; [done|]. simpl in *. congruence. Qed.

Lemma discarded_cons l left right :
  discarded fn (l :: left) right =
    if dup_of fn right l then l :: discarded fn left right
    else discarded fn left right.
Proof. reflexivity. Qed.

Lemma kept_cons l left right :
  kept fn (l :: left) right =
    if dup_of fn right l then kept fn left right else l :: kept fn left right.
Proof. unfold kept. cbn [List.filter]. by destruct (dup_of fn right l). Qed.

Lemma kept_In x left right : In x (kept fn left right) -> In x left.
Proof. unfold kept. rewrite filter_In. tauto. Qed.

Lemma sorted_head_lt l left :
  StronglySorted (fn_lt fn) (l :: left) -> Forall (fun x => fn l x < 0) left.
Proof. intros H. by inversion H. Qed.

Lemma sorted_tail l left :
  StronglySorted (fn_lt fn) (l :: left) -> StronglySorted (fn_lt fn) left.
Proof. intros H. by inversion H. Qed.

(** What the second loop computes on strictly sorted inputs. *)
Lemma merge_rest_spec left :
  forall right,
    StronglySorted (fn_lt fn) left -> StronglySorted (fn_lt fn) right ->
    StronglySorted (fn_lt fn) (merge_rest fn is_null left right).1
    /\ Permutation (merge_rest fn is_null left right).1 (right ++ kept fn left right)
    /\ (merge_rest fn is_null left right).2 =
         List.filter (fun d => negb (is_null d)) (discarded fn left right).
Proof.
  induction left as [|l left' IHl]; intros right Hl Hr.
  { simpl. rewrite app_nil_r. done. }
  induction right as [|r right' IHr].
  { rewrite merge_rest_nil_r, kept_nil, discarded_nil. done. }
  pose proof (sorted_head_lt _ _ Hl) as Hll.
  pose proof (sorted_head_lt _ _ Hr) as Hrr.
  pose proof (sorted_tail _ _ Hl) as Hl'.
  pose proof (sorted_tail _ _ Hr) as Hr'.
  rewrite merge_rest_cons.
  destruct (Z.ltb_spec (fn l r) 0) as [Hlt|Hge].
  - (* left < right: l is linked *)
    destruct (IHl (r :: right') Hl' Hr) as (IH1 & IH2 & IH3).
    destruct (merge_rest fn is_null left' (r :: right')) as [out calls].
    cbn [fst snd] in IH1, IH2, IH3 |- *.
    assert (Hd : dup_of fn (r :: right') l = false).
    { apply dup_of_false. constructor; [lia|].
      eapply List.Forall_impl; [|exact Hrr]. intros x Hx.
      pose proof (fn_lt_trans l r x Hlt Hx). lia. }
    rewrite (discarded_cons l), (kept_cons l), Hd.
    split_and!.
    + constructor; [done|].
      rewrite IH2. apply Forall_app. split.
      * constructor; [done|].
        eapply List.Forall_impl; [|exact Hrr]. intros x Hx.
        by apply fn_lt_trans with r.
      * eapply Forall_forall. intros x Hx%kept_In.
        rewrite Forall_forall in Hll. by apply Hll.
    + rewrite IH2. change (r :: right' ++ l :: kept fn left' (r :: right'))
        with ((r :: right') ++ l :: kept fn left' (r :: right')).
      apply Permutation_middle.
    + done.
  - destruct (Z.gtb_spec (fn l r) 0) as [Hgt|Hle].
    + (* left > right: r is linked *)
      destruct (IHr Hr') as (IH1 & IH2 & IH3).
      destruct (merge_rest fn is_null (l :: left') right') as [out calls].
      cbn [fst snd] in IH1, IH2, IH3 |- *.
      assert (Hne : Forall (fun x => fn x r <> 0) (l :: left')).
      { constructor; [lia|].
        eapply List.Forall_impl; [|exact Hll]. intros x Hx.
        assert (fn r l < 0) by (apply fn_flip_lt; lia).
        pose proof (fn_lt_trans r l x H Hx).
        apply fn_flip_lt in H0. lia. }
      rewrite (discarded_skip _ _ _ Hne), (kept_skip _ _ _ Hne).
      split_and!; [|by rewrite IH2|done].
      constructor; [done|].
      rewrite IH2. apply Forall_app. split; [done|].
      eapply Forall_forall. intros x Hx%kept_In.
      assert (fn r l < 0) by (apply fn_flip_lt; lia).
      destruct Hx as [<-|Hx]; [done|].
      rewrite Forall_forall in Hll.
      apply fn_lt_trans with l; [done|]. by apply Hll.
    + (* equal: l is removed *)
      assert (Heq : fn l r = 0) by lia.
      destruct (IHl (r :: right') Hl' Hr) as (IH1 & IH2 & IH3).
      destruct (merge_rest fn is_null left' (r :: right')) as [out calls].
      cbn [fst snd] in IH1, IH2, IH3 |- *.
      assert (Hd : dup_of fn (r :: right') l = true).
      { simpl. unfold fn_eqb. by rewrite Heq. }
      rewrite (discarded_cons l), (kept_cons l), Hd.
      split_and!; [done|done|].
      rewrite IH3. unfold fnf_calls. cbn [List.filter]. by destruct (is_null l).
Qed.


Lemma occurrences_le_1 x out :
  StronglySorted (fn_lt fn) out -> (occurrences fn x out <= 1)%nat.
Proof.
  unfold occurrences.
  induction 1 as [|a out Hs IH Ha]; [simpl; lia|].
  cbn [List.filter]. unfold fn_eqb at 1.
  destruct (Z.eqb_spec (fn x a) 0) as [Heq|Hne]; [|done].
  assert (List.filter (fn_eqb fn x) out = []) as ->; [|simpl; lia].
  clear IH Hs. induction Ha as [|b out Hb _ IH]; [done|].
  cbn [List.filter]. rewrite IH. unfold fn_eqb.
  assert (fn x b < 0) by (apply fn_le_lt_trans with a; [lia|done]).
  destruct (Z.eqb_spec (fn x b) 0); [lia|done].
Qed.

Lemma occurrences_ge_1 x y out :
  In y out -> fn x y = 0 -> (1 <= occurrences fn x out)%nat.
Proof.
  intros Hy Hxy. unfold occurrences.
  assert (Hin : In y (List.filter (fn_eqb fn x) out)).
  { apply filter_In. split; [done|]. unfold fn_eqb. by rewrite Hxy. }
  destruct (List.filter (fn_eqb fn x) out); [done|simpl; lia].
Qed.

Lemma dup_of_true right l :
  dup_of fn right l = true -> exists r, In r right /\ fn l r = 0.
Proof.
  unfold dup_of. rewrite existsb_exists. intros (r & Hr & Heq).
  exists r. split; [done|]. unfold fn_eqb in Heq. lia.
Qed.

Lemma kept_discarded_perm left right :
  Permutation (kept fn left right ++ discarded fn left right) left.
Proof.
  unfold kept, discarded.
  induction left as [|l left IH]; [done|].
  cbn [List.filter]. destruct (dup_of fn right l); simpl.
  - rewrite <- Permutation_middle. by constructor.
  - by constructor.
Qed.

(** Every node of the inputs has exactly one node of the output that
    compares equal to it, once the output is known to be strictly
    sorted and to consist of [right] and the kept nodes of [left]. *)
Lemma occurrences_once left right out x :
  StronglySorted (fn_lt fn) out ->
  Permutation out (right ++ kept fn left right) ->
  In x (left ++ right) ->
  occurrences fn x out = 1%nat.
Proof.
  intros Hs Hp Hx.
  pose proof (occurrences_le_1 x out Hs).
  enough (1 <= occurrences fn x out)%nat by lia.
  apply in_app_or in Hx as [Hx|Hx].
  - destruct (dup_of fn right x) eqn:Hd.
    + apply dup_of_true in Hd as (r & Hr & Heq).
      apply occurrences_ge_1 with r; [|done].
      eapply Permutation_in; [symmetry; exact Hp|]. apply in_or_app. by left.
    + apply occurrences_ge_1 with x; [|apply fn_refl].
      eapply Permutation_in; [symmetry; exact Hp|]. apply in_or_app. right.
      unfold kept. apply filter_In. by rewrite Hd.
  - apply occurrences_ge_1 with x; [|apply fn_refl].
    eapply Permutation_in; [symmetry; exact Hp|]. apply in_or_app. by left.
Qed.

(** The whole call on strictly sorted inputs other than the one shape
    that exhausts [left] in the first loop. *)
Lemma mmerge_dedupe_spec left right :
  StronglySorted (fn_lt fn) left -> StronglySorted (fn_lt fn) right ->
  ~ left_exhausted fn left right ->
  exists out calls,
    alpm_list_mmerge_dedupe fn is_null left right = Done (out, calls)
    /\ StronglySorted (fn_lt fn) out
    /\ Permutation out (right ++ kept fn left right)
    /\ calls = List.filter (fun d => negb (is_null d)) (discarded fn left right).
Proof.
  intros Hl Hr Hex.
  destruct left as [|l left'].
  { exists right, []. simpl. rewrite app_nil_r. done. }
  destruct right as [|r right'].
  { exists (l :: left'), []. simpl. by rewrite kept_nil, discarded_nil. }
  pose proof (sorted_head_lt _ _ Hl) as Hll.
  pose proof (sorted_head_lt _ _ Hr) as Hrr.
  pose proof (sorted_tail _ _ Hl) as Hl'.
  pose proof (sorted_tail _ _ Hr) as Hr'.
  cbn [alpm_list_mmerge_dedupe first_node].
  destruct (Z.gtb_spec (fn l r) 0) as [Hgt|Hle].
  - (* newlist = right *)
    destruct (merge_rest_spec (l :: left') right' Hl Hr') as (IH1 & IH2 & IH3).
    destruct (merge_rest fn is_null (l :: left') right') as [out calls].
    cbn [fst snd] in IH1, IH2, IH3.
    assert (Hrl : fn r l < 0) by (apply fn_flip_lt; lia).
    assert (Hne : Forall (fun x => fn x r <> 0) (l :: left')).
    { constructor; [lia|].
      eapply List.Forall_impl; [|exact Hll]. intros x Hx.
      pose proof (fn_lt_trans r l x Hrl Hx) as Hrx.
      apply fn_flip_lt in Hrx. lia. }
    exists (r :: out), calls.
    rewrite (discarded_skip _ _ _ Hne), (kept_skip _ _ _ Hne).
    split_and!; [done| |by rewrite IH2|done].
    constructor; [done|].
    rewrite IH2. apply Forall_app. split; [done|].
    apply Forall_forall. intros x Hx%kept_In.
    destruct Hx as [<-|Hx]; [done|].
    rewrite Forall_forall in Hll.
    apply fn_lt_trans with l; [done|]. by apply Hll.
  - destruct (Z.ltb_spec (fn l r) 0) as [Hlt|Hge].
    + (* newlist = left *)
      destruct (merge_rest_spec left' (r :: right') Hl' Hr) as (IH1 & IH2 & IH3).
      destruct (merge_rest fn is_null left' (r :: right')) as [out calls].
      cbn [fst snd] in IH1, IH2, IH3.
      assert (Hd : dup_of fn (r :: right') l = false).
      { apply dup_of_false. constructor; [lia|].
        eapply List.Forall_impl; [|exact Hrr]. intros x Hx.
        pose proof (fn_lt_trans l r x Hlt Hx). lia. }
      exists (l :: out), calls.
      rewrite (discarded_cons l), (kept_cons l), Hd.
      split_and!; [done| | |done].
      * constructor; [done|].
        rewrite IH2. apply Forall_app. split.
        -- constructor; [done|].
           eapply List.Forall_impl; [|exact Hrr]. intros x Hx.
           by apply fn_lt_trans with r.
        -- apply Forall_forall. intros x Hx%kept_In.
           rewrite Forall_forall in Hll. by apply Hll.
      * rewrite IH2. apply Permutation_middle.
    + (* equal heads: the head of left is removed and the loop repeats *)
      assert (Heq : fn l r = 0) by lia.
      destruct left' as [|l2 left''].
      { exfalso. apply Hex. exact Heq. }
      cbn [first_node].
      assert (Hl2 : fn l l2 < 0) by (by inversion Hll).
      assert (Hrl2 : fn r l2 < 0).
      { apply fn_le_lt_trans with l; [|done].
        apply fn_flip_eq in Heq. lia. }
      assert (fn l2 r > 0) as Hgt2 by (by apply fn_flip_lt).
      destruct (Z.gtb_spec (fn l2 r) 0) as [_|?]; [|lia].
      destruct (merge_rest_spec (l2 :: left'') right' Hl' Hr') as (IH1 & IH2 & IH3).
      destruct (merge_rest fn is_null (l2 :: left'') right') as [out calls].
      cbn [fst snd] in IH1, IH2, IH3.
      assert (Hne : Forall (fun x => fn x r <> 0) (l2 :: left'')).
      { eapply List.Forall_impl; [|exact Hll]. intros x Hx.
        assert (fn r x < 0).
        { apply fn_le_lt_trans with l; [|done]. apply fn_flip_eq in Heq. lia. }
        apply fn_flip_lt in H. lia. }
      assert (Hd : dup_of fn (r :: right') l = true).
      { simpl. unfold fn_eqb. by rewrite Heq. }
      exists (r :: out), (fnf_calls is_null l ++ calls).
      rewrite (discarded_cons l), (kept_cons l), Hd.
      rewrite (discarded_skip _ _ _ Hne), (kept_skip _ _ _ Hne).
      split_and!; [by rewrite app_nil_r| |by rewrite IH2|].
      * constructor; [done|].
        rewrite IH2. apply Forall_app. split; [done|].
        apply Forall_forall. intros x Hx%kept_In.
        destruct Hx as [<-|Hx]; [done|].
        inversion Hl' as [|? ? _ Hl2x]; subst.
        rewrite Forall_forall in Hl2x.
        apply fn_lt_trans with l2; [done|]. by apply Hl2x.
      * rewrite IH3. unfold fnf_calls. cbn [List.filter]. by destruct (is_null l).
Qed.

End MergeFacts.

(** C1 (amended).  For a comparison callback that is a total order and
    two inputs that are each strictly sorted (sorted, and without two
    nodes that compare equal), [left] not being a single node equal to
    the first node of [right], the merge returns a strictly sorted list;
    every node of either input has exactly one node of the result that
    compares equal to it; the nodes of the inputs are those of the result
    together with the discarded ones, which are the nodes of [left] that
    compare equal to a node of [right]; and the disposal callback is
    called once on the data of each discarded node that has data. *)
Theorem mmerge_dedupe_strictly_sorted (A : Type) (fn : A -> A -> Z)
    (is_null : A -> bool) (left right : list A) :
  (forall a b, Z.sgn (fn a b) = (- Z.sgn (fn b a))%Z) ->
  (forall a b c, (fn a b <= 0 -> fn b c <= 0 -> fn a c <= 0)%Z) ->
  StronglySorted (fn_lt fn) left ->
  StronglySorted (fn_lt fn) right ->
  ~ left_exhausted fn left right ->
  exists out calls,
    alpm_list_mmerge_dedupe fn is_null left right = Done (out, calls)
    /\ StronglySorted (fn_lt fn) out
    /\ (forall x, In x (left ++ right) -> occurrences fn x out = 1)
    /\ Permutation (out ++ discarded fn left right) (left ++ right)
    /\ calls = List.filter (fun d => negb (is_null d)) (discarded fn left right).
Proof.
  intros Hsym Htrans Hl Hr Hex.
  destruct (mmerge_dedupe_spec A fn is_null Hsym Htrans left right Hl Hr Hex)
    as (out & calls & Hrun & Hs & Hp & Hc).
  exists out, calls. split_and!; [done|done| | |done].
  - intros x Hx. by eapply occurrences_once.
  - rewrite Hp, <- app_assoc, (kept_discarded_perm A fn left right).
    apply Permutation_app_comm.
Qed.

Lemma mmerge_dedupe_strictly_sorted_witness :
  exists out calls,
    alpm_list_mmerge_dedupe int_cmp int_null [1; 3; 5]%Z [3; 4]%Z = Done (out, calls)
    /\ StronglySorted (fn_lt int_cmp) out
    /\ calls = [3%Z].
Proof.
  destruct (mmerge_dedupe_strictly_sorted Z int_cmp int_null [1; 3; 5]%Z [3; 4]%Z)
    as (out & calls & Hrun & Hs & _ & _ & Hc).
  - intros a b. unfold int_cmp. lia.
  - intros a b c. unfold int_cmp. lia.
  - repeat constructor; unfold fn_lt, int_cmp; lia.
  - repeat constructor; unfold fn_lt, int_cmp; lia.
  - simpl. tauto.
  - exists out, calls. split_and!; [exact Hrun|exact Hs|exact Hc].
Defined.

(** The claim of C1 as it is stated fails: two nodes of one input that
    compare equal both stay in the result. *)
Lemma mmerge_dedupe_keeps_duplicates_of_one_input :
  Sorted (fn_le int_cmp) [1; 1; 3]%Z
  /\ Sorted (fn_le int_cmp) [2]%Z
  /\ alpm_list_mmerge_dedupe int_cmp int_null [1; 1; 3]%Z [2]%Z
     = Done ([1; 1; 2; 3]%Z, [])
  /\ occurrences int_cmp 1%Z [1; 1; 2; 3]%Z = 2.
Proof.
  split_and!; [| |reflexivity|reflexivity];
    repeat constructor; unfold fn_le, int_cmp; lia.
Qed.

(** C8: the code at the failing inputs.  When the heads compare equal
    the first loop removes the head of [left] and compares again without
    testing whether [left] is exhausted: with a single node in [left]
    it reads through NULL.  An empty input returns the other input. *)
Theorem mmerge_dedupe_equal_heads_exhaust_left :
  alpm_list_mmerge_dedupe int_cmp int_null [1]%Z [1]%Z = Crash
  /\ alpm_list_mmerge_dedupe int_cmp int_null [1]%Z [1; 2]%Z = Crash
  /\ alpm_list_mmerge_dedupe int_cmp int_null [1; 1]%Z [1]%Z = Crash
  /\ alpm_list_mmerge_dedupe int_cmp int_null [1; 2]%Z [1]%Z = Done ([1; 2]%Z, [1%Z])
  /\ (forall (A : Type) (fn : A -> A -> Z) (is_null : A -> bool) (l : list A),
        alpm_list_mmerge_dedupe fn is_null [] l = Done (l, [])
        /\ alpm_list_mmerge_dedupe fn is_null l [] = Done (l, [])).
Proof.
  split_and!; try reflexivity.
  intros A fn is_null l. split; [done|]. by destruct l.
Qed.

(** * The C library: spans *)

Lemma span_len_le f s : span_len f s <= length s.
Proof. induction s as [|c s IH]; simpl; [lia|]. destruct (f c); simpl; lia. Qed.

Lemma span_len_take f s : Forall (fun c => f c = true) (take (span_len f s) s).
Proof.
  induction s as [|c s IH]; simpl; [constructor|].
  destruct (f c) eqn:Hc; simpl; [by constructor|constructor].
Qed.

Lemma span_len_stop f s c :
  s !! span_len f s = Some c -> f c = false.
Proof.
  induction s as [|a s IH]; simpl; [done|].
  destruct (f a) eqn:Ha; simpl; [done|]. by intros [= <-].
Qed.

Lemma span_len_app_all f w s :
  Forall (fun c => f c = true) w -> span_len f (w ++ s) = length w + span_len f s.
Proof. induction 1 as [|c w Hc _ IH]; simpl; [done|]. by rewrite Hc, IH. Qed.

Lemma span_len_app_stop f w c s :
  Forall (fun c => f c = true) w -> f c = false -> span_len f (w ++ c :: s) = length w.
Proof. intros Hw Hc. rewrite span_len_app_all by done. simpl. rewrite Hc. lia. Qed.

Lemma span_len_all f w :
  Forall (fun c => f c = true) w -> span_len f w = length w.
Proof.
  intros Hw. rewrite <- (app_nil_r w) at 1.
  rewrite span_len_app_all by done. simpl. lia.
Qed.

(** A span that also stops at NUL is a span of the string at the head. *)
Lemma span_len_c_string f s :
  span_len (fun c => negb (is_nul c) && f c) s = span_len f (c_string s).
Proof.
  unfold c_string. induction s as [|c s IH]; simpl; [done|].
  destruct (is_nul c); simpl; [done|]. destruct (f c); simpl; [by rewrite IH|done].
Qed.

Lemma c_string_nil : c_string [] = [].
Proof. reflexivity. Qed.

Lemma c_string_cons c s :
  c_string (c :: s) = if is_nul c then [] else c :: c_string s.
Proof. unfold c_string. simpl. by destruct (is_nul c). Qed.

Lemma c_string_no_nul s : Forall (fun c => is_nul c = false) (c_string s).
Proof.
  induction s as [|c s IH]; [constructor|].
  rewrite c_string_cons. destruct (is_nul c) eqn:Hc; [constructor|by constructor].
Qed.

Lemma c_string_app w s :
  Forall (fun c => is_nul c = false) w -> c_string (w ++ s) = w ++ c_string s.
Proof.
  induction 1 as [|c w Hc _ IH]; [done|].
  simpl. rewrite c_string_cons, Hc. by rewrite IH.
Qed.

Lemma c_string_length s : length (c_string s) = span_len (fun c => negb (is_nul c)) s.
Proof. unfold c_string. rewrite length_take. pose proof (span_len_le (fun c => negb (is_nul c)) s). lia. Qed.

(** * The C library: reads and writes relative to an offset *)

Lemma peek_drop m p : peek m p = peek (drop p m) 0.
Proof. unfold peek. by rewrite lookup_drop, Nat.add_0_r. Qed.

Lemma peek_drop_add m p i : peek (drop p m) i = peek m (p + i).
Proof. unfold peek. by rewrite lookup_drop. Qed.

Lemma peek_app_r pre m p : peek (pre ++ m) (length pre + p) = peek m p.
Proof. unfold peek. by rewrite lookup_app_r, Nat.add_comm, Nat.add_sub by lia. Qed.

Lemma peek_cons_0 c s : peek (c :: s) 0 = c.
Proof. reflexivity. Qed.

Lemma strlen_c_string m s : strlen m s = length (c_string (drop s m)).
Proof. by rewrite c_string_length. Qed.

Lemma strlen_shift pre m s : strlen (pre ++ m) (length pre + s) = strlen m s.
Proof. unfold strlen. by rewrite drop_app_add. Qed.

Lemma strspn_shift pre m s a : strspn (pre ++ m) (length pre + s) a = strspn m s a.
Proof. unfold strspn. by rewrite drop_app_add. Qed.

Lemma strcspn_shift pre m s a : strcspn (pre ++ m) (length pre + s) a = strcspn m s a.
Proof. unfold strcspn. by rewrite drop_app_add. Qed.

Lemma strchr_shift pre m s c :
  strchr (pre ++ m) (length pre + s) c = (fun p => length pre + p) <$> strchr m s c.
Proof.
  unfold strchr. cbv zeta. rewrite strcspn_shift, <- Nat.add_assoc, peek_app_r.
  by destruct (Ascii.eqb _ _).
Qed.

Lemma strdup_shift pre m s : strdup (pre ++ m) (length pre + s) = strdup m s.
Proof. unfold strdup. by rewrite strlen_shift, drop_app_add. Qed.

Lemma insert_shift (pre m : list ascii) p c :
  <[length pre + p := c]> (pre ++ m) = pre ++ <[p := c]> m.
Proof. apply insert_app_r. Qed.

Lemma strtok_shift pre m s d :
  strtok (pre ++ m) (length pre + s) d =
    let '(t, o, m') := strtok m s d in
    ((fun p => length pre + p) <$> t, length pre + o, pre ++ m').
Proof.
  unfold strtok. cbv zeta. rewrite strspn_shift.
  replace (length pre + s + strspn m s d) with (length pre + (s + strspn m s d)) by lia.
  set (t := s + strspn m s d).
  rewrite peek_app_r. destruct (is_nul _); [done|].
  rewrite strcspn_shift.
  replace (length pre + t + strcspn m t d) with (length pre + (t + strcspn m t d)) by lia.
  rewrite peek_app_r. destruct (is_nul _); [done|].
  by rewrite insert_shift, Nat.add_succ_r.
Qed.

Lemma memmove_shift pre m d s n :
  memmove (pre ++ m) (length pre + d) (length pre + s) n = pre ++ memmove m d s n.
Proof. unfold memmove. by rewrite drop_app_add, list_inserts_app_r. Qed.

Lemma strtrim_shift pre m s :
  strtrim (pre ++ m) (length pre + s) = pre ++ strtrim m s.
Proof.
  unfold strtrim. cbv zeta. rewrite peek_app_r.
  destruct (is_nul (peek m s)); [done|].
  rewrite drop_app_add.
  set (k := span_len isspace (drop s m)).
  replace (length pre + s + k =? length pre + s) with (s + k =? s)
    by (destruct (Nat.eqb_spec (s + k) s), (Nat.eqb_spec (length pre + s + k) (length pre + s)); lia).
  replace (length pre + s + k) with (length pre + (s + k)) by lia.
  rewrite strlen_shift, memmove_shift.
  set (m1 := if s + k =? s then m else _).
  assert (Hm : (if s + k =? s then pre ++ m else pre ++ memmove m s (s + k) (strlen m (s + k) + 1))
               = pre ++ m1)
    by (unfold m1; by destruct (s + k =? s)).
  rewrite Hm. clear Hm.
  rewrite peek_app_r.
  destruct (is_nul (peek m1 s)); [done|].
  rewrite strlen_shift, drop_app_add.
  rewrite <- insert_shift. f_equal.
  pose proof (span_len_le isspace (rev (take (strlen m1 s) (drop s m1)))) as Hle.
  rewrite length_rev, length_take in Hle. lia.
Qed.

Lemma line_starts_with_shift pre m s k :
  line_starts_with (pre ++ m) (length pre + s) k = line_starts_with m s k.
Proof. unfold line_starts_with. by rewrite drop_app_add. Qed.

(** * Sizes *)

Lemma strtok_length m s d :
  length (strtok m s d).2 = length m.
Proof.
  unfold strtok. destruct (is_nul _); [done|]. destruct (is_nul _); [done|].
  simpl. apply length_insert.
Qed.

Lemma strtrim_length m s : length (strtrim m s) = length m.
Proof.
  unfold strtrim, memmove. destruct (is_nul _); [done|].
  set (m1 := if _ =? _ then m else _).
  assert (length m1 = length m) as Hm1.
  { unfold m1. destruct (_ =? _); [done|]. apply length_inserts. }
  destruct (is_nul _); [done|]. by rewrite length_insert.
Qed.

(** * The token loop: position independence and sizes *)

Lemma strlen_pos m t : is_nul (peek m t) = false -> 1 <= strlen m t.
Proof.
  unfold strlen. rewrite peek_drop. destruct (drop t m) as [|c s]; simpl.
  - unfold peek. simpl. done.
  - rewrite peek_cons_0. intros ->. simpl. lia.
Qed.

Lemma strcspn_pos m t d :
  is_nul (peek m t) = false -> in_set (peek m t) d = false -> 1 <= strcspn m t d.
Proof.
  unfold strcspn. rewrite peek_drop. destruct (drop t m) as [|c s]; simpl.
  - unfold peek. simpl. done.
  - rewrite peek_cons_0. intros -> ->. simpl. lia.
Qed.

Lemma strspn_stop m s d :
  is_nul (peek m (s + strspn m s d)) = false ->
  in_set (peek m (s + strspn m s d)) d = false.
Proof.
  unfold strspn. rewrite <- peek_drop_add. unfold peek.
  destruct (drop s m !! _) as [c|] eqn:Hc; simpl; [|done].
  apply span_len_stop in Hc. intros Hn. rewrite Hn in Hc. done.
Qed.

Lemma peek_insert_ne (m : list ascii) i j c : i <> j -> peek (<[i := c]> m) j = peek m j.
Proof. intros. unfold peek. by rewrite list_lookup_insert_ne. Qed.

(** The token that [strtok] returns is not empty. *)
Lemma strtok_token m s d t o m' :
  strtok m s d = (Some t, o, m') -> is_nul (peek m' t) = false.
Proof.
  unfold strtok. cbv zeta.
  destruct (is_nul (peek m (s + strspn m s d))) eqn:Hn; [done|].
  pose proof (strspn_stop m s d Hn) as Hd.
  pose proof (strcspn_pos m _ d Hn Hd) as Hpos.
  set (t0 := s + strspn m s d) in *.
  destruct (is_nul (peek m (t0 + strcspn m t0 d))); intros ?; simplify_eq; [done|].
  rewrite peek_insert_ne by lia. done.
Qed.

Lemma skip_quote_shift pre m t :
  skip_quote (pre ++ m) (length pre + t) = length pre + skip_quote m t.
Proof. unfold skip_quote. rewrite peek_app_r. destruct (is_quote _); lia. Qed.

Lemma skip_quote_bounds m t :
  is_nul (peek m t) = false -> 1 <= skip_quote m t + strlen m (skip_quote m t).
Proof.
  intros H. unfold skip_quote. destruct (is_quote _); [lia|].
  pose proof (strlen_pos m t H). lia.
Qed.

Lemma end_token_shift pre m t sd :
  1 <= t + strlen m t ->
  end_token (pre ++ m) (length pre + t) sd = pre ++ end_token m t sd.
Proof.
  intros Hpos. unfold end_token. destruct sd.
  - rewrite strcspn_shift, <- Nat.add_assoc. apply insert_shift.
  - cbv zeta. rewrite strlen_shift.
    replace (length pre + t + strlen m t - 1) with (length pre + (t + strlen m t - 1)) by lia.
    rewrite peek_app_r. destruct (is_quote _); [|done]. apply insert_shift.
Qed.

Lemma end_token_length m t sd : length (end_token m t sd) = length m.
Proof.
  unfold end_token. destruct sd; [apply length_insert|].
  cbv zeta. destruct (is_quote _); [apply length_insert|done].
Qed.

Lemma add_token_shift pre dl m t :
  add_token dl (pre ++ m) (length pre + t) = add_token dl m t.
Proof. unfold add_token. by rewrite strdup_shift. Qed.

Lemma parse_tokens_eq n dl m t o sd :
  parse_tokens (S n) dl m (Some t) o sd =
    let tk := skip_quote m t in
    let m1 := end_token m tk sd in
    let '(t2, o2, m2) := strtok m1 o delimiters in
    parse_tokens n (add_token dl m1 tk) m2 t2 o2 sd.
Proof. reflexivity. Qed.

Lemma parse_tokens_shift pre n :
  forall dl m tok o sd,
    (forall t, tok = Some t -> is_nul (peek m t) = false) ->
    parse_tokens n dl (pre ++ m) ((fun p => length pre + p) <$> tok) (length pre + o) sd
    = behind pre (parse_tokens n dl m tok o sd).
Proof.
  induction n as [|n IH]; intros dl m tok o sd Htok.
  { destruct tok; reflexivity. }
  destruct tok as [t|]; [|reflexivity].
  cbn [fmap option_fmap option_map]. rewrite !parse_tokens_eq. cbv zeta.
  specialize (Htok t eq_refl).
  rewrite skip_quote_shift.
  rewrite end_token_shift by (by apply skip_quote_bounds).
  rewrite add_token_shift, strtok_shift.
  destruct (strtok (end_token m (skip_quote m t) sd) o delimiters) as [[t2 o2] m2] eqn:Hs.
  apply IH. intros t' ->. by eapply strtok_token.
Qed.

Lemma parse_tokens_length n :
  forall dl m tok o sd dl' m',
    parse_tokens n dl m tok o sd = Done (dl', m') -> length m' = length m.
Proof.
  induction n as [|n IH]; intros dl m tok o sd dl' m'.
  { destruct tok; [done|]. by intros [= _ <-]. }
  destruct tok as [t|]; [|by intros [= _ <-]].
  rewrite parse_tokens_eq. cbv zeta.
  destruct (strtok _ o delimiters) as [[t2 o2] m2] eqn:Hs.
  intros H%IH. rewrite H.
  pose proof (strtok_length (end_token m (skip_quote m t) sd) o delimiters) as Hl.
  rewrite Hs in Hl. simpl in Hl. by rewrite Hl, end_token_length.
Qed.

Lemma parse_bash_array_shift pre dl m p sd :
  parse_bash_array dl (pre ++ m) (length pre + p) sd
  = behind pre (parse_bash_array dl m p sd).
Proof.
  unfold parse_bash_array. cbv zeta. rewrite strtok_shift.
  destruct (strtok m p delimiters) as [[t o] m'] eqn:Hs.
  replace (length (pre ++ m) - (length pre + p)) with (length m - p)
    by (rewrite length_app; lia).
  apply parse_tokens_shift. intros t' ->. by eapply strtok_token.
Qed.

Lemma parse_bash_array_length dl m p sd dl' m' :
  parse_bash_array dl m p sd = Done (dl', m') -> length m' = length m.
Proof.
  unfold parse_bash_array. cbv zeta.
  destruct (strtok m p delimiters) as [[t o] m1] eqn:Hs.
  intros H%parse_tokens_length. rewrite H.
  pose proof (strtok_length m p delimiters) as Hl. by rewrite Hs in Hl.
Qed.

(** * Tokens *)

Lemma tokens_of_delims ds s :
  Forall (fun c => is_delimiter c = true) ds -> tokens_of (ds ++ s) = tokens_of s.
Proof. induction 1 as [|c ds Hc _ IH]; [done|]. simpl. by rewrite Hc. Qed.

Lemma tokens_of_word w s :
  w <> [] ->
  Forall (fun c => is_delimiter c = false) w ->
  (forall c, s !! 0 = Some c -> is_delimiter c = true) ->
  tokens_of (w ++ s) = w :: tokens_of s.
Proof.
  intros Hne Hw Hs. induction Hw as [|c w Hc Hw IH]; [done|].
  cbn [app tokens_of]. rewrite Hc.
  destruct w as [|c2 w].
  - simpl. destruct s as [|c' s]; [done|].
    by rewrite (Hs c' eq_refl).
  - cbn [app]. inversion Hw as [|? ? Hc2 _]; subst. rewrite Hc2.
    change (c2 :: w ++ s) with ((c2 :: w) ++ s).
    by rewrite IH.
Qed.

Lemma tokens_of_single w :
  w <> [] -> Forall (fun c => is_delimiter c = false) w -> tokens_of w = [w].
Proof.
  intros Hne Hw. pose proof (tokens_of_word w [] Hne Hw) as H.
  rewrite app_nil_r in H. by apply H.
Qed.

Lemma tokens_of_length s : length (tokens_of s) <= length s.
Proof.
  induction s as [|c s IH]; [done|].
  cbn [tokens_of]. destruct (is_delimiter c); [simpl; lia|].
  destruct s as [|c' s]; [done|].
  destruct (is_delimiter c'); [simpl in *; lia|].
  destruct (tokens_of (c' :: s)); simpl in *; lia.
Qed.

(** * Spans as decompositions *)

Lemma span_split f s :
  exists w r, s = w ++ r /\ length w = span_len f s
              /\ Forall (fun c => f c = true) w
              /\ (forall c, r !! 0 = Some c -> f c = false).
Proof.
  exists (take (span_len f s) s), (drop (span_len f s) s).
  split_and!.
  - by rewrite take_drop.
  - rewrite length_take. pose proof (span_len_le f s). lia.
  - apply span_len_take.
  - intros c Hc. rewrite lookup_drop, Nat.add_0_r in Hc. by eapply span_len_stop.
Qed.

(** A string and what follows it in the buffer. *)
Lemma c_string_split s :
  exists r, s = c_string s ++ r /\ (forall c, r !! 0 = Some c -> is_nul c = true).
Proof.
  destruct (span_split (fun c => negb (is_nul c)) s) as (w & r & Hs & Hlen & Hw & Hr).
  exists r. split.
  - unfold c_string. rewrite <- Hlen. rewrite Hs at 2. by rewrite take_app_length.
  - intros c Hc. apply Hr in Hc. by destruct (is_nul c).
Qed.

Lemma c_string_end u r :
  Forall (fun c => is_nul c = false) u ->
  (forall c, r !! 0 = Some c -> is_nul c = true) ->
  c_string (u ++ r) = u.
Proof.
  intros Hu Hr. rewrite c_string_app by done.
  destruct r as [|c r]; [by rewrite c_string_nil, app_nil_r|].
  rewrite c_string_cons, (Hr c eq_refl). apply app_nil_r.
Qed.

(** Writing a NUL inside a string, or over its terminator, cuts it. *)
Lemma c_string_cut u r k :
  Forall (fun c => is_nul c = false) u ->
  (forall c, r !! 0 = Some c -> is_nul c = true) ->
  k <= length u ->
  c_string (<[k := NUL]> (u ++ r)) = take k u.
Proof.
  intros Hu Hr Hk.
  destruct (decide (k < length u)) as [Hlt|Hge].
  - rewrite insert_app_l by done.
    rewrite insert_take_drop by done.
    rewrite <- app_assoc. cbn [app].
    rewrite c_string_app by (by apply Forall_take).
    by rewrite c_string_cons, app_nil_r.
  - assert (k = length u) as -> by lia.
    rewrite take_ge by lia.
    rewrite insert_app_r_alt by lia. rewrite Nat.sub_diag.
    apply c_string_end; [done|].
    destruct r as [|c r]; [done|]. simpl. by intros ? [= <-].
Qed.

Lemma insert_nul_id (m : list ascii) i : is_nul (peek m i) = true -> <[i := NUL]> m = m.
Proof.
  unfold peek. destruct (m !! i) as [c|] eqn:Hc; simpl.
  - intros Hn. apply list_insert_id. rewrite Hc. f_equal.
    unfold is_nul in Hn. by apply Ascii.eqb_eq in Hn.
  - intros _. apply list_insert_ge. by apply lookup_ge_None.
Qed.

Lemma peek_app_l (u r : list ascii) i : i < length u -> peek (u ++ r) i = peek u i.
Proof. intros. unfold peek. by rewrite lookup_app_l. Qed.

Lemma peek_end (u r : list ascii) :
  (forall c, r !! 0 = Some c -> is_nul c = true) -> is_nul (peek (u ++ r) (length u)) = true.
Proof.
  intros Hr. unfold peek. rewrite lookup_app_r, Nat.sub_diag by lia.
  destruct (r !! 0) as [c|] eqn:Hc; simpl; [by apply Hr|done].
Qed.

Lemma strdup_c_string m p :
  strdup m p = String.string_of_list_ascii (c_string (drop p m)).
Proof. reflexivity. Qed.

(** * [strtok] against [tokens_of] *)

Lemma c_string_nul_head s : is_nul (peek s 0) = true -> c_string s = [].
Proof.
  destruct s as [|c s]; [done|]. rewrite peek_cons_0, c_string_cons. by intros ->.
Qed.

Lemma head_nul_peek (r : list ascii) :
  is_nul (peek r 0) = true -> forall c, r !! 0 = Some c -> is_nul c = true.
Proof. intros Hn c Hc. unfold peek in Hn. by rewrite Hc in Hn. Qed.

Lemma strtok_spec m s :
  forall tok o m', strtok m s delimiters = (tok, o, m') ->
    match tokens_of (c_string (drop s m)) with
    | [] => tok = None /\ m' = m
    | w :: ts =>
        exists t, tok = Some t /\ w <> [] /\ c_string (drop t m') = w
                  /\ t + length w <= o
                  /\ tokens_of (c_string (drop o m')) = ts
                  /\ o + strlen m' o = s + strlen m s
                  /\ (forall q, s + strlen m s <= q -> drop q m' = drop q m)
    end.
Proof.
  intros tok o m'. unfold strtok. cbv zeta.
  unfold strspn, strcspn.
  destruct (span_split (fun c => negb (is_nul c) && in_set c delimiters) (drop s m))
    as (ds & S1 & HS & Hlen & Hds & HS1).
  destruct (span_split (fun c => negb (is_nul c) && negb (in_set c delimiters)) S1)
    as (w & S2 & HS1' & Hlenw & Hw & HS2).
  rewrite <- Hlen.
  assert (Hdrop1 : drop (s + length ds) m = S1).
  { rewrite <- drop_drop, HS. apply drop_app_length. }
  rewrite Hdrop1, <- Hlenw. clear Hlen Hlenw.
  assert (Hdrop2 : drop (s + length ds + length w) m = S2).
  { rewrite <- drop_drop, Hdrop1, HS1'. apply drop_app_length. }
  assert (Hds_nn : Forall (fun c => is_nul c = false) ds).
  { eapply List.Forall_impl; [|exact Hds]. intros c Hc. simpl in Hc. by destruct (is_nul c). }
  assert (Hds_d : Forall (fun c => is_delimiter c = true) ds).
  { eapply List.Forall_impl; [|exact Hds]. intros c Hc. unfold is_delimiter.
    simpl in Hc. by destruct (is_nul c), (in_set c delimiters). }
  assert (Hw_nn : Forall (fun c => is_nul c = false) w).
  { eapply List.Forall_impl; [|exact Hw]. intros c Hc. simpl in Hc. by destruct (is_nul c). }
  assert (Hw_nd : Forall (fun c => is_delimiter c = false) w).
  { eapply List.Forall_impl; [|exact Hw]. intros c Hc. unfold is_delimiter.
    simpl in Hc. by destruct (is_nul c), (in_set c delimiters). }
  rewrite HS, c_string_app, tokens_of_delims by done.
  rewrite (peek_drop m (s + length ds)), Hdrop1.
  destruct (is_nul (peek S1 0)) eqn:Hn1.
  { intros [= <- <- <-]. by rewrite c_string_nul_head. }
  assert (Hwne : w <> []).
  { intros ->. simpl in HS1'. subst S2.
    destruct S1 as [|c S1]; [by compute in Hn1|].
    rewrite peek_cons_0 in Hn1. specialize (HS1 c eq_refl). specialize (HS2 c eq_refl).
    rewrite Hn1 in HS1, HS2. simpl in *. by rewrite HS1 in HS2. }
  rewrite (peek_drop m (s + length ds + length w)), Hdrop2.
  rewrite HS1'.
  destruct (is_nul (peek S2 0)) eqn:Hn2.
  - intros [= <- <- <-].
    pose proof (head_nul_peek S2 Hn2) as HS2n.
    rewrite (c_string_end w S2 Hw_nn HS2n).
    rewrite tokens_of_single by done.
    assert (Hend : strlen m (s + length ds + length w) = 0).
    { by rewrite strlen_c_string, Hdrop2, c_string_nul_head. }
    exists (s + length ds). split_and!; [done|done| |lia| | |done].
    + rewrite Hdrop1, HS1'. by apply c_string_end.
    + rewrite Hdrop2. by rewrite c_string_nul_head.
    + rewrite Hend, (strlen_c_string m s), HS, c_string_app, HS1', c_string_end by done.
      rewrite !length_app. lia.
  - intros [= <- <- <-].
    destruct S2 as [|d S3]; [by compute in Hn2|].
    rewrite peek_cons_0 in Hn2.
    assert (Hd : is_delimiter d = true).
    { specialize (HS2 d eq_refl). rewrite Hn2 in HS2. simpl in HS2.
      unfold is_delimiter. by destruct (in_set d delimiters). }
    rewrite c_string_app, c_string_cons, Hn2 by done.
    rewrite tokens_of_word; [|done|done|by intros ? [= <-]].
    cbn [tokens_of]. rewrite Hd.
    assert (Hlen : strlen m s = length ds + length w + S (length (c_string S3))).
    { rewrite strlen_c_string, HS, c_string_app, HS1', c_string_app, c_string_cons, Hn2 by done.
      rewrite !length_app. simpl. lia. }
    assert (Hrest : drop (S (s + length ds + length w))
                      (<[s + length ds + length w := NUL]> m) = S3).
    { rewrite drop_insert_lt by lia.
      rewrite <- (Nat.add_1_r (s + length ds + length w)), <- drop_drop, Hdrop2. done. }
    exists (s + length ds). split_and!; [done|done| |lia| | |].
    + rewrite drop_insert_ge by lia.
      rewrite Hdrop1, HS1'.
      replace (s + length ds + length w - (s + length ds)) with (length w) by lia.
      rewrite insert_app_r_alt, Nat.sub_diag by lia. cbn [insert list_insert].
      apply c_string_end; [done|]. by intros c [= <-].
    + by rewrite Hrest.
    + rewrite strlen_c_string, Hrest, Hlen. lia.
    + intros q Hq. rewrite drop_insert_lt by lia. done.
Qed.

(** * One token: the name that is recorded *)

Lemma strcspn_c_string m p d :
  strcspn m p d = span_len (fun c => negb (in_set c d)) (c_string (drop p m)).
Proof. unfold strcspn. apply span_len_c_string. Qed.

(** The string at [tk] is [u], and [tk + length u] is where it ends. *)
Lemma stripped_cut m tk u r :
  drop tk m = u ++ r ->
  Forall (fun c => is_nul c = false) u ->
  (forall c, r !! 0 = Some c -> is_nul c = true) ->
  let m1 := end_token m tk true in
  c_string (drop tk m1) = take (span_len (fun c => negb (is_operator c)) u) u
  /\ (forall o, tk + length u <= o -> drop o m1 = drop o m).
Proof.
  intros Hd Hu Hr. cbv zeta. unfold end_token.
  rewrite strcspn_c_string, Hd, (c_string_end u r) by done.
  set (k := span_len (fun c => negb (in_set c operators)) u).
  assert (Hk : k <= length u) by apply span_len_le.
  split.
  - rewrite drop_insert_ge by lia.
    replace (tk + k - tk) with k by lia.
    rewrite Hd. by apply c_string_cut.
  - intros o Ho.
    destruct (decide (k < length u)) as [Hlt|Hge].
    + by rewrite drop_insert_lt by lia.
    + assert (k = length u) as -> by lia.
      rewrite insert_nul_id; [done|].
      rewrite peek_drop, <- drop_drop, Hd, drop_app_length.
      unfold peek. destruct (r !! 0) as [c|] eqn:Hc; simpl; [by apply Hr|done].
Qed.

Lemma raw_cut m tk u r :
  drop tk m = u ++ r ->
  u <> [] ->
  Forall (fun c => is_nul c = false) u ->
  (forall c, r !! 0 = Some c -> is_nul c = true) ->
  let m1 := end_token m tk false in
  c_string (drop tk m1) =
    match u !! (length u - 1) with
    | Some c => if is_quote c then take (length u - 1) u else u
    | None => u
    end
  /\ (forall o, tk + length u <= o -> drop o m1 = drop o m).
Proof.
  intros Hd Hne Hu Hr. cbv zeta. unfold end_token. cbv zeta.
  rewrite strlen_c_string, Hd, (c_string_end u r) by done.
  assert (Hlen : 1 <= length u) by (destruct u; [done|simpl; lia]).
  replace (tk + length u - 1) with (tk + (length u - 1)) by lia.
  rewrite <- peek_drop_add, Hd, peek_app_l by lia.
  unfold peek. destruct (u !! (length u - 1)) as [c|] eqn:Hc; simpl.
  2:{ apply lookup_ge_None in Hc. lia. }
  destruct (is_quote c).
  - split.
    + rewrite drop_insert_ge by lia.
      replace (tk + (length u - 1) - tk) with (length u - 1) by lia.
      rewrite Hd. apply c_string_cut; [done|done|lia].
    + intros o Ho. by rewrite drop_insert_lt by lia.
  - split; [|done]. rewrite Hd. by apply c_string_end.
Qed.

(** The two steps on a token [w] that starts at [t]: the string recorded
    is the normalized token, and nothing at or after [o] is touched. *)
Lemma end_token_spec m t w sd :
  c_string (drop t m) = w -> w <> [] ->
  let tk := skip_quote m t in
  let m1 := end_token m tk sd in
  strdup m1 tk = normalized sd w
  /\ (forall o, t + length w <= o -> drop o m1 = drop o m).
Proof.
  intros Hw Hne. cbv zeta.
  destruct (c_string_split (drop t m)) as (r & Hd & Hr). rewrite Hw in Hd.
  pose proof (c_string_no_nul (drop t m)) as Hnn. rewrite Hw in Hnn.
  destruct w as [|c w]; [done|].
  assert (Hpeek : peek m t = c) by (by rewrite peek_drop, Hd).
  rewrite strdup_c_string. unfold normalized, skip_quote. rewrite Hpeek.
  pose proof (Forall_inv Hnn) as Hc. pose proof (Forall_inv_tail Hnn) as Hw'.
  simpl in Hc.
  destruct (is_quote c) eqn:Hq.
  - (* the token starts with a quote *)
    assert (Hd' : drop (S t) m = w ++ r).
    { rewrite <- (Nat.add_1_r t), <- drop_drop, Hd. done. }
    destruct sd.
    + destruct (stripped_cut m (S t) w r Hd' Hw' Hr) as [H1 H2].
      split.
      * rewrite H1. unfold stripped_name, drop_leading_quote. by rewrite Hq.
      * intros o Ho. apply H2. simpl in Ho. lia.
    + unfold raw_name, drop_leading_quote. rewrite Hq.
      destruct w as [|c2 w].
      * (* the token is a lone quote: the quote itself is overwritten *)
        assert (Hr0 : c_string r = []) by (by apply (c_string_end [] r)).
        simpl in Hd'.
        unfold end_token. cbv zeta.
        rewrite strlen_c_string, Hd', Hr0.
        simpl length. replace (S t + 0 - 1) with t by lia.
        rewrite Hpeek, Hq. split.
        -- rewrite drop_insert_lt by lia. by rewrite Hd', Hr0.
        -- intros o Ho. simpl in Ho. by rewrite drop_insert_lt by lia.
      * destruct (raw_cut m (S t) (c2 :: w) r Hd' ltac:(done) Hw' Hr) as [H1 H2].
        split; [by rewrite H1|].
        intros o Ho. apply H2. simpl in *. lia.
  - (* no quote to skip *)
    destruct sd.
    + destruct (stripped_cut m t (c :: w) r Hd Hnn Hr) as [H1 H2].
      split; [|done].
      rewrite H1. unfold stripped_name, drop_leading_quote. by rewrite Hq.
    + destruct (raw_cut m t (c :: w) r Hd ltac:(done) Hnn Hr) as [H1 H2].
      split; [|done].
      rewrite H1. unfold raw_name, drop_leading_quote. by rewrite Hq.
Qed.

Lemma alpm_list_find_str_decide dl s :
  alpm_list_find_str dl s = bool_decide (s ∈ dl).
Proof.
  unfold alpm_list_find_str.
  induction dl as [|x dl IH]; [done|].
  simpl. rewrite IH.
  destruct (String.eqb_spec s x) as [->|Hne]; simpl.
  - symmetry. apply bool_decide_eq_true. by left.
  - apply bool_decide_ext. rewrite elem_of_cons. split; [by right|].
    by intros [?|?].
Qed.

Lemma add_token_spec dl m tk :
  add_token dl m tk = insert_unique dl (strdup m tk).
Proof. unfold add_token, insert_unique, alpm_list_add. by rewrite alpm_list_find_str_decide. Qed.

(** * The token loop against [extract_names] *)

Lemma parse_tokens_None n dl m o sd : parse_tokens n dl m None o sd = Done (dl, m).
Proof. by destruct n. Qed.

Lemma strlen_drop_eq m m' o : drop o m' = drop o m -> strlen m' o = strlen m o.
Proof. unfold strlen. by intros ->. Qed.

Lemma parse_tokens_spec ts :
  forall n dl m t o sd w,
    c_string (drop t m) = w -> w <> [] -> t + length w <= o ->
    tokens_of (c_string (drop o m)) = ts ->
    length ts < n ->
    exists m',
      parse_tokens n dl m (Some t) o sd
      = Done (fold_left (fun set t => insert_unique set (normalized sd t)) (w :: ts) dl, m')
      /\ (forall q, o + strlen m o <= q -> drop q m' = drop q m).
Proof.
  induction ts as [|w2 ts IH]; intros n dl m t o sd w Hw Hne Ho Hts Hn;
    (destruct n as [|n]; [simpl in Hn; lia|]).
  - rewrite parse_tokens_eq. cbv zeta.
    destruct (end_token_spec m t w sd Hw Hne) as [H1 H2].
    rewrite add_token_spec, H1.
    destruct (strtok _ o delimiters) as [[t2 o2] m2] eqn:Hs.
    apply strtok_spec in Hs. rewrite (H2 o Ho), Hts in Hs.
    destruct Hs as [-> ->]. rewrite parse_tokens_None. eexists. split; [done|].
    intros q Hq. apply H2. lia.
  - rewrite parse_tokens_eq. cbv zeta.
    destruct (end_token_spec m t w sd Hw Hne) as [H1 H2].
    rewrite add_token_spec, H1.
    destruct (strtok _ o delimiters) as [[t2 o2] m2] eqn:Hs.
    apply strtok_spec in Hs. rewrite (H2 o Ho), Hts in Hs.
    destruct Hs as (t' & -> & Hne2 & Hw2 & Ho2 & Hts2 & Hend & Hfr).
    rewrite (strlen_drop_eq m _ o (H2 o Ho)) in Hend, Hfr.
    destruct (IH n (insert_unique dl (normalized sd w)) m2 t' o2 sd w2)
      as (m' & Hrun & Hfr'); [done|done|done|done|simpl in Hn; lia|].
    exists m'. split; [done|].
    intros q Hq. rewrite Hfr' by lia. rewrite Hfr by lia. apply H2. lia.
Qed.

(** [parse_bash_array] returns, with the names of the tokens of the
    string at [deparray] added to [deplist]. *)
Lemma parse_bash_array_spec dl m p sd :
  exists m',
    parse_bash_array dl m p sd = Done (extract_names sd dl (c_string (drop p m)), m')
    /\ (forall q, p + strlen m p <= q -> drop q m' = drop q m).
Proof.
  unfold parse_bash_array, extract_names. cbv zeta.
  destruct (strtok m p delimiters) as [[t o] m1] eqn:Hs.
  pose proof (tokens_of_length (c_string (drop p m))) as Hlen.
  pose proof (span_len_le (fun c => negb (is_nul c)) (drop p m)) as Hlen2.
  rewrite <- c_string_length in Hlen2. rewrite length_drop in Hlen2.
  apply strtok_spec in Hs.
  destruct (tokens_of (c_string (drop p m))) as [|w ts].
  - destruct Hs as [-> ->]. rewrite parse_tokens_None. by eexists.
  - destruct Hs as (t' & -> & Hne & Hw & Ho & Hts & Hend & Hfr).
    destruct (parse_tokens_spec ts (length m - p) dl m1 t' o sd w)
      as (m' & Hrun & Hfr'); [done|done|done|done|simpl in Hlen; lia|].
    exists m'. split; [done|].
    intros q Hq. rewrite Hfr' by lia. by apply Hfr.
Qed.

(** * The line loops *)

Lemma is_nul_newline : is_nul newline = false.
Proof. reflexivity. Qed.

(** [strchr] finds its character inside the buffer, at or after the
    start of the search. *)
Lemma strchr_Some m s c p :
  strchr m s c = Some p -> is_nul c = false ->
  s <= p /\ m !! p = Some c.
Proof.
  unfold strchr. cbv zeta.
  destruct (Ascii.eqb_spec (peek m (s + strcspn m s (String c EmptyString))) c) as [Heq|]; [|done].
  intros [= <-] Hc. split; [lia|].
  unfold peek in Heq. destruct (m !! _) as [c'|]; simpl in Heq; [by subst|].
  subst c. done.
Qed.

Lemma strchr_bounds m s c p :
  strchr m s c = Some p -> is_nul c = false -> s <= p < length m.
Proof.
  intros H Hc. destruct (strchr_Some m s c p H Hc) as [? Hp].
  apply lookup_lt_Some in Hp. lia.
Qed.

Lemma parse_bash_array_no_timeout dl m p sd : parse_bash_array dl m p sd <> OutOfFuel.
Proof. destruct (parse_bash_array_spec dl m p sd) as (m' & -> & _). done. Qed.

Lemma value_of_behind {A : Type} pre (o : outcome (A * buffer)) :
  value_of (behind pre o) = value_of o.
Proof. by destruct o as [[a m]| |]. Qed.

Section Loops.

Variables PKGBUILD_DEPENDS PKGBUILD_MAKEDEPENDS PKGBUILD_OPTDEPENDS : string.

Local Abbreviation get_loop := (pkgbuild_get_deps_loop PKGBUILD_DEPENDS PKGBUILD_MAKEDEPENDS).
Local Abbreviation pop_loop :=
  (populate_pkg_deps_loop PKGBUILD_DEPENDS PKGBUILD_MAKEDEPENDS PKGBUILD_OPTDEPENDS).

Lemma select_field_shift pre m s :
  select_field PKGBUILD_DEPENDS PKGBUILD_MAKEDEPENDS PKGBUILD_OPTDEPENDS
    (pre ++ m) (length pre + s)
  = select_field PKGBUILD_DEPENDS PKGBUILD_MAKEDEPENDS PKGBUILD_OPTDEPENDS m s.
Proof. unfold select_field. by rewrite !line_starts_with_shift. Qed.

(** ** Position independence *)

Lemma get_loop_shift pre n :
  forall m b dl,
    get_loop n (pre ++ m) (length pre + b) dl = behind pre (get_loop n m b dl).
Proof.
  induction n as [|n IH]; intros m b dl; [done|].
  cbn [pkgbuild_get_deps_loop].
  rewrite strchr_shift. destruct (strchr m b newline) as [nl|]; [|done].
  cbn [fmap option_fmap option_map].
  rewrite <- !Nat.add_succ_r, strtrim_shift, !line_starts_with_shift.
  destruct (_ && _).
  - rewrite strchr_shift. destruct (strchr _ (S nl) newline) as [b'|]; [|done].
    apply IH.
  - rewrite strchr_shift. destruct (strchr _ (S nl) ")") as [arrayend|]; [|done].
    cbn [fmap option_fmap option_map].
    rewrite insert_shift, strchr_shift.
    destruct (strchr _ (S nl) "(") as [paren|]; [|done].
    cbn [fmap option_fmap option_map].
    rewrite <- !Nat.add_succ_r, parse_bash_array_shift.
    destruct (parse_bash_array dl _ (S paren) true) as [[dl' m']| |]; [|done|done].
    apply IH.
Qed.

Lemma pop_loop_shift pre n :
  forall m b pkg,
    pop_loop n (pre ++ m) (length pre + b) pkg = behind pre (pop_loop n m b pkg).
Proof.
  induction n as [|n IH]; intros m b pkg; [done|].
  cbn [populate_pkg_deps_loop].
  rewrite strchr_shift. destruct (strchr m b newline) as [nl|]; [|done].
  cbn [fmap option_fmap option_map].
  rewrite <- !Nat.add_succ_r, strtrim_shift, select_field_shift.
  destruct (select_field _ _ _ _ _) as [f|].
  - rewrite strchr_shift. destruct (strchr _ (S nl) ")") as [arrayend|]; [|done].
    cbn [fmap option_fmap option_map].
    rewrite insert_shift, strchr_shift.
    destruct (strchr _ (S nl) "(") as [paren|]; [|done].
    cbn [fmap option_fmap option_map].
    rewrite <- !Nat.add_succ_r, parse_bash_array_shift.
    destruct (parse_bash_array _ _ (S paren) false) as [[dl' m']| |]; [|done|done].
    apply IH.
  - rewrite strchr_shift. destruct (strchr _ (S nl) newline) as [b'|]; [|done].
    apply IH.
Qed.

(** ** Sizes *)

Lemma get_loop_length n :
  forall m b dl dl' m',
    get_loop n m b dl = Done (dl', m') -> length m' = length m.
Proof.
  induction n as [|n IH]; intros m b dl dl' m'; [done|].
  cbn [pkgbuild_get_deps_loop].
  destruct (strchr m b newline) as [nl|]; [|by intros [= _ <-]].
  destruct (_ && _).
  - destruct (strchr _ (S nl) newline) as [b'|].
    + intros H%IH. by rewrite H, strtrim_length.
    + intros [= _ <-]. apply strtrim_length.
  - destruct (strchr _ (S nl) ")") as [arrayend|]; [|done].
    destruct (strchr _ (S nl) "(") as [paren|]; [|done].
    destruct (parse_bash_array dl _ (S paren) true) as [[dl1 m1]| |] eqn:Hp; [|done|done].
    intros H%IH. apply parse_bash_array_length in Hp.
    by rewrite H, Hp, length_insert, strtrim_length.
Qed.

Lemma pop_loop_length n :
  forall m b pkg pkg' m',
    pop_loop n m b pkg = Done (pkg', m') -> length m' = length m.
Proof.
  induction n as [|n IH]; intros m b pkg pkg' m'; [done|].
  cbn [populate_pkg_deps_loop].
  destruct (strchr m b newline) as [nl|]; [|by intros [= _ <-]].
  destruct (select_field _ _ _ _ _) as [f|].
  - destruct (strchr _ (S nl) ")") as [arrayend|]; [|done].
    destruct (strchr _ (S nl) "(") as [paren|]; [|done].
    destruct (parse_bash_array _ _ (S paren) false) as [[dl1 m1]| |] eqn:Hp; [|done|done].
    intros H%IH. apply parse_bash_array_length in Hp.
    by rewrite H, Hp, length_insert, strtrim_length.
  - destruct (strchr _ (S nl) newline) as [b'|].
    + intros H%IH. by rewrite H, strtrim_length.
    + intros [= _ <-]. apply strtrim_length.
Qed.

(** ** The fuel suffices *)

Lemma get_loop_no_timeout n :
  forall m b dl, length m - b < n -> get_loop n m b dl <> OutOfFuel.
Proof.
  induction n as [|n IH]; intros m b dl Hn; [lia|].
  cbn [pkgbuild_get_deps_loop].
  destruct (strchr m b newline) as [nl|] eqn:Hnl; [|done].
  apply strchr_bounds in Hnl as [? ?]; [|done].
  pose proof (strtrim_length m (S nl)) as Hl.
  destruct (_ && _).
  - destruct (strchr _ (S nl) newline) as [b'|] eqn:Hb; [|done].
    apply strchr_bounds in Hb as [? ?]; [|done].
    apply IH. lia.
  - destruct (strchr _ (S nl) ")") as [arrayend|] eqn:Ha; [|done].
    apply strchr_bounds in Ha as [? ?]; [|done].
    destruct (strchr _ (S nl) "(") as [paren|]; [|done].
    destruct (parse_bash_array dl _ (S paren) true) as [[dl1 m1]| |] eqn:Hp;
      [|done|by apply parse_bash_array_no_timeout in Hp].
    apply parse_bash_array_length in Hp. rewrite length_insert in Hp.
    apply IH. lia.
Qed.

Lemma pop_loop_no_timeout n :
  forall m b pkg, length m - b < n -> pop_loop n m b pkg <> OutOfFuel.
Proof.
  induction n as [|n IH]; intros m b pkg Hn; [lia|].
  cbn [populate_pkg_deps_loop].
  destruct (strchr m b newline) as [nl|] eqn:Hnl; [|done].
  apply strchr_bounds in Hnl as [? ?]; [|done].
  pose proof (strtrim_length m (S nl)) as Hl.
  destruct (select_field _ _ _ _ _) as [f|].
  - destruct (strchr _ (S nl) ")") as [arrayend|] eqn:Ha; [|done].
    apply strchr_bounds in Ha as [? ?]; [|done].
    destruct (strchr _ (S nl) "(") as [paren|]; [|done].
    destruct (parse_bash_array _ _ (S paren) false) as [[dl1 m1]| |] eqn:Hp;
      [|done|by apply parse_bash_array_no_timeout in Hp].
    apply parse_bash_array_length in Hp. rewrite length_insert in Hp.
    apply IH. lia.
  - destruct (strchr _ (S nl) newline) as [b'|] eqn:Hb; [|done].
    apply strchr_bounds in Hb as [? ?]; [|done].
    apply IH. lia.
Qed.

(** ** More fuel changes nothing *)

Lemma get_loop_fuel n :
  forall m b dl, get_loop n m b dl <> OutOfFuel ->
    forall k, get_loop (n + k) m b dl = get_loop n m b dl.
Proof.
  induction n as [|n IH]; intros m b dl Hn k; [done|].
  revert Hn. cbn [pkgbuild_get_deps_loop Nat.add].
  destruct (strchr m b newline) as [nl|]; [|done].
  destruct (_ && _).
  - destruct (strchr _ (S nl) newline) as [b'|]; [|done].
    intros Hn. by apply IH.
  - destruct (strchr _ (S nl) ")") as [arrayend|]; [|done].
    destruct (strchr _ (S nl) "(") as [paren|]; [|done].
    destruct (parse_bash_array dl _ (S paren) true) as [[dl1 m1]| |]; [|done|done].
    intros Hn. by apply IH.
Qed.

Lemma pop_loop_fuel n :
  forall m b pkg, pop_loop n m b pkg <> OutOfFuel ->
    forall k, pop_loop (n + k) m b pkg = pop_loop n m b pkg.
Proof.
  induction n as [|n IH]; intros m b pkg Hn k; [done|].
  revert Hn. cbn [populate_pkg_deps_loop Nat.add].
  destruct (strchr m b newline) as [nl|]; [|done].
  destruct (select_field _ _ _ _ _) as [f|].
  - destruct (strchr _ (S nl) ")") as [arrayend|]; [|done].
    destruct (strchr _ (S nl) "(") as [paren|]; [|done].
    destruct (parse_bash_array _ _ (S paren) false) as [[dl1 m1]| |]; [|done|done].
    intros Hn. by apply IH.
  - destruct (strchr _ (S nl) newline) as [b'|]; [|done].
    intros Hn. by apply IH.
Qed.

End Loops.

(** * The first line *)

Lemma list_ascii_app s1 s2 :
  String.list_ascii_of_string (s1 ++ s2)%string
  = String.list_ascii_of_string s1 ++ String.list_ascii_of_string s2.
Proof. induction s1 as [|c s1 IH]; [done|]. simpl. by rewrite IH. Qed.

Lemma strchr_here c r : is_nul c = false -> strchr (c :: r) 0 c = Some 0.
Proof.
  intros Hc. unfold strchr, strcspn. cbn [drop span_len in_set existsb String.list_ascii_of_string].
  rewrite Hc, Ascii.eqb_refl. simpl. by rewrite Ascii.eqb_refl.
Qed.

Lemma strchr_lookup m p c :
  m !! p = Some c -> is_nul c = false -> strchr m p c = Some p.
Proof.
  intros Hp Hc.
  assert (Hlen : length (take p m) = p).
  { rewrite length_take. apply lookup_lt_Some in Hp. lia. }
  assert (Hd : drop p m = c :: drop (S p) m) by (by apply drop_S).
  pose proof (strchr_shift (take p m) (drop p m) 0 c) as H.
  rewrite take_drop, Hlen, Nat.add_0_r in H.
  rewrite H, Hd, strchr_here by done. simpl. f_equal. lia.
Qed.

Section FirstLine.

Variables PKGBUILD_DEPENDS PKGBUILD_MAKEDEPENDS PKGBUILD_OPTDEPENDS : string.

Local Abbreviation get_loop := (pkgbuild_get_deps_loop PKGBUILD_DEPENDS PKGBUILD_MAKEDEPENDS).
Local Abbreviation pop_loop :=
  (populate_pkg_deps_loop PKGBUILD_DEPENDS PKGBUILD_MAKEDEPENDS PKGBUILD_OPTDEPENDS).

(** The loops depend on [bptr] only through the newline found from it. *)
Lemma get_loop_same_line n m b1 b2 dl :
  strchr m b1 newline = strchr m b2 newline ->
  get_loop (S n) m b1 dl = get_loop (S n) m b2 dl.
Proof. intros H. cbn [pkgbuild_get_deps_loop]. by rewrite H. Qed.

Lemma pop_loop_same_line n m b1 b2 pkg :
  strchr m b1 newline = strchr m b2 newline ->
  pop_loop (S n) m b1 pkg = pop_loop (S n) m b2 pkg.
Proof. intros H. cbn [populate_pkg_deps_loop]. by rewrite H. Qed.

(** What precedes the first newline plays no part. *)
Lemma get_loop_first_line n pre m dl :
  strchr (pre ++ m) 0 newline = Some (length pre) ->
  get_loop (S n) (pre ++ m) 0 dl = behind pre (get_loop (S n) m 0 dl).
Proof.
  intros H. rewrite <- get_loop_shift.
  apply get_loop_same_line. rewrite H. symmetry.
  apply strchr_Some in H as [_ H]; [|done].
  rewrite Nat.add_0_r. by apply strchr_lookup.
Qed.

Lemma pop_loop_first_line n pre m pkg :
  strchr (pre ++ m) 0 newline = Some (length pre) ->
  pop_loop (S n) (pre ++ m) 0 pkg = behind pre (pop_loop (S n) m 0 pkg).
Proof.
  intros H. rewrite <- pop_loop_shift.
  apply pop_loop_same_line. rewrite H. symmetry.
  apply strchr_Some in H as [_ H]; [|done].
  rewrite Nat.add_0_r. by apply strchr_lookup.
Qed.

Lemma strchr_first_line_length m k :
  strchr m 0 newline = Some k -> k = first_line_length m.
Proof.
  unfold strchr, first_line_length. cbv zeta. destruct (Ascii.eqb _ _); [|done].
  by intros [= <-].
Qed.

(** The buffer after a run that returns: same size, same first line. *)
Lemma get_deps_frame m dl m' :
  pkgbuild_get_deps PKGBUILD_DEPENDS PKGBUILD_MAKEDEPENDS m = Done (dl, m') ->
  length m' = length m
  /\ take (first_line_length m) m' = take (first_line_length m) m.
Proof.
  unfold pkgbuild_get_deps. intros H. split; [by eapply get_loop_length|].
  destruct (strchr m 0 newline) as [k|] eqn:Hk.
  - pose proof (strchr_first_line_length _ _ Hk) as <-.
    pose proof (strchr_bounds _ _ _ _ Hk is_nul_newline) as [_ Hlt].
    assert (Hlen : length (take k m) = k) by (rewrite length_take; lia).
    rewrite <- (take_drop k m) in H at 2.
    rewrite get_loop_first_line in H
      by (by rewrite take_drop, Hlen).
    destruct (get_loop _ (drop k m) 0 []) as [[dl1 m1]| |]; [|done|done].
    injection H as <- <-.
    rewrite <- Hlen at 1. by rewrite take_app_length.
  - cbn [pkgbuild_get_deps_loop] in H. rewrite Hk in H. by injection H as <- <-.
Qed.

Lemma populate_frame pkg m pkg' m' :
  populate_pkg_deps PKGBUILD_DEPENDS PKGBUILD_MAKEDEPENDS PKGBUILD_OPTDEPENDS pkg m
    = Done (pkg', m') ->
  length m' = length m
  /\ take (first_line_length m) m' = take (first_line_length m) m.
Proof.
  unfold populate_pkg_deps. intros H. split; [by eapply pop_loop_length|].
  destruct (strchr m 0 newline) as [k|] eqn:Hk.
  - pose proof (strchr_first_line_length _ _ Hk) as <-.
    pose proof (strchr_bounds _ _ _ _ Hk is_nul_newline) as [_ Hlt].
    assert (Hlen : length (take k m) = k) by (rewrite length_take; lia).
    rewrite <- (take_drop k m) in H at 2.
    rewrite pop_loop_first_line in H
      by (by rewrite take_drop, Hlen).
    destruct (pop_loop _ (drop k m) 0 pkg) as [[p1 m1]| |]; [|done|done].
    injection H as <- <-.
    rewrite <- Hlen at 1. by rewrite take_app_length.
  - cbn [populate_pkg_deps_loop] in H. rewrite Hk in H. by injection H as <- <-.
Qed.

End FirstLine.

(** * The terminating NUL stays *)

Lemma terminated_insert m i : terminated m -> terminated (<[i := NUL]> m).
Proof.
  intros [body ->].
  destruct (decide (i < length body)) as [Hlt|Hge].
  - exists (<[i := NUL]> body). by rewrite insert_app_l.
  - exists body. rewrite insert_app_r_alt by lia.
    destruct (i - length body) as [|k]; done.
Qed.

Lemma list_inserts_app_head {A : Type} (k l1 l2 : list A) :
  forall i, i + length k <= length l1 ->
    list_inserts i k (l1 ++ l2) = list_inserts i k l1 ++ l2.
Proof.
  induction k as [|y k IH]; intros i Hi; [done|].
  simpl in *. rewrite IH by lia.
  rewrite insert_app_l; [done|]. rewrite length_inserts. lia.
Qed.

Lemma span_len_before_nul f body :
  f NUL = false -> span_len f (body ++ [NUL]) <= length body.
Proof.
  intros Hf. induction body as [|c body IH]; simpl; [by rewrite Hf|].
  destruct (f c); lia.
Qed.

Lemma span_len_drop_before_nul f body p :
  f NUL = false -> p <= length body ->
  p + span_len f (drop p (body ++ [NUL])) <= length body.
Proof.
  intros Hf Hp. rewrite drop_app_le by done.
  pose proof (span_len_before_nul f (drop p body) Hf) as H.
  rewrite length_drop in H. lia.
Qed.

Lemma peek_past_end (m : list ascii) p : length m <= p -> peek m p = NUL.
Proof. intros H. unfold peek. by rewrite lookup_ge_None_2. Qed.

Lemma strtrim_terminated m s : terminated m -> terminated (strtrim m s).
Proof.
  intros Hm. unfold strtrim.
  destruct (is_nul (peek m s)) eqn:Hn; [done|].
  cbv zeta.
  set (m1 := if s + span_len isspace (drop s m) =? s then m else _).
  assert (Hm1 : terminated m1).
  { unfold m1. destruct (_ =? _) eqn:Heq; [done|].
    apply Nat.eqb_neq in Heq.
    destruct Hm as [body ->].
    assert (Hs : s <= length body).
    { destruct (decide (s <= length body)); [done|].
      rewrite peek_past_end in Hn; [done|]. rewrite length_app. simpl. lia. }
    pose proof (span_len_drop_before_nul isspace body s eq_refl Hs) as Hp.
    set (pch := s + span_len isspace (drop s (body ++ [NUL]))) in *.
    pose proof (span_len_drop_before_nul (fun c => negb (is_nul c)) body pch eq_refl Hp) as Hl.
    fold (strlen (body ++ [NUL]) pch) in Hl.
    unfold memmove.
    exists (list_inserts s (take (strlen (body ++ [NUL]) pch + 1)
                              (drop pch (body ++ [NUL]))) body).
    apply list_inserts_app_head.
    rewrite length_take, length_drop, length_app. simpl. lia. }
  destruct (is_nul (peek m1 s)); [done|]. by apply terminated_insert.
Qed.

Lemma strtok_terminated m s d : terminated m -> terminated (strtok m s d).2.
Proof.
  intros Hm. unfold strtok. cbv zeta.
  destruct (is_nul _); [done|]. destruct (is_nul _); [done|].
  by apply terminated_insert.
Qed.

Lemma end_token_terminated m t sd : terminated m -> terminated (end_token m t sd).
Proof.
  intros Hm. unfold end_token. destruct sd; [by apply terminated_insert|].
  cbv zeta. destruct (is_quote _); [by apply terminated_insert|done].
Qed.

Lemma parse_tokens_terminated n :
  forall dl m tok o sd dl' m',
    parse_tokens n dl m tok o sd = Done (dl', m') -> terminated m -> terminated m'.
Proof.
  induction n as [|n IH]; intros dl m tok o sd dl' m'.
  { destruct tok; [done|]. by intros [= _ <-]. }
  destruct tok as [t|]; [|by intros [= _ <-]].
  rewrite parse_tokens_eq. cbv zeta.
  destruct (strtok _ o delimiters) as [[t2 o2] m2] eqn:Hs.
  intros H Hm. eapply IH; [exact H|].
  pose proof (strtok_terminated (end_token m (skip_quote m t) sd) o delimiters
                (end_token_terminated _ _ _ Hm)) as Ht.
  by rewrite Hs in Ht.
Qed.

Lemma parse_bash_array_terminated dl m p sd dl' m' :
  parse_bash_array dl m p sd = Done (dl', m') -> terminated m -> terminated m'.
Proof.
  unfold parse_bash_array. cbv zeta.
  destruct (strtok m p delimiters) as [[t o] m1] eqn:Hs.
  intros H Hm. eapply parse_tokens_terminated; [exact H|].
  pose proof (strtok_terminated m p delimiters Hm) as Ht. by rewrite Hs in Ht.
Qed.

Section Terminator.

Variables PKGBUILD_DEPENDS PKGBUILD_MAKEDEPENDS PKGBUILD_OPTDEPENDS : string.

Lemma get_loop_terminated n :
  forall m b dl dl' m',
    pkgbuild_get_deps_loop PKGBUILD_DEPENDS PKGBUILD_MAKEDEPENDS n m b dl = Done (dl', m') ->
    terminated m -> terminated m'.
Proof.
  induction n as [|n IH]; intros m b dl dl' m'; [done|].
  cbn [pkgbuild_get_deps_loop].
  destruct (strchr m b newline) as [nl|]; [|by intros [= _ <-]].
  destruct (_ && _).
  - destruct (strchr _ (S nl) newline) as [b'|].
    + intros H Hm. eapply IH; [exact H|]. by apply strtrim_terminated.
    + intros [= _ <-] Hm. by apply strtrim_terminated.
  - destruct (strchr _ (S nl) ")") as [arrayend|]; [|done].
    destruct (strchr _ (S nl) "(") as [paren|]; [|done].
    destruct (parse_bash_array dl _ (S paren) true) as [[dl1 m1]| |] eqn:Hp; [|done|done].
    intros H Hm. eapply IH; [exact H|].
    eapply parse_bash_array_terminated; [exact Hp|].
    by apply terminated_insert, strtrim_terminated.
Qed.

Lemma pop_loop_terminated n :
  forall m b pkg pkg' m',
    populate_pkg_deps_loop PKGBUILD_DEPENDS PKGBUILD_MAKEDEPENDS PKGBUILD_OPTDEPENDS
      n m b pkg = Done (pkg', m') ->
    terminated m -> terminated m'.
Proof.
  induction n as [|n IH]; intros m b pkg pkg' m'; [done|].
  cbn [populate_pkg_deps_loop].
  destruct (strchr m b newline) as [nl|]; [|by intros [= _ <-]].
  destruct (select_field _ _ _ _ _) as [f|].
  - destruct (strchr _ (S nl) ")") as [arrayend|]; [|done].
    destruct (strchr _ (S nl) "(") as [paren|]; [|done].
    destruct (parse_bash_array _ _ (S paren) false) as [[dl1 m1]| |] eqn:Hp; [|done|done].
    intros H Hm. eapply IH; [exact H|].
    eapply parse_bash_array_terminated; [exact Hp|].
    by apply terminated_insert, strtrim_terminated.
  - destruct (strchr _ (S nl) newline) as [b'|].
    + intros H Hm. eapply IH; [exact H|]. by apply strtrim_terminated.
    + intros [= _ <-] Hm. by apply strtrim_terminated.
Qed.

End Terminator.

Lemma buffer_of_terminated text : terminated (buffer_of text).
Proof. by eexists. Qed.

Lemma in_set_single c d : in_set c (String d EmptyString) = Ascii.eqb c d.
Proof. unfold in_set. simpl. apply orb_false_r. Qed.

Lemma strchr_after_line (l r : list ascii) :
  forallb (fun c => negb (Ascii.eqb c newline) && negb (is_nul c)) l = true ->
  strchr (l ++ newline :: r) 0 newline = Some (length l).
Proof.
  intros Hl. unfold strchr, strcspn. cbv zeta. rewrite drop_0.
  rewrite span_len_app_stop.
  - simpl. unfold peek. rewrite lookup_app_r, Nat.sub_diag by lia. done.
  - apply Forall_forall. intros c Hc.
    rewrite forallb_forall in Hl. specialize (Hl c Hc).
    rewrite in_set_single. by destruct (Ascii.eqb c newline), (is_nul c).
  - by rewrite in_set_single, Ascii.eqb_refl.
Qed.

Lemma strchr_no_newline (l : list ascii) :
  forallb (fun c => negb (Ascii.eqb c newline) && negb (is_nul c)) l = true ->
  strchr (l ++ [NUL]) 0 newline = None.
Proof.
  intros Hl. destruct (strchr _ 0 newline) as [p|] eqn:Hp; [|done].
  apply strchr_Some in Hp as [_ Hp]; [|done].
  apply list_elem_of_lookup_2, elem_of_app in Hp as [Hp|Hp].
  - rewrite forallb_forall in Hl. apply list_elem_of_In, Hl in Hp.
    by rewrite Ascii.eqb_refl in Hp.
  - by apply list_elem_of_singleton in Hp.
Qed.

Section ParserClaims.

Variables PKGBUILD_DEPENDS PKGBUILD_MAKEDEPENDS PKGBUILD_OPTDEPENDS : string.

Local Abbreviation get_deps := (pkgbuild_get_deps PKGBUILD_DEPENDS PKGBUILD_MAKEDEPENDS).
Local Abbreviation populate :=
  (populate_pkg_deps PKGBUILD_DEPENDS PKGBUILD_MAKEDEPENDS PKGBUILD_OPTDEPENDS).

Lemma get_deps_no_timeout m : get_deps m <> OutOfFuel.
Proof. apply get_loop_no_timeout. lia. Qed.

Lemma populate_no_timeout pkg m : populate pkg m <> OutOfFuel.
Proof. apply pop_loop_no_timeout. lia. Qed.

Lemma get_deps_skips_first_line (l r : list ascii) :
  forallb (fun c => negb (Ascii.eqb c newline) && negb (is_nul c)) l = true ->
  get_deps (l ++ newline :: r) = behind l (get_deps (newline :: r)).
Proof.
  intros Hl. unfold pkgbuild_get_deps.
  rewrite get_loop_first_line by (by apply strchr_after_line).
  f_equal. rewrite length_app.
  replace (S (length l + length (newline :: r))) with (S (length (newline :: r)) + length l) by lia.
  apply get_loop_fuel, get_loop_no_timeout. lia.
Qed.

Lemma populate_skips_first_line pkg (l r : list ascii) :
  forallb (fun c => negb (Ascii.eqb c newline) && negb (is_nul c)) l = true ->
  populate pkg (l ++ newline :: r) = behind l (populate pkg (newline :: r)).
Proof.
  intros Hl. unfold populate_pkg_deps.
  rewrite pop_loop_first_line by (by apply strchr_after_line).
  f_equal. rewrite length_app.
  replace (S (length l + length (newline :: r))) with (S (length (newline :: r)) + length l) by lia.
  apply pop_loop_fuel, pop_loop_no_timeout. lia.
Qed.

(** C10.  Both extractors look for a newline before they look at a
    line, so the first line of the recipe is never examined: whatever
    that line is, the extraction yields what it yields when the line
    is empty, and a recipe made of that one line yields no dependency
    at all. *)
Theorem first_line_is_never_examined (first rest : string) (pkg : aur_pkg_t) :
  is_line first = true ->
  value_of (get_deps (buffer_of (first ++ nl ++ rest)))
    = value_of (get_deps (buffer_of (nl ++ rest)))
  /\ value_of (populate pkg (buffer_of (first ++ nl ++ rest)))
    = value_of (populate pkg (buffer_of (nl ++ rest)))
  /\ get_deps (buffer_of first) = Done ([], buffer_of first)
  /\ populate pkg (buffer_of first) = Done (pkg, buffer_of first).
Proof.
  intros Hl. unfold is_line in Hl. unfold buffer_of.
  rewrite !list_ascii_app. cbn [nl String.list_ascii_of_string app].
  rewrite <- !app_assoc. cbn [app].
  split_and!.
  - by rewrite get_deps_skips_first_line, value_of_behind.
  - by rewrite populate_skips_first_line, value_of_behind.
  - unfold pkgbuild_get_deps. cbn [pkgbuild_get_deps_loop].
    by rewrite strchr_no_newline.
  - unfold populate_pkg_deps. cbn [populate_pkg_deps_loop].
    by rewrite strchr_no_newline.
Qed.

(** C9 (amended).  The parser writes into the buffer of the caller: it
    trims lines and ends arrays and tokens in place.  What a call that
    returns leaves as it was is the size of the buffer, its first line
    and the NUL at its end; and every call ends, by returning or by a
    fault. *)
Theorem parser_keeps_size_and_first_line (text : string) (pkg : aur_pkg_t) :
  let m := buffer_of text in
  let k := first_line_length m in
  match get_deps m with
  | Done (_, m') => length m' = length m /\ take k m' = take k m /\ terminated m'
  | Crash => True
  | OutOfFuel => False
  end
  /\ match populate pkg m with
     | Done (_, m') => length m' = length m /\ take k m' = take k m /\ terminated m'
     | Crash => True
     | OutOfFuel => False
     end.
Proof.
  cbv zeta. split.
  - pose proof (get_deps_no_timeout (buffer_of text)) as Ht.
    destruct (get_deps _) as [[dl m']| |] eqn:H; [|done|done].
    destruct (get_deps_frame _ _ _ _ _ H) as [H1 H2].
    split_and!; [done|done|].
    eapply get_loop_terminated; [exact H|apply buffer_of_terminated].
  - pose proof (populate_no_timeout pkg (buffer_of text)) as Ht.
    destruct (populate _ _) as [[dl m']| |] eqn:H; [|done|done].
    destruct (populate_frame _ _ _ _ _ _ _ H) as [H1 H2].
    split_and!; [done|done|].
    eapply pop_loop_terminated; [exact H|apply buffer_of_terminated].
Qed.

End ParserClaims.

Lemma first_line_is_never_examined_witness :
  is_line "depends=(a b)" = true
  /\ value_of (pkgbuild_get_deps "depends=(" "makedepends=("
                 (buffer_of ("depends=(a b)" ++ nl ++ "makedepends=(c)")))
     = value_of (pkgbuild_get_deps "depends=(" "makedepends=("
                 (buffer_of (nl ++ "makedepends=(c)"))).
Proof.
  split; [reflexivity|].
  apply (first_line_is_never_examined "depends=(" "makedepends=(" "optdepends=("
           "depends=(a b)" "makedepends=(c)"
           {| name := "x"; depends := []; makedepends := []; optdepends := [] |}).
  reflexivity.
Defined.

(** * A recipe with one array *)

Lemma span_len_head_stop f (s : list ascii) :
  f (peek s 0) = false -> s <> [] -> span_len f s = 0.
Proof. destruct s as [|c s]; [done|]. rewrite peek_cons_0. simpl. by intros ->. Qed.

Lemma span_len_app_stop_at f (a b : list ascii) c :
  f c = false -> span_len f (a ++ c :: b) = span_len f a.
Proof.
  intros Hc. induction a as [|x a IH]; simpl; [by rewrite Hc|].
  destruct (f x); [by rewrite IH|done].
Qed.

(** [strtrim] on a string that starts with [P], neither end of which is
    whitespace: [P] stays, and the string that follows it is what
    followed it, without its trailing whitespace. *)
Lemma strtrim_line (P' T : list ascii) z :
  let P := P' ++ [z] in
  isspace z = false -> isspace (peek P 0) = false ->
  Forall (fun c => is_nul c = false) P ->
  Forall (fun c => is_nul c = false) T ->
  exists R, strtrim (P ++ T ++ [NUL]) 0 = P ++ R
            /\ c_string R = without_trailing_space T.
Proof.
  intros P Hz Hhd HP HT.
  assert (HPne : P <> []) by (unfold P; by destruct P').
  assert (Hpeek : peek (P ++ T ++ [NUL]) 0 = peek P 0).
  { apply peek_app_l. destruct P; [done|simpl; lia]. }
  assert (Hnn : is_nul (peek P 0) = false).
  { destruct P as [|c P0]; [done|]. rewrite peek_cons_0. by apply Forall_inv in HP. }
  unfold strtrim. rewrite Hpeek, Hnn. cbv zeta. rewrite drop_0.
  rewrite span_len_head_stop; [|by rewrite Hpeek|by destruct P].
  cbn [Nat.add Nat.eqb]. rewrite Hpeek, Hnn.
  assert (Hstr : c_string (P ++ T ++ [NUL]) = P ++ T).
  { rewrite app_assoc. apply c_string_end; [by apply Forall_app|].
    intros c [= <-]. done. }
  rewrite strlen_c_string, drop_0, Hstr.
  assert (Htake : take (length (P ++ T)) (P ++ T ++ [NUL]) = P ++ T).
  { rewrite app_assoc. apply take_app_length. }
  rewrite Htake.
  assert (Hback : span_len isspace (rev (P ++ T)) = span_len isspace (rev T)).
  { unfold P. rewrite !rev_app_distr. cbn [rev app]. by apply span_len_app_stop_at. }
  rewrite Hback.
  pose proof (span_len_le isspace (rev T)) as Hle. rewrite length_rev in Hle.
  rewrite length_app.
  replace (length P + length T - span_len isspace (rev T))
    with (length P + (length T - span_len isspace (rev T))) by lia.
  rewrite insert_app_r. eexists. split; [done|].
  apply c_string_cut; [done|by intros c [= <-]|lia].
Qed.

Lemma strchr_found (l r : list ascii) c :
  is_nul c = false ->
  Forall (fun x => Ascii.eqb x c = false /\ is_nul x = false) l ->
  strchr (l ++ c :: r) 0 c = Some (length l).
Proof.
  intros Hc Hl. unfold strchr, strcspn. cbv zeta. rewrite drop_0.
  rewrite span_len_app_stop.
  - simpl. unfold peek. rewrite lookup_app_r, Nat.sub_diag by lia. simpl.
    by rewrite Ascii.eqb_refl.
  - eapply List.Forall_impl; [|exact Hl]. intros x [Hx Hn]. simpl.
    by rewrite in_set_single, Hx, Hn.
  - by rewrite in_set_single, Ascii.eqb_refl, Hc.
Qed.

Lemma strchr_absent (m : list ascii) p c :
  is_nul c = false ->
  Forall (fun x => Ascii.eqb x c = false) (c_string (drop p m)) -> strchr m p c = None.
Proof.
  intros Hc Hm. unfold strchr. cbv zeta.
  rewrite strcspn_c_string.
  destruct (c_string_split (drop p m)) as (r & Hd & Hr).
  set (cs := c_string (drop p m)) in *.
  assert (Hspan : span_len (fun x => negb (in_set x (String c EmptyString))) cs = length cs).
  { apply span_len_all. eapply List.Forall_impl; [|exact Hm]. intros x Hx.
    simpl. by rewrite in_set_single, Hx. }
  rewrite Hspan, <- peek_drop_add, Hd.
  pose proof (peek_end cs r Hr) as Hn.
  destruct (Ascii.eqb_spec (peek (cs ++ r) (length cs)) c) as [Heq|]; [|done].
  rewrite Heq in Hn. by rewrite Hn in Hc.
Qed.

Lemma insert_middle (a b : list ascii) x y :
  <[length a := y]> (a ++ x :: b) = a ++ y :: b.
Proof. by rewrite insert_app_r_alt, Nat.sub_diag by lia. Qed.

Lemma insert_cons_S (l : list ascii) c n y : <[S n := y]> (c :: l) = c :: <[n := y]> l.
Proof. reflexivity. Qed.

(** The shape of a keyword. *)
Lemma is_keyword_shape k :
  is_keyword k = true ->
  exists K0, String.list_ascii_of_string k = K0 ++ ["("%char]
             /\ Forall (fun c => Ascii.eqb c "(" = false /\ Ascii.eqb c ")" = false
                                 /\ is_nul c = false) K0
             /\ isspace (peek (K0 ++ ["("%char]) 0) = false.
Proof.
  unfold is_keyword. cbv zeta.
  set (K := String.list_ascii_of_string k).
  destruct (rev K) as [|c r] eqn:Hrev; [done|].
  intros H. apply andb_true_iff in H as [H Hsp].
  apply andb_true_iff in H as [Hc Hr].
  apply Ascii.eqb_eq in Hc. subst c.
  assert (HK : K = rev r ++ ["("%char]).
  { rewrite <- (rev_involutive K), Hrev. done. }
  exists (rev r). split_and!; [done| |].
  - apply Forall_forall. intros x Hx. apply in_rev in Hx.
    rewrite forallb_forall in Hr. specialize (Hr x Hx).
    by destruct (Ascii.eqb x "("), (Ascii.eqb x ")"), (is_nul x).
  - rewrite <- HK. by destruct (isspace (peek K 0)).
Qed.

Lemma line_starts_with_keyword (K rest : list ascii) k :
  String.list_ascii_of_string k = K ->
  Forall (fun c => is_nul c = false) K ->
  line_starts_with (K ++ rest) 0 k = 0%Z.
Proof.
  intros <- HK. unfold line_starts_with. cbv zeta.
  rewrite (span_len_all (fun c => negb (is_nul c))).
  - rewrite (take_ge (String.list_ascii_of_string k)) by lia.
    rewrite drop_0, take_app_length. by rewrite bool_decide_eq_true_2.
  - eapply List.Forall_impl; [|exact HK]. intros c ->. done.
Qed.

Lemma line_starts_with_other (l : list ascii) k k2 :
  differ_at_start k k2 = true ->
  l !! 0 = String.list_ascii_of_string k2 !! 0 ->
  line_starts_with l 0 k <> 0%Z.
Proof.
  unfold differ_at_start, line_starts_with.
  destruct k as [|c1 k]; [done|]. destruct k2 as [|c2 k2]; [done|].
  intros H Hl. apply andb_true_iff in H as [Hn Hne].
  cbv zeta. cbn [String.list_ascii_of_string span_len] in *.
  rewrite Hn. cbn [take length]. rewrite drop_0.
  destruct l as [|c l]; [done|]. injection Hl as ->.
  rewrite bool_decide_eq_false_2; [done|].
  cbn [take]. intros [= -> _]. by rewrite Ascii.eqb_refl in Hne.
Qed.

Section OneArray.

Variables (K0 body T : list ascii).
Hypothesis HK0 : Forall (fun c => Ascii.eqb c "(" = false /\ Ascii.eqb c ")" = false
                                  /\ is_nul c = false) K0.
Hypothesis Hstart : isspace (peek (K0 ++ ["("%char]) 0) = false.
Hypothesis Hbody : Forall (fun c => Ascii.eqb c ")" = false /\ is_nul c = false) body.
Hypothesis HT : Forall (fun c => is_nul c = false) T.
Hypothesis HTnl : Forall (fun c => Ascii.eqb c newline = false) (without_trailing_space T).

Local Abbreviation K := (K0 ++ ["("%char]).
Local Abbreviation line := (K ++ body ++ ")"%char :: T ++ [NUL]).

(** The line after [strtrim], on its own. *)
Lemma array_line_trimmed :
  exists R, strtrim (newline :: line) 1 = newline :: K ++ body ++ ")"%char :: R
            /\ Forall (fun c => Ascii.eqb c newline = false) (c_string R).
Proof.
  destruct (strtrim_line (K ++ body) T ")"%char) as (R & HR & HRT).
  - done.
  - rewrite <- !app_assoc, (app_assoc K0), peek_app_l; [exact Hstart|].
    rewrite length_app. simpl. lia.
  - apply Forall_app. split; [|by constructor].
    apply Forall_app. split.
    + apply Forall_app. split; [|by constructor].
      eapply List.Forall_impl; [|exact HK0]. by intros c (_ & _ & ?).
    + eapply List.Forall_impl; [|exact Hbody]. by intros c (_ & ?).
  - done.
  - exists R. split; [|by rewrite HRT].
    pose proof (strtrim_shift [newline] line 0) as Hs. cbn [length Nat.add app] in Hs.
    rewrite Hs. cbn [app]. f_equal.
    rewrite <- !app_assoc in HR. cbn [app] in HR. rewrite <- !app_assoc. exact HR.
Qed.

(** The steps of either loop on the line, once it has matched. *)
Lemma array_line_steps (R : list ascii) (dl : list string) (sd : bool) :
  Forall (fun c => Ascii.eqb c newline = false) (c_string R) ->
  let m1 := newline :: K ++ body ++ ")"%char :: R in
  exists arrayend paren m3,
    strchr m1 1 ")" = Some arrayend
    /\ strchr (<[arrayend := NUL]> m1) 1 "(" = Some paren
    /\ parse_bash_array dl (<[arrayend := NUL]> m1) (S paren) sd
       = Done (extract_names sd dl body, m3)
    /\ strchr m3 (S arrayend) newline = None.
Proof.
  intros HR. cbv zeta.
  set (m1 := newline :: K ++ body ++ ")"%char :: R).
  assert (Hend : strchr m1 1 ")" = Some (1 + length (K ++ body))).
  { pose proof (strchr_shift [newline] (K ++ body ++ ")"%char :: R) 0 ")") as Hs.
    cbn [length Nat.add app] in Hs. unfold m1. rewrite Hs.
    rewrite app_assoc, strchr_found; [done|done|].
    apply Forall_app. split; [|by eapply List.Forall_impl; [|exact Hbody]].
    apply Forall_app. split; [|by constructor].
    eapply List.Forall_impl; [|exact HK0]. by intros c (_ & ? & ?). }
  assert (Hm2 : <[1 + length (K ++ body) := NUL]> m1
                = newline :: K0 ++ "("%char :: body ++ NUL :: R).
  { unfold m1. cbn [Nat.add]. rewrite insert_cons_S. f_equal.
    rewrite (app_assoc K body), insert_middle. rewrite <- !app_assoc. done. }
  assert (Hparen : strchr (<[1 + length (K ++ body) := NUL]> m1) 1 "("
                   = Some (1 + length K0)).
  { rewrite Hm2.
    pose proof (strchr_shift [newline] (K0 ++ "("%char :: body ++ NUL :: R) 0 "(") as Hs.
    cbn [length Nat.add app] in Hs. rewrite Hs.
    rewrite strchr_found; [done|done|].
    eapply List.Forall_impl; [|exact HK0]. by intros c (? & _ & ?). }
  assert (Hdrop : drop (S (1 + length K0)) (<[1 + length (K ++ body) := NUL]> m1)
                  = body ++ NUL :: R).
  { rewrite Hm2. cbn [Nat.add drop].
    change (K0 ++ "("%char :: body ++ NUL :: R) with (K0 ++ ["("%char] ++ body ++ NUL :: R).
    rewrite app_assoc.
    replace (S (length K0)) with (length (K0 ++ ["("%char])) by (rewrite length_app; simpl; lia).
    apply drop_app_length. }
  assert (Hcs : c_string (body ++ NUL :: R) = body).
  { apply c_string_end; [|by intros c [= <-]].
    eapply List.Forall_impl; [|exact Hbody]. by intros c (_ & ?). }
  destruct (parse_bash_array_spec dl (<[1 + length (K ++ body) := NUL]> m1)
              (S (1 + length K0)) sd) as (m3 & Hrun & Hfr).
  rewrite Hdrop, Hcs in Hrun.
  exists (1 + length (K ++ body)), (1 + length K0), m3.
  split_and!; [done|done|done|].
  apply strchr_absent; [done|].
  rewrite Hfr.
  - enough (drop (S (1 + length (K ++ body))) (<[1 + length (K ++ body):=NUL]> m1) = R)
      as -> by done.
    rewrite Hm2. cbn [Nat.add drop].
    change (K0 ++ "("%char :: body ++ NUL :: R)
      with (K0 ++ ["("%char] ++ body ++ [NUL] ++ R).
    rewrite !app_assoc.
    replace (S (length ((K0 ++ ["("%char]) ++ body)))
      with (length (((K0 ++ ["("%char]) ++ body) ++ [NUL]))
      by (rewrite !length_app; simpl; lia).
    by rewrite drop_app_length.
  - rewrite strlen_c_string, Hdrop, Hcs. rewrite !length_app. simpl. lia.
Qed.

End OneArray.

(** * The two extractors on a recipe with one array *)

Lemma forallb_Forall_last (s : string) :
  is_last_line s = true ->
  Forall (fun c => is_nul c = false) (String.list_ascii_of_string s)
  /\ Forall (fun c => Ascii.eqb c newline = false)
       (without_trailing_space (String.list_ascii_of_string s)).
Proof.
  unfold is_last_line. cbv zeta. intros H. apply andb_true_iff in H as [H1 H2].
  rewrite forallb_forall in H1, H2. split; apply Forall_forall; intros c Hc.
  - specialize (H1 c Hc). by destruct (is_nul c).
  - specialize (H2 c Hc). by destruct (Ascii.eqb c newline).
Qed.

Lemma forallb_Forall_body (s : string) :
  is_body s = true ->
  Forall (fun c => Ascii.eqb c ")" = false /\ is_nul c = false)
    (String.list_ascii_of_string s).
Proof.
  unfold is_body. rewrite forallb_forall. intros H.
  apply Forall_forall. intros c Hc. specialize (H c Hc).
  by destruct (Ascii.eqb c ")"), (is_nul c).
Qed.

Lemma buffer_of_one_array (first kw body tail : string) :
  buffer_of (first ++ nl ++ kw ++ body ++ ")" ++ tail)
  = String.list_ascii_of_string first
    ++ newline :: (String.list_ascii_of_string kw ++ String.list_ascii_of_string body
                   ++ ")"%char :: String.list_ascii_of_string tail ++ [NUL]).
Proof.
  unfold buffer_of. rewrite !list_ascii_app. cbn [nl String.list_ascii_of_string app].
  rewrite <- !app_assoc. cbn [app]. by rewrite <- !app_assoc.
Qed.

Lemma line_starts_with_at_1 (l : list ascii) k :
  line_starts_with (newline :: l) 1 k = line_starts_with l 0 k.
Proof. apply (line_starts_with_shift [newline] l 0 k). Qed.

Section OneArrayRecipe.

Variables PKGBUILD_DEPENDS PKGBUILD_MAKEDEPENDS PKGBUILD_OPTDEPENDS : string.

Lemma get_deps_one_array (kw first body tail : string) :
  kw = PKGBUILD_DEPENDS \/ kw = PKGBUILD_MAKEDEPENDS ->
  is_keyword kw = true -> is_line first = true ->
  is_body body = true -> is_last_line tail = true ->
  value_of (pkgbuild_get_deps PKGBUILD_DEPENDS PKGBUILD_MAKEDEPENDS
              (buffer_of (first ++ nl ++ kw ++ body ++ ")" ++ tail)))
  = Done (extract_names true [] (String.list_ascii_of_string body)).
Proof.
  intros Hkw Hk Hfirst Hbody Htail.
  apply is_keyword_shape in Hk as (K0 & HK & HK0 & Hstart).
  apply forallb_Forall_body in Hbody. apply forallb_Forall_last in Htail as [Htail Htnl].
  rewrite buffer_of_one_array, HK.
  rewrite get_deps_skips_first_line, value_of_behind by done.
  unfold pkgbuild_get_deps. cbn [length pkgbuild_get_deps_loop].
  rewrite strchr_here by done.
  destruct (array_line_trimmed K0 _ _ HK0 Hstart Hbody Htail Htnl) as (R & -> & HR).
  assert (Hmatch : line_starts_with
                     (newline :: (K0 ++ ["("%char]) ++ String.list_ascii_of_string body
                        ++ ")"%char :: R) 1 kw = 0%Z).
  { rewrite line_starts_with_at_1. apply line_starts_with_keyword; [done|].
    apply Forall_app. split; [|by constructor].
    eapply List.Forall_impl; [|exact HK0]. by intros c (_ & _ & ?). }
  assert (Hcond : negb (line_starts_with
                     (newline :: (K0 ++ ["("%char]) ++ String.list_ascii_of_string body
                        ++ ")"%char :: R) 1 PKGBUILD_DEPENDS =? 0)%Z
                  && negb (line_starts_with
                     (newline :: (K0 ++ ["("%char]) ++ String.list_ascii_of_string body
                        ++ ")"%char :: R) 1 PKGBUILD_MAKEDEPENDS =? 0)%Z = false).
  { destruct Hkw as [<-|<-]; rewrite Hmatch; [done|apply andb_false_r]. }
  rewrite Hcond.
  destruct (array_line_steps K0 _ HK0 Hbody R [] true HR)
    as (arrayend & paren & m3 & -> & -> & -> & Hstop).
  destruct (length _) as [|n] eqn:Hlen.
  { rewrite !length_app in Hlen. simpl in Hlen. lia. }
  cbn [pkgbuild_get_deps_loop]. by rewrite Hstop.
Qed.

Lemma populate_one_optdepends (pkg : aur_pkg_t) (first body tail : string) :
  is_keyword PKGBUILD_OPTDEPENDS = true ->
  differ_at_start PKGBUILD_DEPENDS PKGBUILD_OPTDEPENDS = true ->
  differ_at_start PKGBUILD_MAKEDEPENDS PKGBUILD_OPTDEPENDS = true ->
  is_line first = true -> is_body body = true -> is_last_line tail = true ->
  value_of (populate_pkg_deps PKGBUILD_DEPENDS PKGBUILD_MAKEDEPENDS PKGBUILD_OPTDEPENDS pkg
              (buffer_of (first ++ nl ++ PKGBUILD_OPTDEPENDS ++ body ++ ")" ++ tail)))
  = Done (set_field pkg FOptdepends
            (extract_names false (optdepends pkg) (String.list_ascii_of_string body))).
Proof.
  intros Hk HD HM Hfirst Hbody Htail.
  apply is_keyword_shape in Hk as (K0 & HK & HK0 & Hstart).
  apply forallb_Forall_body in Hbody. apply forallb_Forall_last in Htail as [Htail Htnl].
  rewrite buffer_of_one_array, HK.
  rewrite populate_skips_first_line, value_of_behind by done.
  unfold populate_pkg_deps. cbn [length populate_pkg_deps_loop].
  rewrite strchr_here by done.
  destruct (array_line_trimmed K0 _ _ HK0 Hstart Hbody Htail Htnl) as (R & -> & HR).
  assert (Hsel : select_field PKGBUILD_DEPENDS PKGBUILD_MAKEDEPENDS PKGBUILD_OPTDEPENDS
                   (newline :: (K0 ++ ["("%char]) ++ String.list_ascii_of_string body
                      ++ ")"%char :: R) 1 = Some FOptdepends).
  { unfold select_field. rewrite !line_starts_with_at_1.
    assert (Hhd : ((K0 ++ ["("%char]) ++ String.list_ascii_of_string body ++ ")"%char :: R) !! 0
                  = String.list_ascii_of_string PKGBUILD_OPTDEPENDS !! 0).
    { rewrite HK. apply lookup_app_l. rewrite length_app. simpl. lia. }
    pose proof (line_starts_with_other _ _ _ HD Hhd) as H1.
    pose proof (line_starts_with_other _ _ _ HM Hhd) as H2.
    apply Z.eqb_neq in H1, H2. rewrite H1, H2.
    rewrite line_starts_with_keyword; [done|done|].
    apply Forall_app. split; [|by constructor].
    eapply List.Forall_impl; [|exact HK0]. by intros c (_ & _ & ?). }
  rewrite Hsel.
  destruct (array_line_steps K0 _ HK0 Hbody R (optdepends pkg) false HR)
    as (arrayend & paren & m3 & -> & -> & Hrun & Hstop).
  cbn [get_field]. rewrite Hrun.
  destruct (length _) as [|n] eqn:Hlen.
  { rewrite !length_app in Hlen. simpl in Hlen. lia. }
  cbn [populate_pkg_deps_loop]. by rewrite Hstop.
Qed.

End OneArrayRecipe.

(** * The names that the extraction records *)

Lemma insert_unique_NoDup set s : NoDup set -> NoDup (insert_unique set s).
Proof.
  intros Hnd. unfold insert_unique. destruct (bool_decide_reflect (s ∈ set)); [done|].
  apply list.NoDup_app. split_and!; [done| |apply NoDup_singleton].
  intros x Hx ->%list_elem_of_singleton. done.
Qed.

Lemma insert_unique_Forall (P : string -> Prop) set s :
  Forall P set -> P s -> Forall P (insert_unique set s).
Proof.
  intros Hset Hs. unfold insert_unique. destruct (bool_decide _); [done|].
  apply Forall_app. split; [done|]. by constructor.
Qed.

Lemma stripped_name_is_stripped t : is_stripped (normalized true t) = true.
Proof.
  unfold is_stripped, normalized, stripped_name.
  rewrite String.list_ascii_of_string_of_list_ascii.
  apply forallb_forall. apply Forall_forall.
  apply (span_len_take (fun c => negb (is_operator c))).
Qed.

Lemma extract_names_stripped ts :
  forall set,
    NoDup set /\ Forall (fun s => is_stripped s = true) set ->
    let set' := fold_left (fun set t => insert_unique set (normalized true t)) ts set in
    NoDup set' /\ Forall (fun s => is_stripped s = true) set'.
Proof.
  induction ts as [|t ts IH]; intros set [Hnd Hst]; [done|].
  simpl. apply IH. split.
  - by apply insert_unique_NoDup.
  - apply insert_unique_Forall; [done|]. apply stripped_name_is_stripped.
Qed.

Section Names.

Variables PKGBUILD_DEPENDS PKGBUILD_MAKEDEPENDS : string.

Lemma get_loop_stripped n :
  forall m b dl dl' m',
    pkgbuild_get_deps_loop PKGBUILD_DEPENDS PKGBUILD_MAKEDEPENDS n m b dl = Done (dl', m') ->
    NoDup dl /\ Forall (fun s => is_stripped s = true) dl ->
    NoDup dl' /\ Forall (fun s => is_stripped s = true) dl'.
Proof.
  induction n as [|n IH]; intros m b dl dl' m'; [done|].
  cbn [pkgbuild_get_deps_loop].
  destruct (strchr m b newline) as [nl|]; [|by intros [= <- _]].
  destruct (_ && _).
  - destruct (strchr _ (S nl) newline) as [b'|]; [apply IH|by intros [= <- _]].
  - destruct (strchr _ (S nl) ")") as [arrayend|]; [|done].
    destruct (strchr _ (S nl) "(") as [paren|]; [|done].
    match goal with
    | |- context [parse_bash_array dl ?m0 ?p true] =>
        destruct (parse_bash_array_spec dl m0 p true) as (m1 & -> & _)
    end.
    intros H Hdl. eapply IH; [exact H|].
    by apply extract_names_stripped.
Qed.

End Names.

(** A token is its raw name between at most one quote on each side. *)
Lemma raw_name_between_quotes t :
  exists a b, t = a ++ raw_name t ++ b
              /\ length a <= 1 /\ length b <= 1
              /\ forallb is_quote a = true /\ forallb is_quote b = true.
Proof.
  unfold raw_name.
  assert (Hu : exists a, t = a ++ drop_leading_quote t
                         /\ length a <= 1 /\ forallb is_quote a = true).
  { destruct t as [|c t]; [exists []; simpl; split_and!; [done|lia|done]|].
    unfold drop_leading_quote. destruct (is_quote c) eqn:Hq.
    - exists [c]. simpl. rewrite Hq. split_and!; [done|lia|done].
    - exists []. simpl. split_and!; [done|lia|done]. }
  destruct Hu as (a & Ht & Ha & Hqa).
  set (u := drop_leading_quote t) in *.
  destruct (u !! (length u - 1)) as [c|] eqn:Hc.
  - destruct (is_quote c) eqn:Hq.
    + exists a, [c]. split_and!; [|done|simpl; lia|done|by simpl; rewrite Hq].
      rewrite Ht at 1. f_equal.
      rewrite <- (take_drop (length u - 1) u) at 1. f_equal.
      apply lookup_lt_Some in Hc as Hlt.
      rewrite (drop_S _ _ _ Hc). f_equal.
      apply drop_ge. lia.
    + exists a, []. rewrite app_nil_r. split_and!; [done|done|simpl; lia|done|done].
  - exists a, []. rewrite app_nil_r. split_and!; [done|done|simpl; lia|done|done].
Qed.

(** C5: the code at the failing inputs.  An array that is never closed
    makes [pkgbuild_get_deps] write through the NULL that [strchr]
    returns; and when a [)] follows further down, the array silently
    runs up to it. *)
Theorem unterminated_array_crashes :
  pkgbuild_get_deps "depends=(" "makedepends=("
    (buffer_of ("pkgname=foo" ++ nl ++ "depends=(a b")) = Crash
  /\ pkgbuild_get_deps "depends=" "makedepends="
       (buffer_of ("pkgname=foo" ++ nl ++ "depends=(a b")) = Crash
  /\ value_of (pkgbuild_get_deps "depends=(" "makedepends=("
                 (buffer_of ("pkgname=foo" ++ nl ++ "depends=(a b" ++ nl
                             ++ "build() {" ++ nl ++ "}" ++ nl)))
     = Done ["a"; "b"; "build("]%string.
Proof. split_and!; vm_compute; reflexivity. Qed.

(** The claim of C9 as it is stated fails: after the call the [)] of the
    array is a NUL. *)
Lemma parser_writes_into_the_buffer :
  let m := buffer_of ("pkgname=foo" ++ nl ++ "depends=(a)" ++ nl) in
  exists names m',
    pkgbuild_get_deps "depends=(" "makedepends=(" m = Done (names, m')
    /\ m !! 22 = Some ")"%char /\ m' !! 22 = Some NUL
    /\ m' <> m.
Proof.
  cbv zeta. eexists _, _. split; [vm_compute; reflexivity|].
  split_and!; [reflexivity|reflexivity|discriminate].
Qed.

(** * The resolution driver *)

Lemma alpm_db_get_pkg_In db d : alpm_db_get_pkg db d = true <-> In d (pkgcache db).
Proof.
  unfold alpm_db_get_pkg. rewrite existsb_exists. split.
  - intros (x & Hx & Heq). apply String.eqb_eq in Heq. by subst.
  - intros H. exists d. split; [done|]. apply String.eqb_refl.
Qed.

Lemma alpm_sync_search_In syncs d :
  is_in_pacman syncs d = true <-> exists db, In db syncs /\ In d (pkgcache db).
Proof.
  unfold is_in_pacman. induction syncs as [|db syncs IH]; simpl.
  - split; [done|]. by intros (? & [] & _).
  - destruct (existsb _ (pkgcache db)) eqn:He.
    + split; [|done]. intros _. exists db. split; [by left|].
      apply existsb_exists in He as (x & Hx & Heq).
      apply String.eqb_eq in Heq. by subst.
    + rewrite IH. split.
      * intros (db' & H1 & H2). exists db'. split; [by right|done].
      * intros (db' & [<-|H1] & H2); [|by exists db'].
        exfalso. rewrite <- not_true_iff_false in He. apply He.
        apply existsb_exists. exists d. split; [done|]. apply String.eqb_refl.
  Qed.

(** C2.  A dependency is classified by the first of four tests that
    succeeds, in the order installed, repository, AUR, and the later
    tests are not made: a name that is installed is Installed after the
    one lookup in the local database, whatever the repositories and the
    AUR hold; a name that is not installed and is in a repository is
    AvailableInRepository without any call to the AUR. *)
Theorem classification_priority (w : world) (depend : string) :
  let installed := In depend (pkgcache (db_local w)) in
  let in_repository := exists db, In db (syncdbs w) /\ In depend (pkgcache db) in
  (installed ->
     resolve_dependency w depend = (Installed, [EvLocalLookup depend]))
  /\ (~ installed -> in_repository ->
        resolve_dependency w depend
        = (AvailableInRepository, [EvLocalLookup depend; EvSyncSearch depend]))
  /\ (~ installed -> ~ in_repository ->
        forall pkg rest, aur_rpc_query w depend = pkg :: rest ->
        resolve_dependency w depend
        = (AvailableInAUR pkg,
           [EvLocalLookup depend; EvSyncSearch depend; EvAurQuery depend;
            EvGetTarball pkg]))
  /\ (~ installed -> ~ in_repository -> aur_rpc_query w depend = [] ->
        resolve_dependency w depend
        = (Unresolved,
           [EvLocalLookup depend; EvSyncSearch depend; EvAurQuery depend])).
Proof.
  cbv zeta. unfold resolve_dependency.
  rewrite <- alpm_db_get_pkg_In, <- alpm_sync_search_In.
  destruct (alpm_db_get_pkg (db_local w) depend),
    (is_in_pacman (syncdbs w) depend); split_and!; try done.
  - intros _ _ pkg rest ->. done.
  - intros _ _ ->. done.
Qed.

Lemma classification_priority_witness :
  In "both"%string (pkgcache (db_local (example_world true)))
  /\ (exists db, In db (syncdbs (example_world true)) /\ In "both"%string (pkgcache db))
  /\ resolve_dependency (example_world true) "both"
     = (Installed, [EvLocalLookup "both"]).
Proof.
  split; [simpl; tauto|].
  split; [eexists; split; [right; left; reflexivity|simpl; tauto]|].
  apply (classification_priority (example_world true) "both"). simpl. tauto.
Defined.

Lemma resolve_dependencies_spec w deplist :
  forall ret,
    (resolve_dependencies w deplist ret).1
      = (ret + Z.of_nat (length (List.filter (in_aur w) deplist)))%Z
    /\ omap (fun e => match e with EvGetTarball p => Some p | _ => None end)
            (resolve_dependencies w deplist ret).2
       = aur_hits w deplist.
Proof.
  induction deplist as [|d deplist IH]; intros ret.
  { simpl. split; [lia|done]. }
  cbn [resolve_dependencies List.filter aur_hits flat_map].
  fold (aur_hits w deplist).
  unfold resolve_dependency.
  destruct (alpm_db_get_pkg (db_local w) d) eqn:Hloc.
  { assert (in_aur w d = false) as -> by (unfold in_aur; by rewrite Hloc).
    destruct (IH ret) as [IH1 IH2].
    destruct (resolve_dependencies w deplist ret) as [n calls]. done. }
  destruct (is_in_pacman (syncdbs w) d) eqn:Hsync.
  { assert (in_aur w d = false) as -> by (unfold in_aur; by rewrite Hloc, Hsync).
    destruct (IH ret) as [IH1 IH2].
    destruct (resolve_dependencies w deplist ret) as [n calls]. done. }
  destruct (aur_rpc_query w d) as [|p ps] eqn:Haur.
  { assert (in_aur w d = false) as -> by (unfold in_aur; by rewrite Hloc, Hsync, Haur).
    destruct (IH ret) as [IH1 IH2].
    destruct (resolve_dependencies w deplist ret) as [n calls]. done. }
  assert (in_aur w d = true) as -> by (unfold in_aur; by rewrite Hloc, Hsync, Haur).
  destruct (IH (ret + 1)%Z) as [IH1 IH2].
  destruct (resolve_dependencies w deplist (ret + 1)%Z) as [n calls].
  cbn [fst snd length] in *. split; [lia|].
  cbn. by rewrite IH2.
Qed.

Lemma resolve_dependencies_tarball w f deplist ret :
  resolve_dependencies (with_tarball w f) deplist ret = resolve_dependencies w deplist ret.
Proof.
  revert ret. induction deplist as [|d deplist IH]; intros ret; [done|].
  cbn [resolve_dependencies].
  change (resolve_dependency (with_tarball w f) d) with (resolve_dependency w d).
  destruct (resolve_dependency w d) as [c calls]. by rewrite IH.
Qed.

Lemma get_pkg_dependencies_tarball D M w f pkg :
  get_pkg_dependencies D M (with_tarball w f) pkg = get_pkg_dependencies D M w pkg.
Proof.
  unfold get_pkg_dependencies.
  change (working_dir (with_tarball w f)) with (working_dir w).
  destruct (working_dir w) as [dir|]; [|done].
  destruct (_ <? _); [done|]. cbv zeta.
  change (get_file_as_buffer (with_tarball w f)) with (get_file_as_buffer w).
  destruct (get_file_as_buffer w _); [|done].
  destruct (pkgbuild_get_deps D M _) as [[dl m]| |]; [|done|done].
  by rewrite resolve_dependencies_tarball.
Qed.

(** C3 (amended).  When the recipe is read and parsed, the pass returns
    the number of dependencies that are taken down the AUR branch (not
    installed, in no repository, and with a result from the AUR query),
    and asks for the tarball of the first result of each of them, once
    and in order.  Nothing looks at what the retrieval returns: a failed
    retrieval does not abort the pass and is counted all the same. *)
Theorem fetched_count_counts_aur_hits (D M : string) (w : world) (pkg : string)
    (dir text : string) (deplist : list string) (m' : buffer) :
  working_dir w = Some dir ->
  path_fits dir pkg = true ->
  get_file_as_buffer w (pkgbuild_path_of dir pkg) = Some text ->
  pkgbuild_get_deps D M (buffer_of text) = Done (deplist, m') ->
  exists calls,
    get_pkg_dependencies D M w pkg
      = Done (Z.of_nat (length (List.filter (in_aur w) deplist)), calls)
    /\ omap (fun e => match e with EvGetTarball p => Some p | _ => None end) calls
       = aur_hits w deplist
    /\ forall f, get_pkg_dependencies D M (with_tarball w f) pkg
                 = get_pkg_dependencies D M w pkg.
Proof.
  intros Hdir Hfits Hfile Hdeps.
  assert (Hrun : get_pkg_dependencies D M w pkg
                 = let '(ret, calls) := resolve_dependencies w deplist 0%Z in
                   Done (ret, EvReadFile (pkgbuild_path_of dir pkg) :: calls)).
  { unfold get_pkg_dependencies. rewrite Hdir.
    unfold path_fits in Hfits. apply negb_true_iff in Hfits. rewrite Hfits.
    cbv zeta. by rewrite Hfile, Hdeps. }
  rewrite Hrun.
  destruct (resolve_dependencies_spec w deplist 0%Z) as [H1 H2].
  destruct (resolve_dependencies w deplist 0%Z) as [n calls]. simpl in H1, H2.
  exists (EvReadFile (pkgbuild_path_of dir pkg) :: calls).
  split_and!; [by rewrite H1|done|].
  intros f. rewrite <- Hrun. apply get_pkg_dependencies_tarball.
Qed.

Lemma fetched_count_counts_aur_hits_witness :
  exists calls,
    get_pkg_dependencies "depends=(" "makedepends=(" (example_world false) "foo"
      = Done (1%Z, calls)
    /\ omap (fun e => match e with EvGetTarball p => Some p | _ => None end) calls
       = [no_deps "z"].
Proof.
  edestruct (fetched_count_counts_aur_hits "depends=(" "makedepends=("
               (example_world false) "foo" "/build" example_recipe
               ["x"; "y"; "z"]%string) as (calls & H1 & H2 & _).
  - reflexivity.
  - reflexivity.
  - reflexivity.
  - vm_compute. reflexivity.
  - exists calls. split; [exact H1|exact H2].
Defined.

(** The claim of C3 as it is stated fails: the retrieval of the one
    tarball fails, and the pass still returns 1. *)
Lemma failed_fetch_is_counted :
  exists calls,
    get_pkg_dependencies "depends=(" "makedepends=(" (example_world false) "foo"
      = Done (1%Z, calls)
    /\ length (List.filter (fetched_ok (example_world false)) calls) = 0.
Proof. eexists. split; vm_compute; reflexivity. Qed.

(** C4 (amended).  When the recipe cannot be read, the pass returns 1
    after the one attempt to read it: no dependency is classified and no
    tarball is asked for.  The value is the one that a pass returns when
    it has fetched one dependency. *)
Theorem missing_recipe_returns_1 (D M : string) (w : world) (pkg dir : string) :
  working_dir w = Some dir ->
  path_fits dir pkg = true ->
  get_file_as_buffer w (pkgbuild_path_of dir pkg) = None ->
  get_pkg_dependencies D M w pkg = Done (1%Z, [EvReadFile (pkgbuild_path_of dir pkg)])
  /\ List.filter is_lookup [EvReadFile (pkgbuild_path_of dir pkg)] = [].
Proof.
  intros Hdir Hfits Hfile.
  unfold get_pkg_dependencies. rewrite Hdir.
  unfold path_fits in Hfits. apply negb_true_iff in Hfits. rewrite Hfits.
  cbv zeta. by rewrite Hfile.
Qed.

Lemma missing_recipe_returns_1_witness :
  get_pkg_dependencies "depends=(" "makedepends=(" (example_world true) "nope"
  = Done (1%Z, [EvReadFile "/build/nope/PKGBUILD"]).
Proof.
  apply (missing_recipe_returns_1 "depends=(" "makedepends=(" (example_world true)
           "nope" "/build" eq_refl eq_refl eq_refl).
Defined.

(** The claim of C4 as it is stated fails: the value returned for a
    recipe that is missing is the value returned by a pass that read its
    recipe and fetched one dependency. *)
Lemma missing_recipe_looks_like_one_fetch :
  get_file_as_buffer (example_world true) (pkgbuild_path_of "/build" "nope") = None
  /\ get_file_as_buffer single_world (pkgbuild_path_of "/build" "bar") = Some single_recipe
  /\ value_of (get_pkg_dependencies "depends=(" "makedepends=(" (example_world true) "nope")
     = value_of (get_pkg_dependencies "depends=(" "makedepends=(" single_world "bar").
Proof. split_and!; vm_compute; reflexivity. Qed.

(** * pacman.c: the searches of the sync databases *)

Lemma existsb_eqb_In (l : list string) (s : string) :
  existsb (String.eqb s) l = true <-> In s l.
Proof.
  rewrite existsb_exists. split.
  - intros (x & Hx & Heq). apply String.eqb_eq in Heq. by subst.
  - intros H. exists s. split; [done|]. apply String.eqb_refl.
Qed.

Lemma existsb_eqb_flip (l : list string) (s : string) :
  existsb (fun pkg => String.eqb pkg s) l = existsb (String.eqb s) l.
Proof.
  induction l as [|x l IH]; [done|].
  simpl. by rewrite IH, (String.eqb_sym x s).
Qed.

Lemma is_foreign_is_in_pacman syncs pkgname :
  is_foreign syncs pkgname = negb (is_in_pacman syncs pkgname).
Proof.
  unfold is_in_pacman.
  induction syncs as [|db syncs IH]; [done|].
  simpl. unfold alpm_db_get_pkg. rewrite existsb_eqb_flip.
  by destruct (existsb (String.eqb pkgname) (pkgcache db)).
Qed.

Lemma query_foreign_fold syncs cache :
  forall ret,
    fold_left (fun ret pkg => if is_foreign syncs pkg then alpm_list_add ret pkg else ret)
      cache ret
    = ret ++ List.filter (is_foreign syncs) cache.
Proof.
  induction cache as [|p cache IH]; intros ret.
  { simpl. by rewrite app_nil_r. }
  simpl. rewrite IH. unfold alpm_list_add.
  destruct (is_foreign syncs p); [|done].
  by rewrite <- app_assoc.
Qed.

(** X1.  [alpm_sync_search] returns the first sync database, in the
    order of the configuration, whose cache holds a package of the name
    asked for: no database before it holds one; it returns NULL exactly
    when no sync database holds one. *)
Theorem alpm_sync_search_first (syncs : list pmdb_t) (target : string) :
  match alpm_sync_search syncs target with
  | Some db =>
      exists before after,
        syncs = before ++ db :: after
        /\ In target (pkgcache db)
        /\ Forall (fun d => ~ In target (pkgcache d)) before
  | None => Forall (fun d => ~ In target (pkgcache d)) syncs
  end.
Proof.
  induction syncs as [|db syncs IH]; [by constructor|].
  simpl. rewrite existsb_eqb_flip.
  destruct (existsb (String.eqb target) (pkgcache db)) eqn:Hdb.
  - exists [], syncs. split_and!; [done| |by constructor].
    by apply existsb_eqb_In.
  - assert (Hno : ~ In target (pkgcache db)).
    { intros H%existsb_eqb_In. congruence. }
    destruct (alpm_sync_search syncs target) as [found|].
    + destruct IH as (before & after & -> & Hin & Hbefore).
      exists (db :: before), after. split_and!; [done|done|by constructor].
    + by constructor.
Qed.

(** X2.  [alpm_query_foreign] returns, in the order of the cache of the
    local database and without dropping repeats, exactly the installed
    packages that [is_in_pacman] does not find: those whose name is in
    the cache of no sync database. *)
Theorem alpm_query_foreign_not_in_pacman (local : pmdb_t) (syncs : list pmdb_t) :
  alpm_query_foreign local syncs
    = List.filter (fun p => negb (is_in_pacman syncs p)) (pkgcache local)
  /\ forall p, In p (alpm_query_foreign local syncs)
               <-> In p (pkgcache local)
                   /\ forall db, In db syncs -> ~ In p (pkgcache db).
Proof.
  assert (Heq : alpm_query_foreign local syncs
                = List.filter (fun p => negb (is_in_pacman syncs p)) (pkgcache local)).
  { unfold alpm_query_foreign. rewrite query_foreign_fold. simpl.
    apply filter_ext. intros p. apply is_foreign_is_in_pacman. }
  split; [done|].
  intros p. rewrite Heq, filter_In.
  split.
  - intros (Hin & Hneg). split; [done|].
    intros db Hdb Hp. apply negb_true_iff in Hneg.
    assert (is_in_pacman syncs p = true)
      by (apply alpm_sync_search_In; by exists db).
    congruence.
  - intros (Hin & Hno). split; [done|].
    apply negb_true_iff. destruct (is_in_pacman syncs p) eqn:Hp; [|done].
    apply alpm_sync_search_In in Hp as (db & Hdb & Hpd).
    exfalso. by apply (Hno db).
Qed.

(** * pacman.c: the merge on arbitrary inputs *)

Section MergeAny.

Variable A : Type.
Variable fn : A -> A -> Z.
Variable is_null : A -> bool.

Local Open Scope Z_scope.

Lemma filter_fnf_calls l dropped :
  fnf_calls is_null l ++ List.filter (fun d => negb (is_null d)) dropped
  = List.filter (fun d => negb (is_null d)) (l :: dropped).
Proof. unfold fnf_calls. cbn [List.filter]. by destruct (is_null l). Qed.

Lemma merge_rest_conserves left :
  forall right,
    exists dropped,
      Permutation ((merge_rest fn is_null left right).1 ++ dropped) (left ++ right)
      /\ sublist right (merge_rest fn is_null left right).1
      /\ freed_by fn is_null left right dropped (merge_rest fn is_null left right).2.
Proof.
  induction left as [|l left' IHl]; intros right.
  { exists []. simpl. rewrite app_nil_r. split_and!; [done|done|].
    split_and!; [constructor|constructor|done]. }
  induction right as [|r right' IHr].
  { exists []. rewrite (merge_rest_nil_r A fn is_null). simpl.
    rewrite !app_nil_r. split_and!; [done|apply sublist_nil_l|].
    split_and!; [apply sublist_nil_l|constructor|done]. }
  rewrite (merge_rest_cons A fn is_null).
  destruct (Z.ltb_spec (fn l r) 0) as [Hlt|Hge].
  - destruct (IHl (r :: right')) as (dropped & Hp & Hs & Hd & Hf & Hc).
    destruct (merge_rest fn is_null left' (r :: right')) as [out calls].
    cbn [fst snd] in *. exists dropped. split_and!.
    + simpl. by constructor.
    + by apply sublist_cons.
    + split_and!; [by apply sublist_cons|done|done].
  - destruct (Z.gtb_spec (fn l r) 0) as [Hgt|Hle].
    + destruct IHr as (dropped & Hp & Hs & Hd & Hf & Hc).
      destruct (merge_rest fn is_null (l :: left') right') as [out calls].
      cbn [fst snd] in *. exists dropped. split_and!.
      * simpl. rewrite Hp.
        apply (Permutation_middle (l :: left') right' r).
      * by apply sublist_skip.
      * split_and!; [done| |done].
        eapply List.Forall_impl; [|exact Hf].
        intros d (x & Hx & Hdx). exists x. split; [by right|done].
    + assert (Heq : fn l r = 0) by lia.
      destruct (IHl (r :: right')) as (dropped & Hp & Hs & Hd & Hf & Hc).
      destruct (merge_rest fn is_null left' (r :: right')) as [out calls].
      cbn [fst snd] in *. exists (l :: dropped). split_and!.
      * rewrite <- Permutation_middle. simpl. by constructor.
      * done.
      * split_and!; [by apply sublist_skip| |].
        -- constructor; [|done]. exists r. split; [by left|done].
        -- rewrite Hc. apply filter_fnf_calls.
Qed.

(** What the first loop does: it removes the longest prefix of [left]
    whose nodes compare equal to the first node of [right], and fails
    when that prefix is the whole of [left]. *)
Lemma first_node_spec left r right' :
  match first_node fn is_null left r right' with
  | Done (n, lf, rt, calls) =>
      exists dropped l rest,
        left = dropped ++ l :: rest
        /\ Forall (fun d => fn d r = 0) dropped
        /\ calls = List.filter (fun d => negb (is_null d)) dropped
        /\ ((fn l r > 0 /\ n = r /\ lf = l :: rest /\ rt = right')
            \/ (fn l r < 0 /\ n = l /\ lf = rest /\ rt = r :: right'))
  | Crash => Forall (fun d => fn d r = 0) left
  | OutOfFuel => False
  end.
Proof.
  induction left as [|l left' IH]; [by constructor|].
  cbn [first_node]. cbv zeta.
  destruct (Z.gtb_spec (fn l r) 0) as [Hgt|Hle].
  { exists [], l, left'. split_and!; [done|constructor|done|]. left. split_and!; [lia|done..]. }
  destruct (Z.ltb_spec (fn l r) 0) as [Hlt|Hge].
  { exists [], l, left'. split_and!; [done|constructor|done|]. by right. }
  assert (Heq : fn l r = 0) by lia.
  destruct (first_node fn is_null left' r right') as [[[[n lf] rt] calls]| |].
  - destruct IH as (dropped & l2 & rest & -> & Hd & Hc & Hcase).
    exists (l :: dropped), l2, rest.
    split_and!; [done|by constructor| |done].
    rewrite Hc. apply filter_fnf_calls.
  - by constructor.
  - done.
Qed.

End MergeAny.

(** X3.  For any inputs and any comparison callback, a call of
    [alpm_list_mmerge_dedupe] that returns loses and invents no node: the
    nodes of the result together with the freed ones are those of the two
    inputs; the nodes of [right] all stay, in their order; a freed node
    is a node of [left] that compared equal to a node of [right], and the
    disposal callback is called once on each freed node that has data, in
    the order of [left].  The call never loops for ever; it fails only
    when every node of [left] compares equal to the first of [right]. *)
Theorem mmerge_dedupe_conserves_nodes (A : Type) (fn : A -> A -> Z)
    (is_null : A -> bool) (left right : list A) :
  match alpm_list_mmerge_dedupe fn is_null left right with
  | Done (out, calls) =>
      exists dropped,
        Permutation (out ++ dropped) (left ++ right)
        /\ sublist right out
        /\ freed_by fn is_null left right dropped calls
  | Crash => left_all_equal fn left right
  | OutOfFuel => False
  end.
Proof.
  destruct left as [|l0 left0].
  { exists []. simpl. rewrite app_nil_r.
    split_and!; [done|done|]. split_and!; [constructor|constructor|done]. }
  destruct right as [|r right'].
  { exists []. simpl. rewrite !app_nil_r.
    split_and!; [done|apply sublist_nil_l|].
    split_and!; [apply sublist_nil_l|constructor|done]. }
  unfold alpm_list_mmerge_dedupe.
  pose proof (first_node_spec A fn is_null (l0 :: left0) r right') as Hfirst.
  destruct (first_node fn is_null (l0 :: left0) r right')
    as [[[[n lf] rt] calls1]| |]; [|exact Hfirst|done].
  destruct Hfirst as (dropped1 & l & rest & Hleft & Hd1 & Hc1 & Hcase).
  destruct (merge_rest_conserves A fn is_null lf rt) as (dropped2 & Hp & Hs & Hd & Hf & Hc).
  destruct (merge_rest fn is_null lf rt) as [out calls2].
  cbn [fst snd] in Hp, Hs, Hc.
  exists (dropped1 ++ dropped2). rewrite Hleft.
  assert (Hfreed1 : Forall (fun d => exists x, In x (r :: right') /\ (fn d x = 0)%Z) dropped1).
  { eapply List.Forall_impl; [|exact Hd1]. intros d Hdr. exists r. split; [by left|done]. }
  destruct Hcase as [(Hgt & -> & -> & ->)|(Hlt & -> & -> & ->)].
  - split_and!.
    + transitivity (r :: (dropped1 ++ l :: rest) ++ right').
      { apply perm_skip. rewrite <- app_assoc, <- Hp.
        apply Permutation_app_swap_app. }
      apply Permutation_middle.
    + by apply sublist_skip.
    + split_and!.
      * by apply sublist_app.
      * apply Forall_app. split; [done|].
        eapply List.Forall_impl; [|exact Hf].
        intros d (x & Hx & Hdx). exists x. split; [by right|done].
      * rewrite Hc1, Hc. symmetry. apply List.filter_app.
  - split_and!.
    + transitivity (l :: dropped1 ++ rest ++ r :: right').
      { apply perm_skip. rewrite <- Hp. apply Permutation_app_swap_app. }
      rewrite <- app_assoc.
      apply (Permutation_middle dropped1 (rest ++ r :: right') l).
    + by apply sublist_cons.
    + split_and!.
      * apply sublist_app; [done|]. by apply sublist_cons.
      * apply Forall_app. by split.
      * rewrite Hc1, Hc. symmetry. apply List.filter_app.
Qed.

(** X4.  [alpm_list_mmerge_dedupe] reads through a NULL [left] exactly
    when both inputs have a node and every node of [left] compares equal
    to the first node of [right]: the first loop then removes the whole
    of [left] and compares once more. *)
Theorem mmerge_dedupe_crashes_iff (A : Type) (fn : A -> A -> Z)
    (is_null : A -> bool) (left right : list A) :
  alpm_list_mmerge_dedupe fn is_null left right = Crash
  <-> left_all_equal fn left right.
Proof.
  destruct left as [|l0 left0]; [done|].
  destruct right as [|r right']; [done|].
  unfold alpm_list_mmerge_dedupe, left_all_equal.
  pose proof (first_node_spec A fn is_null (l0 :: left0) r right') as Hfirst.
  destruct (first_node fn is_null (l0 :: left0) r right')
    as [[[[n lf] rt] calls1]| |]; [|done|done].
  destruct (merge_rest fn is_null lf rt) as [out calls2].
  split; [done|]. intros Hall. exfalso.
  destruct Hfirst as (dropped1 & l & rest & Hleft & _ & _ & Hcase).
  rewrite Hleft in Hall. apply Forall_app in Hall as [_ Hall].
  inversion Hall as [|? ? Hl _]; subst.
  destruct Hcase as [(? & _)|(? & _)]; lia.
Qed.

Section MergeSorted.

Variable A : Type.
Variable fn : A -> A -> Z.
Variable is_null : A -> bool.

Hypothesis fn_sym : forall a b, Z.sgn (fn a b) = (- Z.sgn (fn b a))%Z.
Hypothesis fn_trans : forall a b c, (fn a b <= 0 -> fn b c <= 0 -> fn a c <= 0)%Z.

Local Open Scope Z_scope.

Lemma sorted_le_head l left :
  StronglySorted (fn_le fn) (l :: left) -> Forall (fun x => fn l x <= 0) left.
Proof. intros H. by inversion H. Qed.

Lemma sorted_le_tail l left :
  StronglySorted (fn_le fn) (l :: left) -> StronglySorted (fn_le fn) left.
Proof. intros H. by inversion H. Qed.

Lemma sorted_le_suffix pre left :
  StronglySorted (fn_le fn) (pre ++ left) -> StronglySorted (fn_le fn) left.
Proof.
  induction pre as [|x pre IH]; [done|].
  intros H. apply IH. by inversion H.
Qed.

(** No node that follows a greater one compares equal to [r]. *)
Lemma above_ne l left r :
  StronglySorted (fn_le fn) (l :: left) -> fn l r > 0 ->
  Forall (fun x => fn x r <> 0) (l :: left).
Proof.
  intros Hs Hgt. pose proof (sorted_le_head _ _ Hs) as Hl.
  assert (Hrl : fn r l < 0) by (apply (fn_flip_lt A fn fn_sym); lia).
  constructor; [lia|].
  eapply List.Forall_impl; [|exact Hl]. intros x Hx.
  pose proof (fn_lt_le_trans A fn fn_sym fn_trans r l x Hrl Hx) as Hrx.
  apply (fn_flip_lt A fn fn_sym) in Hrx. lia.
Qed.

(** A node less than the first of [right] equals none of its nodes. *)
Lemma below_not_dup l r right' :
  StronglySorted (fn_le fn) (r :: right') -> fn l r < 0 ->
  dup_of fn (r :: right') l = false.
Proof.
  intros Hs Hlt. pose proof (sorted_le_head _ _ Hs) as Hr.
  apply (dup_of_false A fn). constructor; [lia|].
  eapply List.Forall_impl; [|exact Hr]. intros x Hx.
  pose proof (fn_lt_le_trans A fn fn_sym fn_trans l r x Hlt Hx). lia.
Qed.

(** What the second loop computes on sorted inputs, nodes that compare
    equal being allowed inside an input. *)
Lemma merge_rest_sorted_le left :
  forall right,
    StronglySorted (fn_le fn) left -> StronglySorted (fn_le fn) right ->
    StronglySorted (fn_le fn) (merge_rest fn is_null left right).1
    /\ Permutation (merge_rest fn is_null left right).1 (right ++ kept fn left right)
    /\ (merge_rest fn is_null left right).2 =
         List.filter (fun d => negb (is_null d)) (discarded fn left right).
Proof.
  induction left as [|l left' IHl]; intros right Hl Hr.
  { simpl. rewrite app_nil_r. done. }
  induction right as [|r right' IHr].
  { rewrite (merge_rest_nil_r A fn is_null), (kept_nil A fn), (discarded_nil A fn). done. }
  pose proof (sorted_le_head _ _ Hl) as Hll.
  pose proof (sorted_le_head _ _ Hr) as Hrr.
  pose proof (sorted_le_tail _ _ Hl) as Hl'.
  pose proof (sorted_le_tail _ _ Hr) as Hr'.
  rewrite (merge_rest_cons A fn is_null).
  destruct (Z.ltb_spec (fn l r) 0) as [Hlt|Hge].
  - destruct (IHl (r :: right') Hl' Hr) as (IH1 & IH2 & IH3).
    destruct (merge_rest fn is_null left' (r :: right')) as [out calls].
    cbn [fst snd] in IH1, IH2, IH3 |- *.
    rewrite (discarded_cons A fn l), (kept_cons A fn l), (below_not_dup l r right' Hr Hlt).
    split_and!; [| |done].
    + constructor; [done|].
      rewrite IH2. apply Forall_app. split.
      * constructor; [unfold fn_le; lia|].
        eapply List.Forall_impl; [|exact Hrr]. intros x Hx.
        pose proof (fn_lt_le_trans A fn fn_sym fn_trans l r x Hlt Hx).
        unfold fn_le. lia.
      * eapply Forall_forall. intros x Hx%(kept_In A fn is_null).
        rewrite Forall_forall in Hll. by apply Hll.
    + rewrite IH2. apply (Permutation_middle (r :: right')).
  - destruct (Z.gtb_spec (fn l r) 0) as [Hgt|Hle].
    + destruct (IHr Hr') as (IH1 & IH2 & IH3).
      destruct (merge_rest fn is_null (l :: left') right') as [out calls].
      cbn [fst snd] in IH1, IH2, IH3 |- *.
      assert (Hne : Forall (fun x => fn x r <> 0) (l :: left'))
        by (apply above_ne; [done|lia]).
      rewrite (discarded_skip A fn _ _ _ Hne), (kept_skip A fn _ _ _ Hne).
      split_and!; [|by rewrite IH2|done].
      constructor; [done|].
      rewrite IH2. apply Forall_app. split; [done|].
      eapply Forall_forall. intros x Hx%(kept_In A fn is_null).
      rewrite Forall_forall in Hne. specialize (Hne x Hx).
      assert (Hrl : fn r l < 0) by (apply (fn_flip_lt A fn fn_sym); lia).
      destruct Hx as [<-|Hx]; [unfold fn_le; lia|].
      rewrite Forall_forall in Hll.
      pose proof (fn_lt_le_trans A fn fn_sym fn_trans r l x Hrl (Hll x Hx)).
      unfold fn_le. lia.
    + assert (Heq : fn l r = 0) by lia.
      destruct (IHl (r :: right') Hl' Hr) as (IH1 & IH2 & IH3).
      destruct (merge_rest fn is_null left' (r :: right')) as [out calls].
      cbn [fst snd] in IH1, IH2, IH3 |- *.
      assert (Hd : dup_of fn (r :: right') l = true).
      { simpl. unfold fn_eqb. by rewrite Heq. }
      rewrite (discarded_cons A fn l), (kept_cons A fn l), Hd.
      split_and!; [done|done|].
      rewrite IH3. unfold fnf_calls. cbn [List.filter]. by destruct (is_null l).
Qed.

(** The nodes that the first loop removes are discarded ones, and none
    of them is kept. *)
Lemma equal_prefix_discarded dropped left r right' :
  Forall (fun d => fn d r = 0) dropped ->
  kept fn (dropped ++ left) (r :: right') = kept fn left (r :: right')
  /\ discarded fn (dropped ++ left) (r :: right')
     = dropped ++ discarded fn left (r :: right').
Proof.
  induction 1 as [|d dropped Hd _ IH]; [done|].
  destruct IH as [IH1 IH2].
  assert (Hdup : dup_of fn (r :: right') d = true).
  { simpl. unfold fn_eqb. by rewrite Hd. }
  cbn [app]. rewrite (discarded_cons A fn d), (kept_cons A fn d), Hdup, IH1, IH2. done.
Qed.

Lemma mmerge_dedupe_sorted_le left right :
  StronglySorted (fn_le fn) left -> StronglySorted (fn_le fn) right ->
  ~ left_all_equal fn left right ->
  exists out calls,
    alpm_list_mmerge_dedupe fn is_null left right = Done (out, calls)
    /\ StronglySorted (fn_le fn) out
    /\ Permutation out (right ++ kept fn left right)
    /\ calls = List.filter (fun d => negb (is_null d)) (discarded fn left right).
Proof.
  intros Hl Hr Hex.
  destruct left as [|l0 left0].
  { exists right, []. simpl. rewrite app_nil_r. done. }
  destruct right as [|r right'].
  { exists (l0 :: left0), []. simpl. by rewrite (kept_nil A fn), (discarded_nil A fn). }
  unfold alpm_list_mmerge_dedupe.
  pose proof (first_node_spec A fn is_null (l0 :: left0) r right') as Hfirst.
  destruct (first_node fn is_null (l0 :: left0) r right')
    as [[[[n lf] rt] calls1]| |]; [|by destruct Hex|done].
  destruct Hfirst as (dropped1 & l & rest & Hleft & Hd1 & Hc1 & Hcase).
  rewrite Hleft in Hl |- *.
  pose proof (sorted_le_suffix _ _ Hl) as Hlr.
  pose proof (sorted_le_head _ _ Hlr) as Hll.
  pose proof (sorted_le_head _ _ Hr) as Hrr.
  destruct (equal_prefix_discarded dropped1 (l :: rest) r right' Hd1) as [-> ->].
  destruct Hcase as [(Hgt & -> & -> & ->)|(Hlt & -> & -> & ->)].
  - destruct (merge_rest_sorted_le (l :: rest) right' Hlr (sorted_le_tail _ _ Hr))
      as (IH1 & IH2 & IH3).
    destruct (merge_rest fn is_null (l :: rest) right') as [out calls2].
    cbn [fst snd] in IH1, IH2, IH3.
    assert (Hne : Forall (fun x => fn x r <> 0) (l :: rest)) by (by apply above_ne).
    exists (r :: out), (calls1 ++ calls2).
    rewrite (discarded_skip A fn _ _ _ Hne), (kept_skip A fn _ _ _ Hne).
    split_and!; [done| |by rewrite IH2|].
    + constructor; [done|].
      rewrite IH2. apply Forall_app. split; [done|].
      apply Forall_forall. intros x Hx%(kept_In A fn is_null).
      assert (Hrl : fn r l < 0) by (apply (fn_flip_lt A fn fn_sym); lia).
      destruct Hx as [<-|Hx]; [unfold fn_le; lia|].
      rewrite Forall_forall in Hll.
      pose proof (fn_lt_le_trans A fn fn_sym fn_trans r l x Hrl (Hll x Hx)).
      unfold fn_le. lia.
    + rewrite Hc1, IH3. symmetry. apply List.filter_app.
  - destruct (merge_rest_sorted_le rest (r :: right') (sorted_le_tail _ _ Hlr) Hr)
      as (IH1 & IH2 & IH3).
    destruct (merge_rest fn is_null rest (r :: right')) as [out calls2].
    cbn [fst snd] in IH1, IH2, IH3.
    exists (l :: out), (calls1 ++ calls2).
    rewrite (discarded_cons A fn l), (kept_cons A fn l), (below_not_dup l r right' Hr Hlt).
    split_and!; [done| | |].
    + constructor; [done|].
      rewrite IH2. apply Forall_app. split.
      * constructor; [unfold fn_le; lia|].
        eapply List.Forall_impl; [|exact Hrr]. intros x Hx.
        pose proof (fn_lt_le_trans A fn fn_sym fn_trans l r x Hlt Hx).
        unfold fn_le. lia.
      * apply Forall_forall. intros x Hx%(kept_In A fn is_null).
        rewrite Forall_forall in Hll. by apply Hll.
    + rewrite IH2. apply (Permutation_middle (r :: right')).
    + rewrite Hc1, IH3. symmetry. apply List.filter_app.
Qed.

End MergeSorted.

(** X5.  For a comparison callback that is a total preorder and two
    sorted inputs in which nodes may compare equal to their neighbours,
    [left] not being made only of nodes equal to the first node of
    [right]: [alpm_list_mmerge_dedupe] returns a sorted list made of every
    node of [right] and of the nodes of [left] that compare equal to no
    node of [right]; the other nodes of [left] are freed, and the disposal
    callback is called on each of them that has data, in order.  Nodes of
    one input that compare equal to each other are all kept. *)
Theorem mmerge_dedupe_sorted_with_repeats (A : Type) (fn : A -> A -> Z)
    (is_null : A -> bool) (left right : list A) :
  (forall a b, Z.sgn (fn a b) = (- Z.sgn (fn b a))%Z) ->
  (forall a b c, (fn a b <= 0 -> fn b c <= 0 -> fn a c <= 0)%Z) ->
  StronglySorted (fn_le fn) left ->
  StronglySorted (fn_le fn) right ->
  ~ left_all_equal fn left right ->
  exists out calls,
    alpm_list_mmerge_dedupe fn is_null left right = Done (out, calls)
    /\ StronglySorted (fn_le fn) out
    /\ Permutation out (right ++ kept fn left right)
    /\ Permutation (out ++ discarded fn left right) (left ++ right)
    /\ calls = List.filter (fun d => negb (is_null d)) (discarded fn left right).
Proof.
  intros Hsym Htrans Hl Hr Hex.
  destruct (mmerge_dedupe_sorted_le A fn is_null Hsym Htrans left right Hl Hr Hex)
    as (out & calls & Hrun & Hs & Hp & Hc).
  exists out, calls. split_and!; [done|done|done| |done].
  rewrite Hp, <- app_assoc, (kept_discarded_perm A fn left right).
  apply Permutation_app_comm.
Qed.

Lemma mmerge_dedupe_sorted_with_repeats_witness :
  exists out calls,
    alpm_list_mmerge_dedupe int_cmp int_null [1; 1; 2; 2; 5]%Z [1; 1; 3; 3]%Z
      = Done (out, calls)
    /\ StronglySorted (fn_le int_cmp) out
    /\ out = [1; 1; 2; 2; 3; 3; 5]%Z
    /\ calls = [1; 1]%Z.
Proof.
  destruct (mmerge_dedupe_sorted_with_repeats Z int_cmp int_null
              [1; 1; 2; 2; 5]%Z [1; 1; 3; 3]%Z)
    as (out & calls & Hrun & Hs & _ & _ & Hc).
  - intros a b. unfold int_cmp. lia.
  - intros a b c. unfold int_cmp. lia.
  - repeat constructor; unfold fn_le, int_cmp; lia.
  - repeat constructor; unfold fn_le, int_cmp; lia.
  - simpl. intros H. inversion H as [|? ? _ H1]; subst.
    inversion H1 as [|? ? _ H2]; subst.
    inversion H2 as [|? ? H3 _]; subst. unfold int_cmp in H3. lia.
  - exists out, calls. split_and!; [exact Hrun|exact Hs| |exact Hc].
    vm_compute in Hrun. congruence.
Defined.

(** * depends.c: the lists only grow *)

Lemma extract_names_appends sd ts :
  forall set,
    exists added,
      fold_left (fun set t => insert_unique set (normalized sd t)) ts set = set ++ added
      /\ NoDup added
      /\ forall s, s ∈ added <-> (s ∉ set) /\ s ∈ map (normalized sd) ts.
Proof.
  induction ts as [|t ts IH]; intros set.
  { exists []. simpl. rewrite app_nil_r. split_and!; [done|constructor|].
    intros s. rewrite !elem_of_nil. tauto. }
  cbn [fold_left map]. unfold insert_unique at 2.
  destruct (bool_decide_reflect (normalized sd t ∈ set)) as [Hin|Hnot].
  - destruct (IH set) as (added & -> & Hnd & Hadded).
    exists added. split_and!; [done|done|].
    intros s. rewrite Hadded, elem_of_cons. split; [tauto|].
    intros (Hs & [->|Hts]); [done|tauto].
  - destruct (IH (set ++ [normalized sd t])) as (added & -> & Hnd & Hadded).
    exists (normalized sd t :: added). split_and!.
    + by rewrite <- app_assoc.
    + constructor; [|done]. intros Hn%Hadded. destruct Hn as [Hn _].
      apply Hn, elem_of_app. right. by apply list_elem_of_singleton.
    + intros s. rewrite !elem_of_cons, Hadded, elem_of_app, list_elem_of_singleton.
      destruct (decide (s = normalized sd t)) as [->|Hne]; [tauto|tauto].
Qed.

Lemma extended_by_refl l : extended_by l l.
Proof.
  exists []. rewrite app_nil_r. split_and!; [done|constructor|].
  intros s Hs. by apply elem_of_nil in Hs.
Qed.

Lemma extended_by_trans l1 l2 l3 :
  extended_by l1 l2 -> extended_by l2 l3 -> extended_by l1 l3.
Proof.
  intros (a1 & -> & Hn1 & Hd1) (a2 & -> & Hn2 & Hd2).
  exists (a1 ++ a2). split_and!.
  - by rewrite app_assoc.
  - apply list.NoDup_app. split_and!; [done| |done].
    intros s Hs1 Hs2. apply (Hd2 s Hs2), elem_of_app. by right.
  - intros s [Hs|Hs]%elem_of_app; [by apply Hd1|].
    intros Hl. apply (Hd2 s Hs), elem_of_app. by left.
Qed.

Lemma extract_names_extended sd set body :
  extended_by set (extract_names sd set body).
Proof.
  unfold extract_names.
  destruct (extract_names_appends sd (tokens_of body) set) as (added & -> & Hnd & Hadded).
  exists added. split_and!; [done|done|]. intros s Hs. by apply Hadded.
Qed.

Lemma pkg_extended_by_refl pkg : pkg_extended_by pkg pkg.
Proof. split_and!; [done|apply extended_by_refl..]. Qed.

Lemma pkg_extended_by_trans p1 p2 p3 :
  pkg_extended_by p1 p2 -> pkg_extended_by p2 p3 -> pkg_extended_by p1 p3.
Proof.
  intros (Hn1 & Hd1 & Hm1 & Ho1) (Hn2 & Hd2 & Hm2 & Ho2).
  split_and!; [congruence|by eapply extended_by_trans..].
Qed.

Lemma set_field_extended pkg f l :
  extended_by (get_field pkg f) l -> pkg_extended_by pkg (set_field pkg f l).
Proof.
  intros H. destruct f; simpl in *;
    (split_and!; [done|try done; apply extended_by_refl..]).
Qed.

Section Grow.

Variables PKGBUILD_DEPENDS PKGBUILD_MAKEDEPENDS PKGBUILD_OPTDEPENDS : string.

Lemma pop_loop_extended n :
  forall m b pkg pkg' m',
    populate_pkg_deps_loop PKGBUILD_DEPENDS PKGBUILD_MAKEDEPENDS PKGBUILD_OPTDEPENDS
      n m b pkg = Done (pkg', m') ->
    pkg_extended_by pkg pkg'.
Proof.
  induction n as [|n IH]; intros m b pkg pkg' m'; [done|].
  cbn [populate_pkg_deps_loop].
  destruct (strchr m b newline) as [nl|];
    [|intros [= <- _]; apply pkg_extended_by_refl].
  destruct (select_field _ _ _ _ _) as [f|].
  - destruct (strchr _ (S nl) ")") as [arrayend|]; [|done].
    destruct (strchr _ (S nl) "(") as [paren|]; [|done].
    match goal with
    | |- context [parse_bash_array ?dl ?m0 ?p false] =>
        destruct (parse_bash_array_spec dl m0 p false) as (m1 & -> & _)
    end.
    intros H. eapply pkg_extended_by_trans; [|eapply IH; exact H].
    apply set_field_extended, extract_names_extended.
  - destruct (strchr _ (S nl) newline) as [b'|];
      [apply IH|intros [= <- _]; apply pkg_extended_by_refl].
Qed.

End Grow.

(** X6.  [parse_bash_array] never removes or moves a name that the list
    already holds: it returns the list it was given followed by the names
    of the tokens of the array that the list did not hold, each once; it
    always returns, and the buffer keeps its size.  This holds in both
    modes and for any buffer. *)
Theorem parse_bash_array_only_appends (deplist : list string) (m : buffer)
    (deparray : nat) (stripdeps : bool) :
  exists added m',
    parse_bash_array deplist m deparray stripdeps = Done (deplist ++ added, m')
    /\ NoDup added
    /\ (forall s, s ∈ added
                  <-> (s ∉ deplist)
                      /\ s ∈ map (normalized stripdeps)
                               (tokens_of (c_string (drop deparray m))))
    /\ length m' = length m.
Proof.
  destruct (parse_bash_array_spec deplist m deparray stripdeps) as (m' & Hrun & _).
  unfold extract_names in Hrun.
  destruct (extract_names_appends stripdeps (tokens_of (c_string (drop deparray m)))
              deplist) as (added & Heq & Hnd & Hadded).
  rewrite Heq in Hrun.
  exists added, m'. split_and!; [done|done|done|].
  by eapply parse_bash_array_length.
Qed.

(** X7.  [populate_pkg_deps] leaves the name of the package alone and
    only appends to its three lists: each list of the result is the list
    it was given followed by names it did not hold, each once.  The call
    never loops for ever, whatever the buffer holds. *)
Theorem populate_pkg_deps_only_appends (D M O : string) (pkg : aur_pkg_t) (m : buffer) :
  match populate_pkg_deps D M O pkg m with
  | Done (pkg', m') => pkg_extended_by pkg pkg' /\ length m' = length m
  | Crash => True
  | OutOfFuel => False
  end.
Proof.
  pose proof (populate_no_timeout D M O pkg m) as Ht.
  destruct (populate_pkg_deps D M O pkg m) as [[pkg' m']| |] eqn:Hrun; [|done|done].
  split; [exact (pop_loop_extended D M O _ _ _ _ _ _ Hrun)|].
  by eapply pop_loop_length.
Qed.

(** X20.  In stripped mode a token that is cut to nothing (a lone quote,
    a pair of quotes, or a token whose first character after a leading
    quote is one of [=], [<], [>] and the quotes) is not dropped: the
    empty name is then in the list that [parse_bash_array] returns. *)
Theorem empty_name_is_recorded (deplist : list string) (m : buffer) (deparray : nat)
    (t : list ascii) :
  t ∈ tokens_of (c_string (drop deparray m)) ->
  stripped_name t = [] ->
  exists names m',
    parse_bash_array deplist m deparray true = Done (names, m')
    /\ ""%string ∈ names.
Proof.
  intros Ht Hempty.
  destruct (parse_bash_array_spec deplist m deparray true) as (m' & Hrun & _).
  unfold extract_names in Hrun.
  destruct (extract_names_appends true (tokens_of (c_string (drop deparray m))) deplist)
    as (added & Heq & _ & Hadded).
  rewrite Heq in Hrun. exists (deplist ++ added), m'. split; [done|].
  apply elem_of_app.
  destruct (decide (""%string ∈ deplist)) as [Hin|Hnot]; [by left|right].
  apply Hadded. split; [done|].
  apply list_elem_of_fmap. exists t. split; [|done].
  unfold normalized. by rewrite Hempty.
Qed.

Lemma empty_name_is_recorded_witness :
  exists names m',
    parse_bash_array ["a"%string]
      (String.list_ascii_of_string "depends=(a '' b)" ++ [NUL]) 9 true
    = Done (names, m')
    /\ ""%string ∈ names.
Proof.
  apply (empty_name_is_recorded ["a"%string]
           (String.list_ascii_of_string "depends=(a '' b)" ++ [NUL]) 9
           (String.list_ascii_of_string "''")).
  - vm_compute. apply list_elem_of_further, list_elem_of_here.
  - reflexivity.
Defined.

(** X25.  [strtok] is told to cut at spaces and newlines only: an array
    body that holds neither is one token, whatever else it holds (tabs,
    carriage returns), and [parse_bash_array] records one name for it. *)
Theorem only_space_and_newline_separate_names (deplist : list string) (w : list ascii)
    (stripdeps : bool) :
  w <> [] -> free_of delimiters w = true ->
  exists m',
    parse_bash_array deplist (w ++ [NUL]) 0 stripdeps
    = Done (insert_unique deplist (normalized stripdeps w), m').
Proof.
  intros Hne Hfree.
  destruct (parse_bash_array_spec deplist (w ++ [NUL]) 0 stripdeps) as (m' & Hrun & _).
  exists m'. rewrite Hrun.
  enough (Heq : extract_names stripdeps deplist (c_string (drop 0 (w ++ [NUL])))
                = insert_unique deplist (normalized stripdeps w)) by (by rewrite Heq).
  assert (Hw : Forall (fun c => is_nul c = false /\ is_delimiter c = false) w).
  { unfold free_of in Hfree. clear - Hfree.
    induction w as [|c w IH]; [constructor|].
    cbn [forallb] in Hfree. apply andb_true_iff in Hfree as [Hc Hw].
    apply andb_true_iff in Hc as [Hc1 Hc2]. apply negb_true_iff in Hc1, Hc2.
    constructor; [split; [exact Hc1|exact Hc2]|by apply IH]. }
  rewrite drop_0, c_string_app, c_string_cons, app_nil_r.
  2:{ eapply List.Forall_impl; [|exact Hw]. by intros c [? _]. }
  unfold extract_names. rewrite tokens_of_single; [done|done|].
  eapply List.Forall_impl; [|exact Hw]. by intros c [_ ?].
Qed.

Lemma only_space_and_newline_separate_names_witness :
  exists m',
    parse_bash_array [] (["a"; "009"; "b"]%char ++ [NUL]) 0 true
    = Done ([String "a" (String "009" (String "b" EmptyString))], m').
Proof.
  apply (only_space_and_newline_separate_names [] ["a"; "009"; "b"]%char true).
  - discriminate.
  - reflexivity.
Defined.

(** * depends.c: the trace of a resolution pass *)

Lemma NoDup_List_filter {A : Type} (f : A -> bool) (l : list A) :
  NoDup l -> NoDup (List.filter f l).
Proof.
  induction 1 as [|x l Hx Hl IH]; [constructor|].
  cbn [List.filter]. destruct (f x); [|done].
  constructor; [|done].
  rewrite list_elem_of_In, filter_In, <- list_elem_of_In. tauto.
Qed.

Lemma List_filter_length_le {A : Type} (f g : A -> bool) (l : list A) :
  (forall x, f x = true -> g x = true) ->
  length (List.filter f l) <= length (List.filter g l).
Proof.
  intros Hfg. induction l as [|x l IH]; [done|].
  cbn [List.filter]. destruct (f x) eqn:Hf.
  - rewrite (Hfg x Hf). simpl. lia.
  - destruct (g x); simpl; lia.
Qed.

(** The lookups of the [for] loop, read off its trace. *)
Lemma resolve_dependencies_lookups w deplist :
  forall ret,
    let calls := (resolve_dependencies w deplist ret).2 in
    omap local_lookup_of calls = deplist
    /\ omap sync_search_of calls
       = List.filter (fun d => negb (alpm_db_get_pkg (db_local w) d)) deplist
    /\ omap aur_query_of calls
       = List.filter (fun d => negb (alpm_db_get_pkg (db_local w) d)
                               && negb (is_in_pacman (syncdbs w) d)) deplist.
Proof.
  induction deplist as [|d deplist IH]; intros ret; [done|].
  cbn [resolve_dependencies]. unfold resolve_dependency.
  cbn [List.filter].
  destruct (alpm_db_get_pkg (db_local w) d).
  { specialize (IH ret). destruct (resolve_dependencies w deplist ret) as [r calls'].
    cbn [snd negb andb] in *. rewrite !omap_app.
    destruct IH as (-> & -> & ->). done. }
  destruct (is_in_pacman (syncdbs w) d).
  { specialize (IH ret). destruct (resolve_dependencies w deplist ret) as [r calls'].
    cbn [snd negb andb] in *. rewrite !omap_app.
    destruct IH as (-> & -> & ->). done. }
  destruct (aur_rpc_query w d) as [|p ps].
  { specialize (IH ret). destruct (resolve_dependencies w deplist ret) as [r calls'].
    cbn [snd negb andb] in *. rewrite !omap_app.
    destruct IH as (-> & -> & ->). done. }
  specialize (IH (ret + 1)%Z).
  destruct (resolve_dependencies w deplist (ret + 1)) as [r calls'].
  cbn [snd negb andb] in *. rewrite !omap_app.
  destruct IH as (-> & -> & ->). done.
Qed.

Lemma in_aur_queried w d :
  in_aur w d = true ->
  negb (alpm_db_get_pkg (db_local w) d) && negb (is_in_pacman (syncdbs w) d) = true.
Proof. unfold in_aur. by intros [? _]%andb_true_iff. Qed.

(** X8.  In a pass whose recipe is read and parsed, the driver looks
    every dependency up in the local database exactly once, in the order
    of the list; it searches the sync databases for exactly those that
    are not installed, and queries the AUR for exactly those that are
    neither installed nor in a sync database, in the same order. *)
Theorem lookups_cascade (D M : string) (w : world) (pkg dir text : string)
    (deplist : list string) (m' : buffer) :
  working_dir w = Some dir ->
  path_fits dir pkg = true ->
  get_file_as_buffer w (pkgbuild_path_of dir pkg) = Some text ->
  pkgbuild_get_deps D M (buffer_of text) = Done (deplist, m') ->
  exists ret calls,
    get_pkg_dependencies D M w pkg
      = Done (ret, EvReadFile (pkgbuild_path_of dir pkg) :: calls)
    /\ omap local_lookup_of calls = deplist
    /\ omap sync_search_of calls
       = List.filter (fun d => negb (alpm_db_get_pkg (db_local w) d)) deplist
    /\ omap aur_query_of calls
       = List.filter (fun d => negb (alpm_db_get_pkg (db_local w) d)
                               && negb (is_in_pacman (syncdbs w) d)) deplist.
Proof.
  intros Hdir Hfits Hfile Hparse.
  unfold get_pkg_dependencies. rewrite Hdir.
  unfold path_fits in Hfits. apply negb_true_iff in Hfits. rewrite Hfits.
  rewrite Hfile, Hparse.
  pose proof (resolve_dependencies_lookups w deplist 0%Z) as H.
  destruct (resolve_dependencies w deplist 0) as [ret calls].
  exists ret, calls. split; [done|exact H].
Qed.

Lemma lookups_cascade_witness :
  exists ret calls,
    get_pkg_dependencies "depends=(" "makedepends=(" (example_world true) "foo"
      = Done (ret, EvReadFile "/build/foo/PKGBUILD" :: calls)
    /\ omap local_lookup_of calls = ["x"; "y"; "z"]%string
    /\ omap sync_search_of calls = ["y"; "z"]%string
    /\ omap aur_query_of calls = ["z"]%string.
Proof.
  destruct (lookups_cascade "depends=(" "makedepends=(" (example_world true) "foo"
              "/build" example_recipe ["x"; "y"; "z"]%string
              (match pkgbuild_get_deps "depends=(" "makedepends=("
                       (buffer_of example_recipe) with
               | Done (_, m) => m
               | _ => []
               end))
    as (ret & calls & Hrun & H1 & H2 & H3).
  - reflexivity.
  - reflexivity.
  - reflexivity.
  - vm_compute. reflexivity.
  - exists ret, calls. split_and!; [exact Hrun|exact H1|exact H2|exact H3].
Defined.

(** X9.  In a pass whose recipe is read, no name is looked up twice in
    the local database, searched twice in the sync databases or queried
    twice in the AUR; the count returned is not negative and is at most
    the number of AUR queries, which is at most the number of searches of
    the sync databases, which is at most the number of dependencies.  The
    pass never loops for ever. *)
Theorem no_name_is_looked_up_twice (D M : string) (w : world) (pkg dir text : string) :
  working_dir w = Some dir ->
  get_file_as_buffer w (pkgbuild_path_of dir pkg) = Some text ->
  match get_pkg_dependencies D M w pkg with
  | Done (ret, calls) =>
      NoDup (omap local_lookup_of calls)
      /\ NoDup (omap sync_search_of calls)
      /\ NoDup (omap aur_query_of calls)
      /\ (0 <= ret)%Z
      /\ Z.to_nat ret <= length (omap aur_query_of calls)
      /\ length (omap aur_query_of calls) <= length (omap sync_search_of calls)
      /\ length (omap sync_search_of calls) <= length (omap local_lookup_of calls)
  | Crash => True
  | OutOfFuel => False
  end.
Proof.
  intros Hdir Hfile.
  unfold get_pkg_dependencies. rewrite Hdir.
  destruct (_ <? _); [done|]. rewrite Hfile.
  pose proof (get_deps_no_timeout D M (buffer_of text)) as Ht.
  destruct (pkgbuild_get_deps D M (buffer_of text)) as [[deplist m']| |] eqn:Hparse;
    [|done|done].
  assert (Hnd : NoDup deplist).
  { eapply (get_loop_stripped D M); [exact Hparse|]. split; constructor. }
  pose proof (resolve_dependencies_lookups w deplist 0%Z) as (H1 & H2 & H3).
  pose proof (resolve_dependencies_spec w deplist 0%Z) as [Hret _].
  destruct (resolve_dependencies w deplist 0) as [ret calls].
  cbn [fst snd] in *.
  cbn [omap list_omap local_lookup_of sync_search_of aur_query_of].
  rewrite H1, H2, H3, Hret.
  split_and!.
  - done.
  - by apply NoDup_List_filter.
  - by apply NoDup_List_filter.
  - lia.
  - rewrite Z.add_0_l, Nat2Z.id.
    apply List_filter_length_le, in_aur_queried.
  - apply List_filter_length_le. by intros x [? _]%andb_true_iff.
  - apply List.filter_length_le.
Qed.

Lemma no_name_is_looked_up_twice_witness :
  match get_pkg_dependencies "depends=(" "makedepends=(" (example_world true) "foo" with
  | Done (ret, calls) =>
      NoDup (omap aur_query_of calls)
      /\ Z.to_nat ret <= length (omap aur_query_of calls)
  | _ => False
  end.
Proof.
  pose proof (no_name_is_looked_up_twice "depends=(" "makedepends=(" (example_world true)
                "foo" "/build" example_recipe) as H.
  destruct (get_pkg_dependencies "depends=(" "makedepends=(" (example_world true) "foo")
    as [[ret calls]| |] eqn:Hrun.
  - destruct H as (_ & _ & H3 & _ & H5 & _); [reflexivity|reflexivity|].
    split; [exact H3|exact H5].
  - vm_compute in Hrun. discriminate Hrun.
  - vm_compute in Hrun. discriminate Hrun.
Defined.

(** * util.c: what [strtrim] leaves of a string *)

Lemma isspace_NUL : isspace NUL = false.
Proof. reflexivity. Qed.

Lemma is_nul_true c : is_nul c = true -> c = NUL.
Proof. unfold is_nul. by intros H%Ascii.eqb_eq. Qed.

Lemma trimmed_nil : trimmed [] = [].
Proof. reflexivity. Qed.

Lemma span_len_space_stop (rest J : list ascii) :
  (forall c, rest !! 0 = Some c -> isspace c = false) ->
  span_len isspace (rest ++ NUL :: J) = 0.
Proof.
  intros H. destruct rest as [|c rest]; [done|].
  simpl. by rewrite (H c).
Qed.

Lemma strlen_string (str J : list ascii) :
  Forall (fun c => is_nul c = false) str -> strlen (str ++ NUL :: J) 0 = length str.
Proof.
  intros H. unfold strlen. rewrite drop_0.
  apply span_len_app_stop; [|done].
  eapply List.Forall_impl; [|exact H]. intros c Hc. simpl in Hc. by rewrite Hc.
Qed.

(** [strtrim] on the string [str], whatever follows its NUL: the string
    becomes [trimmed str], in place, and the bytes after the old NUL stay. *)
Lemma strtrim_string (str J : list ascii) :
  Forall (fun c => is_nul c = false) str ->
  exists X,
    strtrim (str ++ NUL :: J) 0 = trimmed str ++ NUL :: X ++ J
    /\ length X + length (trimmed str) = length str.
Proof.
  intros Hstr. unfold strtrim.
  destruct (decide (str = [])) as [->|Hne].
  { exists []. done. }
  assert (Hpeek : is_nul (peek (str ++ NUL :: J) 0) = false).
  { destruct str as [|c str']; [done|]. by inversion Hstr. }
  rewrite Hpeek. cbv zeta.
  destruct (span_split isspace str) as (W & rest & Hsplit & HW & HWs & Hrest).
  assert (HrestN : Forall (fun c => is_nul c = false) rest).
  { rewrite Hsplit in Hstr. by apply Forall_app in Hstr as [_ ?]. }
  assert (Hspan : span_len isspace (drop 0 (str ++ NUL :: J)) = length W).
  { rewrite drop_0, Hsplit, <- app_assoc, span_len_app_all by done.
    rewrite span_len_space_stop by done. lia. }
  rewrite Hspan.
  assert (Htrim : trimmed str = without_trailing_space rest).
  { unfold trimmed. rewrite <- HW. rewrite Hsplit. by rewrite drop_app_length. }
  (* the buffer once the leading whitespace is gone *)
  assert (Hm1 : exists X1,
             (if 0 + length W =? 0 then str ++ NUL :: J
              else memmove (str ++ NUL :: J) 0 (0 + length W)
                     (strlen (str ++ NUL :: J) (0 + length W) + 1))
             = rest ++ NUL :: X1 ++ J
             /\ length X1 = length W).
  { destruct W as [|w W'].
    - exists []. simpl in Hsplit. subst rest. done.
    - cbn [Nat.add]. replace (length (w :: W') =? 0) with false by done.
      set (W := w :: W') in *.
      assert (Hlen : strlen (str ++ NUL :: J) (length W) = length rest).
      { unfold strlen. rewrite Hsplit, <- app_assoc, drop_app_length.
        apply span_len_app_stop; [|done].
        eapply List.Forall_impl; [|exact HrestN]. intros c Hc. simpl in Hc. by rewrite Hc. }
      rewrite Hlen. unfold memmove.
      assert (Htake : take (length rest + 1) (drop (length W) (str ++ NUL :: J))
                      = rest ++ [NUL]).
      { rewrite Hsplit, <- app_assoc, drop_app_length.
        rewrite take_app_ge by lia.
        replace (length rest + 1 - length rest) with 1 by lia. done. }
      rewrite Htake.
      exists (drop (length rest + 1) (W ++ rest ++ [NUL])).
      split.
      + rewrite <- (take_drop (length rest + 1) (str ++ NUL :: J)).
        rewrite list_inserts_0_r.
        2:{ rewrite length_take, Hsplit, !length_app. simpl. lia. }
        rewrite <- app_assoc. f_equal. cbn [app]. f_equal.
        rewrite Hsplit.
        replace ((W ++ rest) ++ NUL :: J) with ((W ++ rest ++ [NUL]) ++ J)
          by (by rewrite <- !app_assoc).
        rewrite drop_app_le; [done|].
        rewrite !length_app. simpl. lia.
      + rewrite length_drop, !length_app. simpl. lia. }
  destruct Hm1 as (X1 & -> & HX1).
  destruct (decide (rest = [])) as [->|Hrne].
  { exists X1. rewrite Htrim. cbn. split; [done|].
    rewrite Hsplit, app_nil_r. lia. }
  assert (Hpeek1 : is_nul (peek (rest ++ NUL :: X1 ++ J) 0) = false).
  { destruct rest as [|c rest']; [done|]. by inversion HrestN. }
  rewrite Hpeek1, strlen_string by done.
  rewrite drop_0, take_app_length.
  set (back := span_len isspace (rev rest)).
  assert (Hback : back <= length rest).
  { unfold back. rewrite <- length_rev. apply span_len_le. }
  replace (0 + length rest - back) with (length rest - back) by lia.
  set (i := length rest - back).
  exists (drop (S i) (rest ++ NUL :: X1)).
  rewrite Htrim. unfold without_trailing_space. fold back. fold i.
  split.
  - rewrite insert_take_drop.
    2:{ rewrite length_app. simpl. lia. }
    rewrite take_app_le by lia. f_equal. f_equal.
    replace (rest ++ NUL :: X1 ++ J) with ((rest ++ NUL :: X1) ++ J)
      by (by rewrite <- app_assoc).
    rewrite drop_app_le; [done|]. rewrite length_app. simpl. lia.
  - rewrite length_drop, length_take, length_app. simpl.
    rewrite Hsplit, length_app. lia.
Qed.

(** The same at any place of a buffer. *)
Lemma strtrim_at (pre str J : list ascii) :
  Forall (fun c => is_nul c = false) str ->
  exists X,
    strtrim (pre ++ str ++ NUL :: J) (length pre) = pre ++ trimmed str ++ NUL :: X ++ J
    /\ length X + length (trimmed str) = length str.
Proof.
  intros Hstr. destruct (strtrim_string str J Hstr) as (X & Heq & Hlen).
  exists X. split; [|done].
  rewrite <- (Nat.add_0_r (length pre)), strtrim_shift, Heq. done.
Qed.

(** * pacman.c: one line of the configuration *)

Lemma buffer_split (line : list ascii) :
  exists J, line ++ [NUL] = c_string line ++ NUL :: J.
Proof.
  induction line as [|c line IH]; [by exists []|].
  rewrite c_string_cons. destruct (is_nul c) eqn:Hc.
  - apply is_nul_true in Hc as ->. by exists (line ++ [NUL]).
  - destruct IH as (J & IH). exists J. cbn [app]. by rewrite IH.
Qed.

Lemma peek_string (s Y : list ascii) : peek (s ++ NUL :: Y) 0 = peek s 0.
Proof. by destruct s. Qed.

Lemma c_string_string (s Y : list ascii) :
  Forall (fun c => is_nul c = false) s -> c_string (s ++ NUL :: Y) = s.
Proof.
  intros H. rewrite c_string_app by done.
  by rewrite c_string_cons, app_nil_r.
Qed.

Lemma strdup_string (pre s Y : list ascii) :
  Forall (fun c => is_nul c = false) s ->
  strdup (pre ++ s ++ NUL :: Y) (length pre) = String.string_of_list_ascii s.
Proof.
  intros H. rewrite strdup_c_string, drop_app_length. by rewrite c_string_string.
Qed.

Lemma trimmed_no_nul s :
  Forall (fun c => is_nul c = false) s -> Forall (fun c => is_nul c = false) (trimmed s).
Proof.
  intros H. unfold trimmed, without_trailing_space.
  apply Forall_take, Forall_drop, H.
Qed.

Lemma before_comment_no_nul s :
  Forall (fun c => is_nul c = false) s ->
  Forall (fun c => is_nul c = false) (before_comment s).
Proof. intros H. by apply Forall_take. Qed.

(** The search of a character in a string. *)
Lemma strchr_string (s Y : list ascii) c :
  is_nul c = false -> Forall (fun x => is_nul x = false) s ->
  strchr (s ++ NUL :: Y) 0 c
  = let k := span_len (fun x => negb (Ascii.eqb x c)) s in
    if k <? length s then Some k else None.
Proof.
  intros Hc Hs. unfold strchr. cbv zeta.
  rewrite strcspn_c_string, drop_0, c_string_string by done.
  assert (Hf : forall x, negb (in_set x (String c EmptyString)) = negb (Ascii.eqb x c)).
  { intros x. by rewrite in_set_single. }
  assert (Hspan : span_len (fun x => negb (in_set x (String c EmptyString))) s
                  = span_len (fun x => negb (Ascii.eqb x c)) s).
  { clear Hs. induction s as [|x s IH]; [done|].
    cbn [span_len]. by rewrite IH, in_set_single. }
  rewrite Hspan. set (k := span_len _ s). cbn [Nat.add].
  pose proof (span_len_le (fun x => negb (Ascii.eqb x c)) s) as Hle. fold k in Hle.
  destruct (Nat.ltb_spec k (length s)) as [Hlt|Hge].
  - destruct (lookup_lt_is_Some_2 s k Hlt) as [x Hx].
    pose proof (span_len_stop _ s x Hx) as Hstop. apply negb_false_iff in Hstop.
    unfold peek. rewrite lookup_app_l by done. rewrite Hx. simpl. by rewrite Hstop.
  - assert (k = length s) as -> by lia.
    unfold peek. rewrite list_lookup_middle by done. cbn [default from_option id].
    destruct (Ascii.eqb_spec NUL c) as [<-|]; done.
Qed.

(** The cut of a string inside a buffer. *)
Lemma cut_string (s Y : list ascii) k :
  k <= length s ->
  exists Y', <[k := NUL]> (s ++ NUL :: Y) = take k s ++ NUL :: Y'.
Proof.
  intros Hk. exists (drop (S k) (s ++ NUL :: Y)).
  rewrite insert_take_drop by (rewrite length_app; simpl; lia).
  by rewrite take_app_le.
Qed.

(** [strsep] on a string. *)
Lemma strsep_string (s Y : list ascii) c :
  is_nul c = false -> Forall (fun x => is_nul x = false) s ->
  let k := span_len (fun x => negb (Ascii.eqb x c)) s in
  strsep (s ++ NUL :: Y) 0 (String c EmptyString)
  = if k <? length s
    then (Some (S k), take k s ++ NUL :: drop (S k) s ++ NUL :: Y)
    else (None, s ++ NUL :: Y).
Proof.
  intros Hc Hs k. unfold strsep. cbv zeta.
  rewrite strcspn_c_string, drop_0, c_string_string by done.
  pose proof (span_len_le (fun x => negb (Ascii.eqb x c)) s) as Hle. fold k in Hle.
  assert (Hspan : span_len (fun x => negb (in_set x (String c EmptyString))) s = k).
  { unfold k. clear Hs k Hle. induction s as [|x s IH]; [done|].
    cbn [span_len]. by rewrite IH, in_set_single. }
  rewrite Hspan. cbn [Nat.add].
  destruct (Nat.ltb_spec k (length s)) as [Hlt|Hge].
  - destruct (lookup_lt_is_Some_2 s k Hlt) as [x Hx].
    assert (Hxn : is_nul x = false).
    { exact (Forall_lookup_1 _ _ _ _ Hs Hx). }
    unfold peek. rewrite lookup_app_l by done. rewrite Hx. simpl. rewrite Hxn.
    f_equal.
    rewrite insert_take_drop by (rewrite length_app; simpl; lia).
    rewrite take_app_le by lia. f_equal. f_equal.
    rewrite drop_app_le by lia. done.
  - assert (k = length s) as -> by lia.
    unfold peek. rewrite list_lookup_middle by done. done.
Qed.

Lemma forallb_Forall_true {A : Type} (f : A -> bool) (l : list A) :
  forallb f l = true -> Forall (fun c => f c = true) l.
Proof.
  induction l as [|x l IH]; [constructor|].
  simpl. intros [Hx Hl]%andb_true_iff. constructor; [done|by apply IH].
Qed.

Lemma blank_no_nul W : is_blank W = true -> Forall (fun c => is_nul c = false) W.
Proof.
  intros H%forallb_Forall_true. eapply List.Forall_impl; [|exact H].
  intros c Hc. destruct (is_nul c) eqn:Hn; [|done].
  apply is_nul_true in Hn as ->. done.
Qed.

Lemma free_of_no_nul set s : free_of set s = true -> Forall (fun c => is_nul c = false) s.
Proof.
  intros H%forallb_Forall_true. eapply List.Forall_impl; [|exact H].
  intros c Hc. simpl in Hc. apply andb_true_iff in Hc as [Hc _].
  by apply negb_true_iff in Hc.
Qed.

Lemma free_of_span set s c :
  free_of set s = true -> in_set c set = true ->
  Forall (fun x => negb (Ascii.eqb x c) = true) s.
Proof.
  intros H%forallb_Forall_true Hc. eapply List.Forall_impl; [|exact H].
  intros x Hx. simpl in Hx. apply andb_true_iff in Hx as [_ Hx].
  destruct (Ascii.eqb_spec x c) as [->|]; [|done].
  by rewrite Hc in Hx.
Qed.

Lemma trimmed_blank W : is_blank W = true -> trimmed W = [].
Proof.
  intros H%forallb_Forall_true. unfold trimmed.
  rewrite span_len_all by done. by rewrite drop_all.
Qed.

Lemma trimmed_around (W1 P W2 : list ascii) :
  is_blank W1 = true -> is_blank W2 = true -> is_trimmed P = true -> P <> [] ->
  trimmed (W1 ++ P ++ W2) = P.
Proof.
  intros H1%forallb_Forall_true H2%forallb_Forall_true HP Hne.
  apply andb_true_iff in HP as [Hhead Hlast].
  apply negb_true_iff in Hhead, Hlast.
  unfold trimmed.
  rewrite span_len_app_all by done.
  rewrite (span_len_head_stop isspace (P ++ W2)).
  2:{ destruct P; [done|]. exact Hhead. }
  2:{ by destruct P. }
  rewrite Nat.add_0_r, drop_app_length.
  unfold without_trailing_space. rewrite rev_app_distr.
  rewrite span_len_app_all by (by apply Forall_rev).
  rewrite (span_len_head_stop isspace (rev P)); [|done|].
  2:{ intros Hr. apply Hne. by rewrite <- (rev_involutive P), Hr. }
  rewrite length_rev, length_app, Nat.add_0_r.
  replace (length P + length W2 - length W2) with (length P) by lia.
  by rewrite take_app_length.
Qed.

Lemma before_comment_free s :
  free_of "#" s = true -> before_comment s = s.
Proof.
  intros H. unfold before_comment.
  rewrite span_len_all; [by rewrite firstn_all|].
  by apply (free_of_span "#").
Qed.

Section ConfigLine.

Variable strtrim_NULL_returns : bool.

(** The line handler in terms of the string that [fgets] stored: what
    the trimming and the cut at [#] leave is handed to either branch. *)
Lemma config_line_string (line : list ascii) :
  let s := trimmed (c_string line) in
  let t := before_comment s in
  exists Y,
    config_line strtrim_NULL_returns line
    = if Ascii.eqb (peek s 0) "#" || (length s =? 0) then Done []
      else if Ascii.eqb (peek t 0) "[" || Ascii.eqb (peek t (length t - 1)) "]"
           then new_section (t ++ NUL :: Y) 1
           else key_value strtrim_NULL_returns (t ++ NUL :: Y).
Proof.
  intros s t. unfold config_line.
  destruct (buffer_split line) as (J & ->).
  pose proof (c_string_no_nul line) as Hcs.
  destruct (strtrim_string (c_string line) J Hcs) as (X & -> & _).
  fold s. pose proof (trimmed_no_nul _ Hcs) as Hs. fold s in Hs.
  rewrite peek_string, strlen_string by done.
  destruct (Ascii.eqb (peek s 0) "#" || (length s =? 0)); [by exists []|].
  rewrite strchr_string by done. cbv zeta.
  fold (before_comment s). fold t.
  pose proof (before_comment_no_nul s Hs) as Ht. fold t in Ht.
  assert (Hm : exists Y,
             (if span_len (fun x => negb (Ascii.eqb x "#")) s <? length s
              then <[span_len (fun x => negb (Ascii.eqb x "#")) s := NUL]> (s ++ NUL :: X ++ J)
              else s ++ NUL :: X ++ J)
             = t ++ NUL :: Y).
  { destruct (Nat.ltb_spec (span_len (fun x => negb (Ascii.eqb x "#")) s) (length s))
      as [Hlt|Hge].
    - apply cut_string. lia.
    - exists (X ++ J). unfold t, before_comment. by rewrite take_ge. }
  destruct Hm as (Y & HY). exists Y.
  destruct (span_len (fun x => negb (Ascii.eqb x "#")) s <? length s); rewrite HY;
    rewrite peek_string, strlen_string by done;
    (replace (peek (t ++ NUL :: Y) (length t - 1)) with (peek t (length t - 1));
     [done|]);
    (destruct (decide (t = [])) as [->|Hne]; [done|];
     unfold peek; rewrite lookup_app_l; [done|];
     destruct t; [done|simpl; lia]).
Qed.

(** The branch of a section header on a string. *)
Lemma new_section_string (c : ascii) (x Y : list ascii) :
  Forall (fun a => is_nul a = false) x ->
  new_section ((c :: x) ++ NUL :: Y) 1
  = if length x =? 0 then Crash
    else
      let name := String.string_of_list_ascii (take (length x - 1) x) in
      if negb (String.eqb name "options") then Done [AlpmDbRegisterSync name]
      else Done [].
Proof.
  intros Hx. unfold new_section.
  change ((c :: x) ++ NUL :: Y) with ([c] ++ x ++ NUL :: Y).
  pose proof (strdup_string [c] x Y Hx) as Hd.
  change (length [c]) with 1 in Hd. rewrite Hd. clear Hd.
  rewrite String.list_ascii_of_string_of_list_ascii.
  change (x ++ [NUL]) with (x ++ NUL :: []).
  rewrite strlen_string by done.
  destruct (length x =? 0) eqn:Hlen; [done|].
  apply Nat.eqb_neq in Hlen.
  destruct (cut_string x [] (length x - 1)) as (Y' & ->); [lia|].
  cbv zeta.
  pose proof (strdup_string [] (take (length x - 1) x) Y') as Hd.
  cbn [app length] in Hd. rewrite Hd; [done|]. by apply Forall_take.
Qed.

(** The branch of a [key = value] line on a string. *)
Lemma key_value_string (t Y : list ascii) :
  Forall (fun a => is_nul a = false) t ->
  let k := span_len (fun x => negb (Ascii.eqb x "=")) t in
  k < length t ->
  key_value strtrim_NULL_returns (t ++ NUL :: Y)
  = let key := String.string_of_list_ascii (trimmed (take k t)) in
    let value := String.string_of_list_ascii (trimmed (drop (S k) t)) in
    if String.eqb key "RootDir" then Done [AlpmOptionSetRoot (Some value)]
    else if String.eqb key "DBPath" then Done [AlpmOptionSetDbpath (Some value)]
    else Done [].
Proof.
  intros Ht k Hk. unfold key_value.
  rewrite (strsep_string t Y "=") by done. fold k.
  apply Nat.ltb_lt in Hk as Hkb. rewrite Hkb.
  assert (Hkey : Forall (fun a => is_nul a = false) (take k t)) by (by apply Forall_take).
  assert (Hval : Forall (fun a => is_nul a = false) (drop (S k) t)) by (by apply Forall_drop).
  destruct (strtrim_string (take k t) (drop (S k) t ++ NUL :: Y) Hkey) as (X & -> & HX).
  rewrite length_take in HX.
  set (pre := trimmed (take k t) ++ NUL :: X).
  assert (Hpre : length pre = S k).
  { unfold pre. rewrite length_app. simpl. lia. }
  replace (trimmed (take k t) ++ NUL :: X ++ drop (S k) t ++ NUL :: Y)
    with (pre ++ drop (S k) t ++ NUL :: Y)
    by (unfold pre; by rewrite <- app_assoc).
  destruct (strtrim_at pre (drop (S k) t) Y Hval) as (X' & HX' & _).
  rewrite Hpre in HX'. rewrite HX'. clear HX'.
  pose proof (strdup_string pre (trimmed (drop (S k) t)) (X' ++ Y)) as Hd.
  rewrite Hpre in Hd. rewrite Hd by (by apply trimmed_no_nul). clear Hd.
  unfold pre. rewrite <- app_assoc. cbn [app].
  pose proof (strdup_string [] (trimmed (take k t)) (X ++ trimmed (drop (S k) t) ++ NUL :: X' ++ Y))
    as Hd.
  cbn [app length] in Hd. rewrite Hd by (by apply trimmed_no_nul).
  done.
Qed.

End ConfigLine.

Lemma wts_head c x :
  isspace c = false -> peek (without_trailing_space (c :: x)) 0 = c.
Proof.
  intros Hc. unfold without_trailing_space.
  cbn [rev]. rewrite (span_len_app_stop_at isspace (rev x) [] c Hc).
  pose proof (span_len_le isspace (rev x)) as Hle. rewrite length_rev in Hle.
  cbn [length].
  replace (S (length x) - span_len isspace (rev x))
    with (S (length x - span_len isspace (rev x))) by lia.
  done.
Qed.

Lemma config_line_skip (b : bool) (line : list ascii) :
  Ascii.eqb (peek (trimmed (c_string line)) 0) "#"
  || (length (trimmed (c_string line)) =? 0) = true ->
  config_line b line = Done [].
Proof.
  intros H. destruct (config_line_string b line) as (Y & ->). cbv zeta.
  by rewrite H.
Qed.

(** X10.  A line of the configuration that holds only whitespace, or
    whose first character after leading whitespace is [#], makes no call
    to libalpm, whatever follows the [#]. *)
Theorem blank_and_comment_lines_make_no_call (strtrim_NULL_returns : bool)
    (W rest : list ascii) :
  is_blank W = true ->
  config_line strtrim_NULL_returns W = Done []
  /\ config_line strtrim_NULL_returns (W ++ "#"%char :: rest) = Done [].
Proof.
  intros HW. pose proof (blank_no_nul W HW) as HWn. split.
  - apply config_line_skip.
    replace (c_string W) with W.
    2:{ rewrite <- (app_nil_r W) at 2. rewrite c_string_app by done.
        by rewrite c_string_nil, app_nil_r. }
    by rewrite trimmed_blank.
  - apply config_line_skip.
    rewrite c_string_app by done.
    change (c_string ("#"%char :: rest)) with ("#"%char :: c_string rest).
    unfold trimmed.
    rewrite (span_len_app_stop isspace W "#" (c_string rest));
      [|by apply forallb_Forall_true|done].
    rewrite drop_app_length, wts_head by done. done.
Qed.

Lemma blank_and_comment_lines_make_no_call_witness :
  config_line true (String.list_ascii_of_string "   ") = Done []
  /\ config_line true (String.list_ascii_of_string "   # [core]") = Done [].
Proof.
  apply (blank_and_comment_lines_make_no_call true
           (String.list_ascii_of_string "   ") (String.list_ascii_of_string " [core]")).
  reflexivity.
Defined.


Lemma peek_rev_last (t : list ascii) : peek (rev t) 0 = peek t (length t - 1).
Proof.
  induction t as [|z t _] using rev_ind; [done|].
  rewrite rev_app_distr, length_app. cbn [rev app length].
  replace (length t + 1 - 1) with (length t) by lia.
  unfold peek. by rewrite list_lookup_middle.
Qed.

Lemma blank_free W c :
  is_blank W = true -> isspace c = false ->
  Forall (fun x => negb (Ascii.eqb x c) = true) W.
Proof.
  intros H%forallb_Forall_true Hc. eapply List.Forall_impl; [|exact H].
  intros x Hx. simpl in Hx. destruct (Ascii.eqb_spec x c) as [->|]; [|done].
  congruence.
Qed.

Lemma c_string_free (s : list ascii) :
  Forall (fun c => is_nul c = false) s -> c_string s = s.
Proof.
  intros H. rewrite <- (app_nil_r s) at 1. rewrite c_string_app by done.
  by rewrite c_string_nil, app_nil_r.
Qed.

Lemma free_of_Forall set s :
  free_of set s = true ->
  Forall (fun c => is_nul c = false /\ in_set c set = false) s.
Proof.
  intros H%forallb_Forall_true. eapply List.Forall_impl; [|exact H].
  intros c Hc. simpl in Hc. apply andb_true_iff in Hc as [H1 H2].
  by apply negb_true_iff in H1, H2.
Qed.

(** X11.  A section header, [[name]] between optional whitespace, whose
    name holds no [#]: the handler registers the sync database [name],
    unless the name is [options], in which case it makes no call. *)
Theorem section_header_registers_sync_db (strtrim_NULL_returns : bool)
    (W1 W2 name : list ascii) :
  is_blank W1 = true -> is_blank W2 = true -> free_of "#" name = true ->
  config_line strtrim_NULL_returns (W1 ++ "["%char :: name ++ "]"%char :: W2)
  = if String.eqb (String.string_of_list_ascii name) "options" then Done []
    else Done [AlpmDbRegisterSync (String.string_of_list_ascii name)].
Proof.
  intros H1 H2 Hname.
  pose proof (free_of_no_nul _ _ Hname) as Hn.
  set (P := "["%char :: name ++ ["]"%char]).
  assert (Hline : W1 ++ "["%char :: name ++ "]"%char :: W2 = W1 ++ P ++ W2).
  { unfold P. cbn [app]. by rewrite <- app_assoc. }
  rewrite Hline.
  assert (HPn : Forall (fun c => is_nul c = false) P).
  { unfold P. constructor; [done|]. apply Forall_app. split; [done|by constructor]. }
  assert (Hs : trimmed (c_string (W1 ++ P ++ W2)) = P).
  { rewrite c_string_free.
    2:{ apply Forall_app. split; [by apply blank_no_nul|].
        apply Forall_app. split; [done|by apply blank_no_nul]. }
    apply trimmed_around; [done|done| |done].
    unfold is_trimmed, P. cbn [rev]. rewrite rev_app_distr. done. }
  destruct (config_line_string strtrim_NULL_returns (W1 ++ P ++ W2)) as (Y & ->).
  cbv zeta. rewrite Hs.
  assert (Ht : before_comment P = P).
  { apply before_comment_free. unfold P, free_of. cbn [forallb].
    rewrite forallb_app. unfold free_of in Hname. by rewrite Hname. }
  rewrite Ht.
  change (Ascii.eqb (peek P 0) "#" || (length P =? 0)) with false.
  change (Ascii.eqb (peek P 0) "[") with true. cbn [orb].
  unfold P. rewrite (new_section_string "[" (name ++ ["]"%char]) Y).
  2:{ apply Forall_app. split; [done|by constructor]. }
  rewrite length_app. cbn [length].
  replace (length name + 1 =? 0) with false by (symmetry; apply Nat.eqb_neq; lia).
  cbv zeta.
  replace (length name + 1 - 1) with (length name) by lia.
  rewrite take_app_length.
  by destruct (String.eqb (String.string_of_list_ascii name) "options").
Qed.

Lemma section_header_registers_sync_db_witness :
  config_line true (String.list_ascii_of_string "  [core]" ++ [newline])
  = Done [AlpmDbRegisterSync "core"].
Proof.
  apply (section_header_registers_sync_db true
           (String.list_ascii_of_string "  ") [newline]
           (String.list_ascii_of_string "core")); reflexivity.
Defined.

(** X12.  A line that holds nothing but one bracket, [[] or []], between
    optional whitespace: the handler duplicates the empty string that
    follows the first character and writes a NUL before the start of the
    copy, [section[strlen(section) - 1]] with a length of 0. *)
Theorem lone_bracket_writes_before_the_block (strtrim_NULL_returns : bool)
    (W1 W2 : list ascii) (c : ascii) :
  is_blank W1 = true -> is_blank W2 = true -> c = "["%char \/ c = "]"%char ->
  config_line strtrim_NULL_returns (W1 ++ c :: W2) = Crash.
Proof.
  intros H1 H2 Hc.
  assert (Hcn : is_nul c = false /\ isspace c = false
                /\ Ascii.eqb c "#" = false
                /\ Ascii.eqb c "[" || Ascii.eqb c "]" = true).
  { by destruct Hc as [-> | ->]. }
  destruct Hcn as (Hc1 & Hc2 & Hc3 & Hc4).
  assert (Hs : trimmed (c_string (W1 ++ c :: W2)) = [c]).
  { rewrite c_string_free.
    2:{ apply Forall_app. split; [by apply blank_no_nul|].
        constructor; [done|by apply blank_no_nul]. }
    apply (trimmed_around W1 [c] W2); [done|done| |done].
    unfold is_trimmed. cbn [rev app]. unfold peek. cbn. by rewrite Hc2. }
  destruct (config_line_string strtrim_NULL_returns (W1 ++ c :: W2)) as (Y & ->).
  cbv zeta. rewrite Hs.
  assert (Ht : before_comment [c] = [c]).
  { unfold before_comment. cbn [span_len]. by rewrite Hc3. }
  rewrite Ht. unfold peek. cbn [lookup list_lookup default from_option id length Nat.sub].
  rewrite Hc3. cbn [orb Nat.eqb].
  rewrite Hc4.
  exact (new_section_string c [] Y (Forall_nil _)).
Qed.

Lemma lone_bracket_writes_before_the_block_witness :
  config_line true (String.list_ascii_of_string " [" ++ [newline]) = Crash.
Proof.
  apply (lone_bracket_writes_before_the_block true
           (String.list_ascii_of_string " ") [newline] "[");
    [reflexivity|reflexivity|left; reflexivity].
Defined.

Lemma peek_rev_app_last (a v : list ascii) :
  v <> [] -> peek (rev (a ++ v)) 0 = peek (rev v) 0.
Proof.
  intros Hne. rewrite rev_app_distr.
  destruct (rev v) eqn:Hr; [|done].
  exfalso. apply Hne. by rewrite <- (rev_involutive v), Hr.
Qed.

(** A [key = value] line, [V] being what stands right of the sign once
    the line is trimmed. *)
Lemma key_value_line (b : bool) (W1 W2 Wend key V : list ascii) :
  is_blank W1 = true -> is_blank W2 = true -> is_blank Wend = true ->
  free_of "#=" key = true -> is_trimmed key = true -> key <> [] ->
  Ascii.eqb (peek key 0) "[" = false ->
  Forall (fun c => is_nul c = false) V ->
  Forall (fun x => negb (Ascii.eqb x "#") = true) V ->
  isspace (peek (rev ("="%char :: V)) 0) = false ->
  Ascii.eqb (peek (rev ("="%char :: V)) 0) "]" = false ->
  config_line b (W1 ++ key ++ W2 ++ "="%char :: V ++ Wend)
  = if String.eqb (String.string_of_list_ascii key) "RootDir"
    then Done [AlpmOptionSetRoot (Some (String.string_of_list_ascii (trimmed V)))]
    else if String.eqb (String.string_of_list_ascii key) "DBPath"
    then Done [AlpmOptionSetDbpath (Some (String.string_of_list_ascii (trimmed V)))]
    else Done [].
Proof.
  intros H1 H2 H3 Hkey Hkt Hkne Hk0 HVn HVc HVs HVl.
  pose proof (free_of_no_nul _ _ Hkey) as Hkn.
  pose proof (blank_no_nul _ H1) as H1n. pose proof (blank_no_nul _ H2) as H2n.
  pose proof (blank_no_nul _ H3) as H3n.
  set (t := key ++ W2 ++ "="%char :: V).
  assert (Htn : Forall (fun c => is_nul c = false) t).
  { unfold t. apply Forall_app. split; [done|]. apply Forall_app. split; [done|].
    by constructor. }
  assert (Hkhead : isspace (peek key 0) = false).
  { apply andb_true_iff in Hkt as [Hh _]. by apply negb_true_iff in Hh. }
  assert (Hhead : peek t 0 = peek key 0) by (unfold t; by destruct key).
  assert (Hrev : peek (rev t) 0 = peek (rev ("="%char :: V)) 0).
  { unfold t. rewrite app_assoc. by apply peek_rev_app_last. }
  assert (Hs : trimmed (c_string (W1 ++ key ++ W2 ++ "="%char :: V ++ Wend)) = t).
  { rewrite c_string_free.
    2:{ repeat (apply Forall_app; split; [done|]). constructor; [done|].
        by apply Forall_app. }
    replace (W1 ++ key ++ W2 ++ "="%char :: V ++ Wend) with (W1 ++ t ++ Wend)
      by (unfold t; same_list).
    apply trimmed_around; [done|done| |unfold t; by destruct key].
    unfold is_trimmed. by rewrite Hhead, Hrev, Hkhead, HVs. }
  destruct (config_line_string b (W1 ++ key ++ W2 ++ "="%char :: V ++ Wend)) as (Y & ->).
  cbv zeta. rewrite Hs.
  assert (Hfree : before_comment t = t).
  { unfold before_comment. rewrite span_len_all; [by rewrite firstn_all|].
    unfold t. apply Forall_app. split; [by apply (free_of_span "#=")|].
    apply Forall_app. split; [by apply blank_free|].
    by constructor. }
  rewrite Hfree.
  assert (Hnc : Ascii.eqb (peek key 0) "#" = false).
  { destruct key as [|c key']; [done|].
    apply free_of_Forall in Hkey. inversion Hkey as [|? ? [_ Hc] _]; subst.
    unfold peek. cbn. destruct (Ascii.eqb_spec c "#") as [->|]; [done|done]. }
  assert (Hlen : (length t =? 0) = false).
  { apply Nat.eqb_neq. unfold t. rewrite length_app. destruct key; [done|simpl; lia]. }
  rewrite <- peek_rev_last, Hrev, Hhead, Hnc, Hlen, Hk0, HVl. cbn [orb].
  assert (Hk : span_len (fun x => negb (Ascii.eqb x "=")) t = length (key ++ W2)).
  { unfold t. rewrite app_assoc. apply span_len_app_stop; [|done].
    apply Forall_app. split; [by apply (free_of_span "#=")|by apply blank_free]. }
  rewrite (key_value_string b t Y Htn).
  2:{ rewrite Hk. unfold t. rewrite !length_app. simpl. lia. }
  cbv zeta. rewrite Hk.
  assert (Htake : take (length (key ++ W2)) t = key ++ W2).
  { unfold t. by rewrite app_assoc, take_app_length. }
  assert (Hdrop : drop (S (length (key ++ W2))) t = V).
  { unfold t. rewrite app_assoc.
    change ((key ++ W2) ++ "="%char :: V) with ((key ++ W2) ++ ["="%char] ++ V).
    rewrite app_assoc.
    replace (S (length (key ++ W2))) with (length ((key ++ W2) ++ ["="%char]))
      by (rewrite length_app; simpl; lia).
    by rewrite drop_app_length. }
  rewrite Htake, Hdrop.
  replace (trimmed (key ++ W2)) with key; [done|].
  symmetry. apply (trimmed_around [] key W2); done.
Qed.

(** X13.  A line [key = value], with optional whitespace around the key
    and the value, no [#] in it, a key that does not start with [[] and
    a value that does not end with []]: the handler sets the root to the
    value when the key is exactly [RootDir], sets the database path to
    the value when the key is exactly [DBPath], and makes no call for any
    other key.  The value is cut at the first [=] only, and the section
    the line stands in plays no part. *)
Theorem key_value_line_sets_root_or_dbpath (strtrim_NULL_returns : bool)
    (W1 W2 W3 W4 key value : list ascii) :
  is_blank W1 = true -> is_blank W2 = true ->
  is_blank W3 = true -> is_blank W4 = true ->
  free_of "#=" key = true -> is_trimmed key = true -> key <> [] ->
  Ascii.eqb (peek key 0) "[" = false ->
  free_of "#" value = true -> is_trimmed value = true ->
  Ascii.eqb (peek (rev value) 0) "]" = false ->
  config_line strtrim_NULL_returns (W1 ++ key ++ W2 ++ "="%char :: W3 ++ value ++ W4)
  = if String.eqb (String.string_of_list_ascii key) "RootDir"
    then Done [AlpmOptionSetRoot (Some (String.string_of_list_ascii value))]
    else if String.eqb (String.string_of_list_ascii key) "DBPath"
    then Done [AlpmOptionSetDbpath (Some (String.string_of_list_ascii value))]
    else Done [].
Proof.
  intros H1 H2 H3 H4 Hkey Hkt Hkne Hk0 Hval Hvt Hvlast.
  pose proof (free_of_no_nul _ _ Hval) as Hvn.
  pose proof (blank_no_nul _ H3) as H3n.
  destruct (decide (value = [])) as [->|Hne].
  - rewrite app_nil_l.
    pose proof (key_value_line strtrim_NULL_returns W1 W2 (W3 ++ W4) key []) as H.
    cbn [app] in H. rewrite H; [done|try done..].
    unfold is_blank. rewrite forallb_app. unfold is_blank in H3, H4. by rewrite H3, H4.
  - pose proof (key_value_line strtrim_NULL_returns W1 W2 W4 key (W3 ++ value)) as H.
    rewrite <- app_assoc in H.
    assert (Hlastv : peek (rev ("="%char :: W3 ++ value)) 0 = peek (rev value) 0).
    { change ("="%char :: W3 ++ value) with (("="%char :: W3) ++ value).
      by apply peek_rev_app_last. }
    rewrite H; try done.
    + replace (trimmed (W3 ++ value)) with value; [done|].
      symmetry. rewrite <- (app_nil_r (W3 ++ value)), <- app_assoc.
      by apply trimmed_around.
    + by apply Forall_app.
    + apply Forall_app. split; [by apply blank_free|by apply (free_of_span "#")].
    + rewrite Hlastv. apply andb_true_iff in Hvt as [_ Hvt].
      by apply negb_true_iff in Hvt.
    + by rewrite Hlastv.
Qed.

Lemma key_value_line_sets_root_or_dbpath_witness :
  config_line true (String.list_ascii_of_string "RootDir  = /mnt/a=b" ++ [newline])
  = Done [AlpmOptionSetRoot (Some "/mnt/a=b"%string)].
Proof.
  apply (key_value_line_sets_root_or_dbpath true []
           (String.list_ascii_of_string "  ") (String.list_ascii_of_string " ")
           [newline] (String.list_ascii_of_string "RootDir")
           (String.list_ascii_of_string "/mnt/a=b")); try reflexivity.
  discriminate.
Defined.

(** * pacman.c: the lines of the configuration *)

Lemma PATH_MAX_eq : PATH_MAX = 4096.
Proof. reflexivity. Qed.

Lemma no_newline_Forall s :
  no_newline s = true -> Forall (fun c => negb (Ascii.eqb c newline) = true) s.
Proof. apply forallb_Forall_true. Qed.

(** [fgets] hands over a short line whole, with its newline. *)
Lemma fgets_line (l rest : list ascii) :
  short_line l = true ->
  fgets PATH_MAX (l ++ newline :: rest) = Some (l ++ [newline], rest).
Proof.
  intros [Hnl Hlen]%andb_true_iff. apply Nat.ltb_lt in Hlen.
  apply no_newline_Forall in Hnl.
  unfold fgets.
  rewrite (span_len_app_stop _ l newline rest Hnl) by done.
  assert (Hmin : Nat.min (PATH_MAX - 1) (S (length l)) = length (l ++ [newline])).
  { rewrite length_app. cbn [length]. lia. }
  rewrite Hmin.
  replace (l ++ newline :: rest) with ((l ++ [newline]) ++ rest) by same_list.
  rewrite take_app_length, drop_app_length.
  by destruct l.
Qed.

(** [fgets] stops after [PATH_MAX - 1] bytes without a newline. *)
Lemma fgets_long (chunk rest : list ascii) :
  length chunk + 1 = PATH_MAX -> no_newline chunk = true ->
  fgets PATH_MAX (chunk ++ rest) = Some (chunk, rest).
Proof.
  intros Hlen Hnl%no_newline_Forall. unfold fgets.
  rewrite (span_len_app_all _ chunk rest Hnl).
  assert (Hmin : Nat.min (PATH_MAX - 1)
                   (S (length chunk + span_len (fun c => negb (Ascii.eqb c newline)) rest))
                 = length chunk) by lia.
  rewrite Hmin, take_app_length, drop_app_length.
  destruct chunk; [|done]. rewrite PATH_MAX_eq in Hlen. cbn [length] in Hlen. lia.
Qed.

Lemma fgets_shorter (s line rest : list ascii) :
  fgets PATH_MAX s = Some (line, rest) -> length rest < length s.
Proof.
  unfold fgets. destruct s as [|c s]; [done|].
  intros [= _ <-]. rewrite length_drop.
  pose proof PATH_MAX_eq. cbn [length]. lia.
Qed.

Section ConfigLoop.

Variable strtrim_NULL_returns : bool.

(** Fuel beyond the length of what is left to read changes nothing. *)
Lemma quick_init_loop_fuel n :
  forall n' text,
    length text < n -> length text < n' ->
    alpm_quick_init_loop strtrim_NULL_returns n text
    = alpm_quick_init_loop strtrim_NULL_returns n' text.
Proof.
  induction n as [|n IH]; intros n' text Hn Hn'; [lia|].
  destruct n' as [|n']; [lia|].
  cbn [alpm_quick_init_loop].
  destruct (fgets PATH_MAX text) as [[line rest]|] eqn:Hget; [|done].
  apply fgets_shorter in Hget.
  rewrite (IH n' rest) by lia. done.
Qed.

Lemma quick_init_loop_lines lines :
  forall n,
    length (text_of_lines lines) < n ->
    Forall (fun l => short_line l = true) lines ->
    alpm_quick_init_loop strtrim_NULL_returns n (text_of_lines lines)
    = foldr (fun l rest =>
               then_calls (config_line strtrim_NULL_returns (l ++ [newline])) rest)
        (Done []) lines.
Proof.
  induction lines as [|l lines IH]; intros n Hn Hshort.
  { destruct n; [simpl in Hn; lia|done]. }
  inversion Hshort as [|? ? Hl Hrest]; subst.
  destruct n as [|n]; [lia|].
  change (text_of_lines (l :: lines)) with ((l ++ [newline]) ++ text_of_lines lines) in *.
  rewrite !length_app in Hn. cbn [length] in Hn.
  cbn [alpm_quick_init_loop foldr].
  replace ((l ++ [newline]) ++ text_of_lines lines)
    with (l ++ newline :: text_of_lines lines) by same_list.
  rewrite (fgets_line l _ Hl).
  rewrite (IH n) by (done || lia).
  done.
Qed.

Lemma comment_line_skipped (rest : list ascii) :
  config_line strtrim_NULL_returns ("#"%char :: rest) = Done [].
Proof.
  apply config_line_skip.
  change (c_string ("#"%char :: rest)) with ("#"%char :: c_string rest).
  unfold trimmed. cbn [span_len isspace]. rewrite drop_0.
  by rewrite wts_head.
Qed.

End ConfigLoop.

(** X14.  Without a configuration file [alpm_quick_init] initializes
    libalpm, sets the root to [/] and the database path to
    [/var/lib/pacman] and registers the local database, and that is all.
    With a file whose lines are shorter than [PATH_MAX - 1] bytes it goes
    on with the calls of each line in turn, in the order of the file: a
    line is handled whole, with its newline, and on its own. *)
Theorem lines_are_handled_in_order (strtrim_NULL_returns : bool)
    (lines : list (list ascii)) :
  Forall (fun l => short_line l = true) lines ->
  alpm_quick_init strtrim_NULL_returns None = Done initial_calls
  /\ alpm_quick_init strtrim_NULL_returns (Some (text_of_lines lines))
     = then_calls (Done initial_calls)
         (foldr (fun l rest =>
                   then_calls (config_line strtrim_NULL_returns (l ++ [newline])) rest)
            (Done []) lines).
Proof.
  intros Hshort. split; [done|].
  unfold alpm_quick_init.
  rewrite (quick_init_loop_lines strtrim_NULL_returns lines) by (done || lia).
  done.
Qed.

Lemma lines_are_handled_in_order_witness :
  alpm_quick_init true
    (Some (text_of_lines
             [String.list_ascii_of_string "# pacman.conf";
              String.list_ascii_of_string "[options]";
              String.list_ascii_of_string "DBPath = /db";
              String.list_ascii_of_string "[core]";
              String.list_ascii_of_string "Server = http://mirror/core";
              String.list_ascii_of_string "[extra]"]))
  = Done (initial_calls
          ++ [AlpmOptionSetDbpath (Some "/db"%string);
              AlpmDbRegisterSync "core"; AlpmDbRegisterSync "extra"]).
Proof.
  destruct (lines_are_handled_in_order true
              [String.list_ascii_of_string "# pacman.conf";
               String.list_ascii_of_string "[options]";
               String.list_ascii_of_string "DBPath = /db";
               String.list_ascii_of_string "[core]";
               String.list_ascii_of_string "Server = http://mirror/core";
               String.list_ascii_of_string "[extra]"]) as [_ H].
  - repeat constructor.
  - rewrite H. vm_compute. reflexivity.
Defined.

(** X15.  [fgets] is given a buffer of [PATH_MAX] bytes: of a comment
    line that is longer, only the first [PATH_MAX - 1] bytes are skipped,
    and what follows them is read as the next line of the configuration,
    as if the comment were not there. *)
Theorem long_comment_runs_into_the_next_read (strtrim_NULL_returns : bool)
    (pad rest : list ascii) :
  length pad + 2 = PATH_MAX -> no_newline pad = true ->
  alpm_quick_init strtrim_NULL_returns (Some ("#"%char :: pad ++ rest))
  = alpm_quick_init strtrim_NULL_returns (Some rest).
Proof.
  intros Hlen Hnl. unfold alpm_quick_init.
  set (next := alpm_quick_init_loop strtrim_NULL_returns (S (length rest)) rest).
  cbn [alpm_quick_init_loop].
  change ("#"%char :: pad ++ rest) with (("#"%char :: pad) ++ rest).
  rewrite fgets_long; [|cbn [length]; lia|
    unfold no_newline in Hnl |- *; cbn [forallb]; by rewrite Hnl].
  rewrite comment_line_skipped.
  rewrite (quick_init_loop_fuel strtrim_NULL_returns _ (S (length rest)) rest);
    [|rewrite length_app; cbn [length]; lia|lia].
  fold next. by destruct next.
Qed.

Lemma long_comment_runs_into_the_next_read_witness :
  alpm_quick_init true
    (Some ("#"%char :: replicate 4094 "x"%char
           ++ String.list_ascii_of_string "[hidden]" ++ [newline]))
  = Done (initial_calls ++ [AlpmDbRegisterSync "hidden"]).
Proof.
  rewrite (long_comment_runs_into_the_next_read true (replicate 4094 "x"%char)
             (String.list_ascii_of_string "[hidden]" ++ [newline])).
  - vm_compute. reflexivity.
  - vm_compute. reflexivity.
  - vm_compute. reflexivity.
Defined.

(** The branch of a [key = value] line on a string without [=]. *)
Lemma key_value_no_sign (b : bool) (t Y : list ascii) :
  Forall (fun a => is_nul a = false) t ->
  span_len (fun x => negb (Ascii.eqb x "=")) t = length t ->
  key_value b (t ++ NUL :: Y)
  = if b then
      let key := String.string_of_list_ascii (trimmed t) in
      if String.eqb key "RootDir" then Done [AlpmOptionSetRoot None]
      else if String.eqb key "DBPath" then Done [AlpmOptionSetDbpath None]
      else Done []
    else Crash.
Proof.
  intros Ht Hk. unfold key_value.
  rewrite (strsep_string t Y "=") by done. cbv zeta.
  rewrite Hk, Nat.ltb_irrefl.
  destruct (strtrim_string t Y Ht) as (X & -> & _).
  destruct b; [|done].
  pose proof (strdup_string [] (trimmed t) (X ++ Y)) as Hd.
  cbn [app length] in Hd. rewrite Hd by (by apply trimmed_no_nul). done.
Qed.

(** X18.  One bracket is enough for a line to be taken for a section
    header: a line without [#] that starts with [[] or ends with []] has
    its first and its last character removed, whatever they are, and
    what is left is registered as a sync database, unless it is
    [options]; the handler fails when the line is that one character. *)
Theorem one_bracket_makes_a_section_header (strtrim_NULL_returns : bool)
    (W1 W2 : list ascii) (c : ascii) (x : list ascii) :
  is_blank W1 = true -> is_blank W2 = true ->
  free_of "#" (c :: x) = true -> is_trimmed (c :: x) = true ->
  Ascii.eqb c "[" || Ascii.eqb (peek (rev (c :: x)) 0) "]" = true ->
  config_line strtrim_NULL_returns (W1 ++ (c :: x) ++ W2)
  = match x with
    | [] => Crash
    | _ :: _ =>
        let name := String.string_of_list_ascii (take (length x - 1) x) in
        if String.eqb name "options" then Done []
        else Done [AlpmDbRegisterSync name]
    end.
Proof.
  intros H1 H2 Hfree Htrim Hbracket.
  pose proof (free_of_no_nul _ _ Hfree) as Hn.
  set (P := c :: x) in *.
  assert (Hs : trimmed (c_string (W1 ++ P ++ W2)) = P).
  { rewrite c_string_free.
    2:{ apply Forall_app. split; [by apply blank_no_nul|].
        apply Forall_app. split; [done|by apply blank_no_nul]. }
    by apply trimmed_around. }
  destruct (config_line_string strtrim_NULL_returns (W1 ++ P ++ W2)) as (Y & ->).
  cbv zeta. rewrite Hs, (before_comment_free P Hfree).
  assert (Hnc : Ascii.eqb (peek P 0) "#" = false).
  { apply free_of_Forall in Hfree. inversion Hfree as [|? ? [_ Hc] _]; subst.
    unfold P, peek. cbn. destruct (Ascii.eqb_spec c "#") as [->|]; [done|done]. }
  rewrite Hnc. change (length P =? 0) with false. cbn [orb].
  rewrite <- peek_rev_last. change (peek P 0) with c. rewrite Hbracket.
  unfold P. rewrite (new_section_string c x Y) by (by inversion Hn).
  destruct x as [|x0 x']; [done|].
  change (length (x0 :: x') =? 0) with false. cbv zeta.
  by destruct (String.eqb _ "options").
Qed.

Lemma one_bracket_makes_a_section_header_witness :
  config_line true (String.list_ascii_of_string "Server = http://mirror/[core]" ++ [newline])
  = Done [AlpmDbRegisterSync "erver = http://mirror/[core"].
Proof.
  apply (one_bracket_makes_a_section_header true [] [newline] "S"
           (String.list_ascii_of_string "erver = http://mirror/[core]")); reflexivity.
Defined.

(** X19.  A line that holds no [=] (and no [#], and is no section header)
    hands a NULL pointer to [strtrim]: what the handler does then is what
    [strtrim] of util.c does with NULL.  If that call returns, a line
    that is just [RootDir] or [DBPath] sets the root or the database path
    to NULL, and any other such line makes no call. *)
Theorem line_without_sign_hands_NULL_to_strtrim (strtrim_NULL_returns : bool)
    (W1 W2 key : list ascii) :
  is_blank W1 = true -> is_blank W2 = true ->
  free_of "#=" key = true -> is_trimmed key = true -> key <> [] ->
  Ascii.eqb (peek key 0) "[" || Ascii.eqb (peek (rev key) 0) "]" = false ->
  config_line strtrim_NULL_returns (W1 ++ key ++ W2)
  = if strtrim_NULL_returns then
      if String.eqb (String.string_of_list_ascii key) "RootDir"
      then Done [AlpmOptionSetRoot None]
      else if String.eqb (String.string_of_list_ascii key) "DBPath"
      then Done [AlpmOptionSetDbpath None]
      else Done []
    else Crash.
Proof.
  intros H1 H2 Hfree Htrim Hne Hbracket.
  pose proof (free_of_no_nul _ _ Hfree) as Hn.
  assert (Hs : trimmed (c_string (W1 ++ key ++ W2)) = key).
  { rewrite c_string_free.
    2:{ apply Forall_app. split; [by apply blank_no_nul|].
        apply Forall_app. split; [done|by apply blank_no_nul]. }
    by apply trimmed_around. }
  destruct (config_line_string strtrim_NULL_returns (W1 ++ key ++ W2)) as (Y & ->).
  cbv zeta. rewrite Hs.
  assert (Hc : before_comment key = key).
  { unfold before_comment. rewrite span_len_all; [by rewrite firstn_all|].
    by apply (free_of_span "#="). }
  rewrite Hc.
  assert (Hnc : Ascii.eqb (peek key 0) "#" = false).
  { destruct key as [|c key']; [done|].
    apply free_of_Forall in Hfree. inversion Hfree as [|? ? [_ Hx] _]; subst.
    unfold peek. cbn. destruct (Ascii.eqb_spec c "#") as [->|]; [done|done]. }
  assert (Hlen : (length key =? 0) = false) by (by destruct key).
  rewrite Hnc, Hlen, <- peek_rev_last, Hbracket. cbn [orb].
  rewrite key_value_no_sign; [|done|].
  2:{ apply span_len_all. by apply (free_of_span "#="). }
  cbv zeta.
  pose proof (trimmed_around [] key [] eq_refl eq_refl Htrim Hne) as Ht.
  cbn [app] in Ht. rewrite app_nil_r in Ht. by rewrite Ht.
Qed.

Lemma line_without_sign_hands_NULL_to_strtrim_witness :
  config_line true (String.list_ascii_of_string "RootDir" ++ [newline])
  = Done [AlpmOptionSetRoot None]
  /\ config_line false (String.list_ascii_of_string "ILoveCandy" ++ [newline]) = Crash.
Proof.
  split.
  - apply (line_without_sign_hands_NULL_to_strtrim true [] [newline]
             (String.list_ascii_of_string "RootDir")); try reflexivity.
    discriminate.
  - apply (line_without_sign_hands_NULL_to_strtrim false [] [newline]
             (String.list_ascii_of_string "ILoveCandy")); try reflexivity.
    discriminate.
Defined.

(** * depends.c: the scan of a recipe leaves no trace in its result *)

Lemma find_char_Some c s k :
  find_char c s = Some k -> k < length s /\ s !! k = Some c.
Proof.
  unfold find_char. cbv zeta.
  destruct (Nat.ltb_spec (span_len (fun x => negb (Ascii.eqb x c)) s) (length s))
    as [Hlt|]; [|done].
  intros [= <-]. split; [done|].
  destruct (lookup_lt_is_Some_2 s _ Hlt) as [x Hx].
  pose proof (span_len_stop _ s x Hx) as Hstop.
  apply negb_false_iff, Ascii.eqb_eq in Hstop. by subst.
Qed.

(** A place inside the string of a buffer. *)
Lemma string_at (pre s J : list ascii) k :
  k <= length s ->
  pre ++ s ++ NUL :: J = (pre ++ take k s) ++ drop k s ++ NUL :: J
  /\ length (pre ++ take k s) = length pre + k.
Proof.
  intros Hk. split.
  - rewrite <- app_assoc. f_equal. rewrite app_assoc. by rewrite take_drop.
  - rewrite length_app, length_take. lia.
Qed.

Lemma strchr_at (pre s J : list ascii) c :
  is_nul c = false -> Forall (fun x => is_nul x = false) s ->
  strchr (pre ++ s ++ NUL :: J) (length pre) c
  = (fun p => length pre + p) <$> find_char c s.
Proof.
  intros Hc Hs. rewrite <- (Nat.add_0_r (length pre)) at 1.
  rewrite strchr_shift, strchr_string by done. done.
Qed.

Lemma cut_at (pre s J : list ascii) k :
  k < length s ->
  <[length pre + k := NUL]> (pre ++ s ++ NUL :: J)
  = pre ++ take k s ++ NUL :: drop (S k) s ++ NUL :: J.
Proof.
  intros Hk. rewrite insert_shift. f_equal.
  rewrite insert_take_drop by (rewrite length_app; simpl; lia).
  rewrite take_app_le by lia. f_equal. f_equal.
  by rewrite drop_app_le by lia.
Qed.

(** [line_starts_with] reads the string only. *)
Lemma line_starts_with_at (pre s J : list ascii) k :
  Forall (fun x => is_nul x = false) s ->
  (line_starts_with (pre ++ s ++ NUL :: J) (length pre) k =? 0)%Z = starts_with k s.
Proof.
  intros Hs. unfold starts_with.
  rewrite <- (Nat.add_0_r (length pre)), line_starts_with_shift.
  unfold line_starts_with. cbv zeta. rewrite !drop_0.
  set (K := take _ (String.list_ascii_of_string k)).
  assert (HK : Forall (fun c => is_nul c = false) K).
  { unfold K. eapply List.Forall_impl; [|apply span_len_take].
    intros c Hc. simpl in Hc. by apply negb_true_iff. }
  assert (Heq : take (length K) (s ++ NUL :: J) = K <-> take (length K) (s ++ [NUL]) = K).
  { destruct (Nat.le_gt_cases (length K) (length s)) as [Hle|Hgt].
    - by rewrite !take_app_le by done.
    - split; intros H; exfalso.
      + assert (HN : K !! length s = Some NUL).
        { rewrite <- H, lookup_take_lt by lia. by rewrite list_lookup_middle. }
        pose proof (Forall_lookup_1 _ _ _ _ HK HN). done.
      + assert (HN : K !! length s = Some NUL).
        { rewrite <- H, lookup_take_lt by lia. by rewrite list_lookup_middle. }
        pose proof (Forall_lookup_1 _ _ _ _ HK HN). done. }
  destruct (bool_decide_reflect (take (length K) (s ++ NUL :: J) = K)) as [H|H];
    destruct (bool_decide_reflect (take (length K) (s ++ [NUL]) = K)) as [H'|H'];
    try done; exfalso; tauto.
Qed.

Section ScanFacts.

Variables PKGBUILD_DEPENDS PKGBUILD_MAKEDEPENDS : string.

Local Abbreviation get_loop := (pkgbuild_get_deps_loop PKGBUILD_DEPENDS PKGBUILD_MAKEDEPENDS).
Local Abbreviation scan := (scan_lines PKGBUILD_DEPENDS PKGBUILD_MAKEDEPENDS).

(** The loop on a buffer returns what the scan of the string at [bptr]
    returns, turn for turn. *)
Lemma get_loop_scan n :
  forall pre s J dl,
    Forall (fun x => is_nul x = false) s ->
    value_of (get_loop n (pre ++ s ++ NUL :: J) (length pre) dl) = scan n s dl.
Proof.
  induction n as [|n IH]; intros pre s J dl Hs; [done|].
  cbn [pkgbuild_get_deps_loop scan_lines].
  rewrite strchr_at by done.
  destruct (find_char newline s) as [i|] eqn:Hi; [|done].
  cbn [fmap option_fmap option_map].
  destruct (find_char_Some _ _ _ Hi) as [Hilt _].
  (* the line *)
  destruct (string_at pre s J (S i)) as [Hm Hlen]; [lia|].
  rewrite Hm. replace (S (length pre + i)) with (length (pre ++ take (S i) s))
    by (rewrite Hlen; lia).
  set (pre1 := pre ++ take (S i) s) in *.
  assert (Hs1 : Forall (fun x => is_nul x = false) (drop (S i) s)) by (by apply Forall_drop).
  destruct (strtrim_at pre1 (drop (S i) s) J Hs1) as (X & -> & _).
  set (line := trimmed (drop (S i) s)).
  assert (Hline : Forall (fun x => is_nul x = false) line) by (by apply trimmed_no_nul).
  rewrite !line_starts_with_at by done.
  destruct (negb (starts_with PKGBUILD_DEPENDS line)
            && negb (starts_with PKGBUILD_MAKEDEPENDS line)).
  - (* the line is skipped *)
    rewrite strchr_at by done.
    destruct (find_char newline line) as [j|] eqn:Hj; [|done].
    cbn [fmap option_fmap option_map].
    destruct (find_char_Some _ _ _ Hj) as [Hjlt _].
    destruct (string_at pre1 line (X ++ J) j) as [Hm1 Hlen1]; [lia|].
    rewrite Hm1, <- Hlen1. apply IH. by apply Forall_drop.
  - (* the line holds an array *)
    rewrite strchr_at by done.
    destruct (find_char ")" line) as [e|] eqn:He; [|done].
    cbn [fmap option_fmap option_map].
    destruct (find_char_Some _ _ _ He) as [Helt _].
    rewrite cut_at by done.
    assert (Htake : Forall (fun x => is_nul x = false) (take e line)) by (by apply Forall_take).
    rewrite strchr_at by done.
    destruct (find_char "(" (take e line)) as [p|] eqn:Hp; [|done].
    cbn [fmap option_fmap option_map].
    destruct (find_char_Some _ _ _ Hp) as [Hplt _].
    rewrite length_take in Hplt.
    set (rest := drop (S e) line ++ NUL :: X ++ J).
    destruct (string_at pre1 (take e line) rest (S p)) as [Hm2 Hlen2];
      [rewrite length_take; lia|].
    set (m2 := pre1 ++ take e line ++ NUL :: rest) in *.
    destruct (parse_bash_array_spec dl m2 (S (length pre1 + p)) true)
      as (m3 & Hrun & Hframe).
    rewrite Hrun.
    assert (Hbody : c_string (drop (S (length pre1 + p)) m2) = drop (S p) (take e line)).
    { rewrite Hm2.
      replace (S (length pre1 + p)) with (length (pre1 ++ take (S p) (take e line)))
        by (rewrite Hlen2; lia).
      rewrite drop_app_length. apply c_string_string. by apply Forall_drop. }
    rewrite Hbody.
    assert (Hlen3 : length m3 = length m2) by (by eapply parse_bash_array_length).
    assert (Hrest : drop (S (length pre1 + e)) m3 = rest).
    { rewrite Hframe.
      - unfold m2.
        replace (pre1 ++ take e line ++ NUL :: rest)
          with ((pre1 ++ take e line ++ [NUL]) ++ rest) by same_list.
        replace (S (length pre1 + e)) with (length (pre1 ++ take e line ++ [NUL])).
        + by rewrite drop_app_length.
        + rewrite !length_app, length_take. simpl. lia.
      - rewrite strlen_c_string, Hbody, length_drop, length_take. lia. }
    assert (Hm3 : m3 = take (S (length pre1 + e)) m3 ++ drop (S e) line ++ NUL :: X ++ J).
    { rewrite <- (take_drop (S (length pre1 + e)) m3) at 1. by rewrite Hrest. }
    assert (Hpre3 : length (take (S (length pre1 + e)) m3) = S (length pre1 + e)).
    { rewrite length_take, Hlen3. unfold m2.
      rewrite !length_app. cbn [length]. rewrite length_take. lia. }
    rewrite Hm3. rewrite <- Hpre3 at 2.
    apply IH. by apply Forall_drop.
Qed.

End ScanFacts.

(** X16.  [pkgbuild_get_deps] writes into the buffer it scans (the
    strings are trimmed in place, arrays and tokens are cut with NULs),
    yet what it returns is what the same steps return on strings that are
    values: the writes of one turn of the loop never change what a later
    turn reads.  The call never loops for ever. *)
Theorem pkgbuild_get_deps_is_a_function_of_the_text (D M : string) (text : string) :
  value_of (pkgbuild_get_deps D M (buffer_of text)) = dependencies_of_text D M text
  /\ dependencies_of_text D M text <> OutOfFuel.
Proof.
  assert (Heq : value_of (pkgbuild_get_deps D M (buffer_of text))
                = dependencies_of_text D M text).
  { unfold pkgbuild_get_deps, dependencies_of_text, buffer_of. cbv zeta.
    set (s := String.list_ascii_of_string text).
    rewrite length_app. cbn [length]. rewrite Nat.add_1_r.
    destruct (buffer_split s) as (J & HJ). rewrite HJ.
    apply (get_loop_scan D M _ [] (c_string s) J []), c_string_no_nul. }
  split; [done|].
  rewrite <- Heq. pose proof (get_deps_no_timeout D M (buffer_of text)) as Ht.
  by destruct (pkgbuild_get_deps D M (buffer_of text)) as [[dl m]| |].
Qed.

(** * depends.c: recipes of several lines and arrays *)

(** ** Strings without their trailing whitespace *)

Lemma Forall_is_blank W : Forall (fun c => isspace c = true) W -> is_blank W = true.
Proof.
  induction 1 as [|c W Hc _ IH]; [done|].
  unfold is_blank in *. cbn [forallb]. by rewrite Hc, IH.
Qed.

Lemma is_blank_app A B : is_blank (A ++ B) = is_blank A && is_blank B.
Proof. apply forallb_app. Qed.

Lemma is_blank_rev A : is_blank (rev A) = is_blank A.
Proof.
  induction A as [|c A IH]; [done|].
  cbn [rev]. rewrite is_blank_app, IH. unfold is_blank. cbn [forallb].
  rewrite andb_true_r. apply andb_comm.
Qed.

Lemma wts_blank_tail A B :
  is_blank B = true -> without_trailing_space (A ++ B) = without_trailing_space A.
Proof.
  intros HB. unfold without_trailing_space.
  rewrite rev_app_distr, span_len_app_all.
  2:{ apply forallb_Forall_true. by rewrite is_blank_rev. }
  rewrite length_rev, length_app.
  pose proof (span_len_le isspace (rev A)) as Hle. rewrite length_rev in Hle.
  replace (length A + length B - (length B + span_len isspace (rev A)))
    with (length A - span_len isspace (rev A)) by lia.
  by rewrite take_app_le by lia.
Qed.

Lemma wts_blank B : is_blank B = true -> without_trailing_space B = [].
Proof. intros HB. by rewrite <- (app_nil_l B), wts_blank_tail. Qed.

Lemma wts_nonspace A c Z :
  isspace c = false ->
  without_trailing_space (A ++ c :: Z) = A ++ c :: without_trailing_space Z.
Proof.
  intros Hc. unfold without_trailing_space.
  rewrite rev_app_distr. cbn [rev]. rewrite <- app_assoc. cbn [app].
  rewrite (span_len_app_stop_at isspace (rev Z) (rev A) c Hc).
  pose proof (span_len_le isspace (rev Z)) as Hle. rewrite length_rev in Hle.
  rewrite length_app. cbn [length].
  set (b := span_len isspace (rev Z)) in *.
  rewrite take_app_ge by lia.
  replace (length A + S (length Z) - b - length A) with (S (length Z - b)) by lia.
  done.
Qed.

Lemma nonblank_split R :
  is_blank R = false ->
  exists W c Z, R = W ++ c :: Z /\ is_blank W = true /\ isspace c = false.
Proof.
  intros HR.
  destruct (span_split isspace R) as (W & r & -> & _ & HW & Hr).
  destruct r as [|c Z].
  - rewrite app_nil_r in HR. by rewrite (Forall_is_blank W HW) in HR.
  - exists W, c, Z. split_and!; [done|by apply Forall_is_blank|by apply Hr].
Qed.

Lemma wts_idem Z :
  without_trailing_space (without_trailing_space Z) = without_trailing_space Z.
Proof.
  destruct (is_blank Z) eqn:HZ.
  { by rewrite (wts_blank Z HZ). }
  rewrite <- is_blank_rev in HZ.
  destruct (nonblank_split _ HZ) as (W & c & Y & Hrev & HW & Hc).
  assert (HZeq : Z = rev Y ++ c :: rev W).
  { rewrite <- (rev_involutive Z), Hrev, rev_app_distr. cbn [rev].
    by rewrite <- app_assoc. }
  rewrite HZeq, wts_nonspace by done.
  rewrite (wts_blank (rev W)) by (by rewrite is_blank_rev).
  by rewrite wts_nonspace.
Qed.

Lemma wts_prefix y : exists tail, y = without_trailing_space y ++ tail.
Proof.
  exists (drop (length y - span_len isspace (rev y)) y).
  unfold without_trailing_space. by rewrite take_drop.
Qed.

Lemma trimmed_indent W y : is_blank W = true -> trimmed (W ++ y) = trimmed y.
Proof.
  intros HW%forallb_Forall_true. unfold trimmed.
  rewrite span_len_app_all by done.
  by rewrite drop_app_add.
Qed.

Lemma trimmed_head c Z :
  isspace c = false -> trimmed (c :: Z) = without_trailing_space (c :: Z).
Proof. intros Hc. unfold trimmed. cbn [span_len]. by rewrite Hc. Qed.

Lemma trimmed_start y Z :
  y <> [] -> isspace (peek y 0) = false ->
  trimmed (y ++ Z) = without_trailing_space (y ++ Z).
Proof. intros Hne Hy. destruct y as [|c y]; [done|]. by apply trimmed_head. Qed.

Lemma trimmed_wts R : trimmed (without_trailing_space R) = trimmed R.
Proof.
  destruct (is_blank R) eqn:HR.
  { by rewrite (wts_blank R HR), (trimmed_blank R HR). }
  destruct (nonblank_split _ HR) as (W & c & Z & -> & HW & Hc).
  rewrite wts_nonspace by done.
  rewrite !trimmed_indent by done.
  rewrite !trimmed_head by done.
  rewrite <- (app_nil_l (c :: without_trailing_space Z)), wts_nonspace by done.
  rewrite <- (app_nil_l (c :: Z)), wts_nonspace by done.
  by rewrite wts_idem.
Qed.

(** The end of a line and what follows it. *)
Lemma wts_line_tail Z R :
  without_trailing_space (Z ++ newline :: R)
  = if is_blank R then without_trailing_space Z
    else Z ++ newline :: without_trailing_space R.
Proof.
  destruct (is_blank R) eqn:HR.
  - apply wts_blank_tail. unfold is_blank in *. cbn [forallb]. by rewrite HR.
  - destruct (nonblank_split _ HR) as (W & c & Y & -> & HW & Hc).
    replace (Z ++ newline :: W ++ c :: Y) with ((Z ++ newline :: W) ++ c :: Y)
      by same_list.
    rewrite !wts_nonspace by done. same_list.
Qed.

(** ** Searches in strings *)

Lemma find_char_here c (A Z : list ascii) :
  Forall (fun x => negb (Ascii.eqb x c) = true) A ->
  find_char c (A ++ c :: Z) = Some (length A).
Proof.
  intros HA. unfold find_char. cbv zeta.
  rewrite (span_len_app_stop _ A c Z HA) by (by rewrite Ascii.eqb_refl).
  rewrite length_app. cbn [length].
  by replace (length A <? length A + S (length Z)) with true
    by (symmetry; apply Nat.ltb_lt; lia).
Qed.

Lemma find_char_head c (Z : list ascii) : find_char c (c :: Z) = Some 0.
Proof. exact (find_char_here c [] Z (Forall_nil _)). Qed.

Lemma find_char_none c (A : list ascii) :
  Forall (fun x => negb (Ascii.eqb x c) = true) A -> find_char c A = None.
Proof.
  intros HA. unfold find_char. cbv zeta. rewrite span_len_all by done.
  by rewrite Nat.ltb_irrefl.
Qed.

Lemma Forall_wts (P : ascii -> Prop) y :
  Forall P y -> Forall P (without_trailing_space y).
Proof. intros H. by apply Forall_take. Qed.

(** ** Keywords at the start of a string *)

Lemma starts_with_true k s :
  Forall (fun c => is_nul c = false) (String.list_ascii_of_string k) ->
  starts_with k s = true <-> exists r, s = String.list_ascii_of_string k ++ r.
Proof.
  intros HK. unfold starts_with, line_starts_with. cbv zeta.
  set (KL := String.list_ascii_of_string k) in *.
  assert (Hcut : take (span_len (fun c => negb (is_nul c)) KL) KL = KL).
  { rewrite span_len_all; [by rewrite firstn_all|].
    eapply List.Forall_impl; [|exact HK]. intros c Hc. simpl in Hc. by rewrite Hc. }
  rewrite Hcut, drop_0.
  destruct (bool_decide_reflect (take (length KL) (s ++ [NUL]) = KL)) as [H|H].
  - split; [intros _|done].
    destruct (Nat.le_gt_cases (length KL) (length s)) as [Hle|Hgt].
    + rewrite take_app_le in H by done.
      exists (drop (length KL) s). by rewrite <- H at 1; rewrite take_drop.
    + exfalso.
      assert (HN : KL !! length s = Some NUL).
      { rewrite <- H, lookup_take_lt by lia. by rewrite list_lookup_middle. }
      pose proof (Forall_lookup_1 _ _ _ _ HK HN). done.
  - split; [done|]. intros (r & ->). exfalso. apply H.
    by rewrite <- app_assoc, take_app_length.
Qed.

Lemma starts_with_false_nil k :
  String.list_ascii_of_string k <> [] ->
  Forall (fun c => is_nul c = false) (String.list_ascii_of_string k) ->
  starts_with k [] = false.
Proof.
  intros Hne HK. destruct (starts_with k []) eqn:H; [|done].
  apply starts_with_true in H as (r & Hr); [|done].
  symmetry in Hr. apply app_eq_nil in Hr as [Hr _]. done.
Qed.

(** A keyword without a newline starts a line and what follows it only
    if it starts the line. *)
Lemma starts_with_line k text R :
  Forall (fun c => is_nul c = false) (String.list_ascii_of_string k) ->
  no_newline (String.list_ascii_of_string k) = true ->
  starts_with k text = false ->
  starts_with k (without_trailing_space (text ++ newline :: R)) = false.
Proof.
  intros HK Hnl Htext.
  destruct (starts_with k (without_trailing_space (text ++ newline :: R))) eqn:H; [|done].
  exfalso. apply starts_with_true in H as (r & Hr); [|done].
  destruct (wts_prefix (text ++ newline :: R)) as (tail & Htail).
  rewrite Hr, <- app_assoc in Htail.
  set (KL := String.list_ascii_of_string k) in *.
  destruct (Nat.le_gt_cases (length KL) (length text)) as [Hle|Hgt].
  - assert (Hpre : take (length KL) text = KL).
    { pose proof (f_equal (take (length KL)) Htail) as Ht.
      rewrite take_app_le in Ht by done. by rewrite take_app_length in Ht. }
    assert (starts_with k text = true); [|congruence].
    apply starts_with_true; [done|].
    exists (drop (length KL) text). fold KL. by rewrite <- Hpre at 1; rewrite take_drop.
  - assert (Hn : KL !! length text = Some newline).
    { pose proof (f_equal (fun l => l !! length text) Htail) as Ht. cbn beta in Ht.
      rewrite list_lookup_middle in Ht by done.
      rewrite lookup_app_l in Ht by done. done. }
    apply no_newline_Forall in Hnl.
    pose proof (Forall_lookup_1 _ _ _ _ Hnl Hn) as Hbad. done.
Qed.

(** ** The scan of the pieces of a recipe *)

Section RecipeItems.

Variables D M : string.

Hypothesis D_keyword : is_keyword D = true.
Hypothesis M_keyword : is_keyword M = true.
Hypothesis D_line : no_newline (String.list_ascii_of_string D) = true.
Hypothesis M_line : no_newline (String.list_ascii_of_string M) = true.

Local Abbreviation scan := (scan_lines D M).

Lemma keyword_no_nul k :
  is_keyword k = true -> Forall (fun c => is_nul c = false) (String.list_ascii_of_string k).
Proof.
  intros (K0 & -> & HK0 & _)%is_keyword_shape.
  apply Forall_app. split; [|by constructor].
  eapply List.Forall_impl; [|exact HK0]. by intros c (_ & _ & Hc).
Qed.

Lemma keyword_not_nil k : is_keyword k = true -> String.list_ascii_of_string k <> [].
Proof. intros (K0 & -> & _)%is_keyword_shape. by destruct K0. Qed.

(** The turn of the loop that starts at a newline. *)
Lemma scan_trimmed f x y dl :
  trimmed x = trimmed y -> scan (S f) (newline :: x) dl = scan (S f) (newline :: y) dl.
Proof.
  intros H. cbn [scan_lines].
  rewrite (find_char_head newline x), (find_char_head newline y).
  cbn [length drop]. by rewrite !drop_0, H.
Qed.

Lemma scan_rest_of_line f Z y dl :
  Forall (fun x => negb (Ascii.eqb x newline) = true) Z ->
  scan (S f) (Z ++ newline :: y) dl = scan (S f) (newline :: y) dl.
Proof.
  intros HZ. cbn [scan_lines].
  rewrite (find_char_here newline Z y HZ), (find_char_head newline y).
  cbn [length drop]. rewrite drop_0.
  replace (drop (S (length Z)) (Z ++ newline :: y)) with y; [done|].
  replace (Z ++ newline :: y) with ((Z ++ [newline]) ++ y) by same_list.
  rewrite drop_app_length'; [done|]. rewrite length_app. simpl. lia.
Qed.

Lemma scan_newline_eq f x dl :
  scan (S f) (newline :: x) dl
  = let line := trimmed x in
    if negb (starts_with D line) && negb (starts_with M line)
    then
      match find_char newline line with
      | None => Done dl
      | Some j => scan f (drop j line) dl
      end
    else
      match find_char ")" line with
      | None => Crash
      | Some e =>
          match find_char "(" (take e line) with
          | None => Crash
          | Some p =>
              scan f (drop (S e) line)
                (extract_names true dl (drop (S p) (take e line)))
          end
      end.
Proof.
  cbn [scan_lines].
  rewrite (find_char_head newline x).
  cbn [length drop]. by rewrite drop_0.
Qed.

Lemma scan_blank f R dl : is_blank R = true -> scan (S f) (newline :: R) dl = Done dl.
Proof.
  intros HR. cbn [scan_lines].
  rewrite (find_char_head newline R).
  cbn [length drop]. rewrite drop_0, (trimmed_blank R HR).
  rewrite !starts_with_false_nil
    by (apply keyword_not_nil || apply keyword_no_nul; done).
  done.
Qed.

(** What follows the closing parenthesis of an array, up to the end of
    its line, is skipped. *)
Lemma scan_after_array f comment R dl :
  Forall (fun x => negb (Ascii.eqb x newline) = true) comment ->
  scan (S f) (without_trailing_space (comment ++ newline :: R)) dl
  = scan (S f) (newline :: R) dl.
Proof.
  intros Hc. rewrite wts_line_tail.
  destruct (is_blank R) eqn:HR.
  - rewrite scan_blank by done. cbn [scan_lines].
    by rewrite find_char_none by (by apply Forall_wts).
  - rewrite scan_rest_of_line by done.
    apply scan_trimmed, trimmed_wts.
Qed.

(** The end of a line that is no array. *)
Lemma scan_after_line f text R dl :
  Forall (fun x => negb (Ascii.eqb x newline) = true) text ->
  match find_char newline (without_trailing_space (text ++ newline :: R)) with
  | None => Done dl
  | Some j => scan (S f) (drop j (without_trailing_space (text ++ newline :: R))) dl
  end
  = scan (S f) (newline :: R) dl.
Proof.
  intros Ht. rewrite wts_line_tail.
  destruct (is_blank R) eqn:HR.
  - rewrite scan_blank by done.
    by rewrite find_char_none by (by apply Forall_wts).
  - rewrite (find_char_here newline text _ Ht), drop_app_length.
    apply scan_trimmed, trimmed_wts.
Qed.

Lemma free_of_nl_Forall s :
  free_of nl s = true ->
  Forall (fun c => is_nul c = false) s
  /\ Forall (fun x => negb (Ascii.eqb x newline) = true) s.
Proof.
  intros H. split; [by eapply free_of_no_nul|].
  by apply (free_of_span nl).
Qed.

(** One piece of a recipe takes one turn of the loop after the one that
    ends it. *)
Lemma scan_item f it R dl :
  item_ok D M it = true ->
  scan (S (S f)) (newline :: render_item it ++ R) dl
  = scan (S f) (newline :: R) (names_of_items [it] dl).
Proof.
  intros Hok.
  pose proof (keyword_no_nul D D_keyword) as HDn.
  pose proof (keyword_no_nul M M_keyword) as HMn.
  destruct it as [indent text|indent kw body comment]; cbn [item_ok] in Hok.
  - (* a line that is no array *)
    apply andb_true_iff in Hok as [Hok HnM]. apply andb_true_iff in Hok as [Hok HnD].
    apply andb_true_iff in Hok as [Hok Hfree]. apply andb_true_iff in Hok as [Hok Hsp].
    apply andb_true_iff in Hok as [Hind Hlen].
    apply negb_true_iff in HnM, HnD, Hsp, Hlen. apply Nat.eqb_neq in Hlen.
    destruct (free_of_nl_Forall _ Hfree) as [Htn Htl].
    assert (Htne : text <> []) by (by destruct text).
    cbn [names_of_items fold_left render_item].
    rewrite (scan_newline_eq (S f) ((indent ++ text ++ [newline]) ++ R)). cbv zeta.
    assert (Hline : trimmed ((indent ++ text ++ [newline]) ++ R)
                    = without_trailing_space (text ++ newline :: R)).
    { replace ((indent ++ text ++ [newline]) ++ R) with (indent ++ text ++ newline :: R)
        by same_list.
      rewrite trimmed_indent by done. by apply trimmed_start. }
    rewrite Hline.
    rewrite (starts_with_line D text R HDn D_line HnD).
    rewrite (starts_with_line M text R HMn M_line HnM).
    cbn [negb andb].
    by apply scan_after_line.
  - (* an array *)
    apply andb_true_iff in Hok as [Hok Hcomment]. apply andb_true_iff in Hok as [Hok Hbody].
    apply andb_true_iff in Hok as [Hind Hkw].
    destruct (free_of_nl_Forall _ Hcomment) as [Hcn Hcl].
    pose proof (free_of_no_nul _ _ Hbody) as Hbn.
    pose proof (free_of_span ")" body ")" Hbody eq_refl) as Hbc.
    assert (Hkey : is_keyword kw = true /\ (kw = D \/ kw = M)).
    { apply orb_true_iff in Hkw as [->%String.eqb_eq| ->%String.eqb_eq]; auto. }
    destruct Hkey as [Hkey Hwhich].
    destruct (is_keyword_shape kw Hkey) as (K0 & HK & HK0 & Hhead).
    cbn [names_of_items fold_left render_item]. rewrite HK.
    rewrite (scan_newline_eq (S f)
               ((indent ++ (K0 ++ ["("%char]) ++ body ++ ")"%char :: comment ++ [newline])
                ++ R)).
    cbv zeta.
    set (tail := without_trailing_space (comment ++ newline :: R)).
    assert (Hline : trimmed ((indent ++ (K0 ++ ["("%char]) ++ body
                              ++ ")"%char :: comment ++ [newline]) ++ R)
                    = (K0 ++ ["("%char]) ++ body ++ ")"%char :: tail).
    { replace ((indent ++ (K0 ++ ["("%char]) ++ body ++ ")"%char :: comment ++ [newline])
               ++ R)
        with (indent ++ ((K0 ++ ["("%char]) ++ body) ++ ")"%char :: comment ++ newline :: R)
        by same_list.
      rewrite trimmed_indent by done.
      rewrite <- app_assoc, trimmed_start, app_assoc by (done || by destruct K0).
      rewrite wts_nonspace by done. unfold tail. same_list. }
    rewrite Hline.
    assert (Hstart : negb (starts_with D ((K0 ++ ["("%char]) ++ body ++ ")"%char :: tail))
                     && negb (starts_with M ((K0 ++ ["("%char]) ++ body ++ ")"%char :: tail))
                     = false).
    { destruct Hwhich as [<-|<-].
      - replace (starts_with kw _) with true; [done|].
        symmetry. apply starts_with_true; [done|]. rewrite HK. eauto.
      - replace (starts_with kw _) with true; [by rewrite andb_false_r|].
        symmetry. apply starts_with_true; [done|]. rewrite HK. eauto. }
    rewrite Hstart.
    assert (Hclose : find_char ")" ((K0 ++ ["("%char]) ++ body ++ ")"%char :: tail)
                     = Some (length ((K0 ++ ["("%char]) ++ body))).
    { rewrite app_assoc. apply find_char_here.
      apply Forall_app. split; [|done].
      apply Forall_app. split; [|by constructor].
      eapply List.Forall_impl; [|exact HK0]. intros x (_ & Hx & _). by rewrite Hx. }
    rewrite Hclose.
    assert (Htake : take (length ((K0 ++ ["("%char]) ++ body))
                      ((K0 ++ ["("%char]) ++ body ++ ")"%char :: tail)
                    = (K0 ++ ["("%char]) ++ body).
    { by rewrite app_assoc, take_app_length. }
    rewrite Htake.
    assert (Hopen : find_char "(" ((K0 ++ ["("%char]) ++ body) = Some (length K0)).
    { rewrite <- app_assoc. apply find_char_here.
      eapply List.Forall_impl; [|exact HK0]. intros x (Hx & _). by rewrite Hx. }
    rewrite Hopen.
    assert (Hbody' : drop (S (length K0)) ((K0 ++ ["("%char]) ++ body) = body).
    { rewrite drop_app_length'; [done|]. rewrite length_app. simpl. lia. }
    rewrite Hbody'.
    assert (Hrest : drop (S (length ((K0 ++ ["("%char]) ++ body)))
                      ((K0 ++ ["("%char]) ++ body ++ ")"%char :: tail) = tail).
    { replace ((K0 ++ ["("%char]) ++ body ++ ")"%char :: tail)
        with ((((K0 ++ ["("%char]) ++ body) ++ [")"%char]) ++ tail) by same_list.
      rewrite drop_app_length'; [done|]. rewrite (length_app _ [")"%char]). simpl. lia. }
    rewrite Hrest. unfold tail.
    by apply scan_after_array.
Qed.

Lemma scan_items items :
  forall f dl R,
    length items <= f ->
    forallb (item_ok D M) items = true -> is_blank R = true ->
    scan (S f) (newline :: render_items items ++ R) dl = Done (names_of_items items dl).
Proof.
  induction items as [|it items IH]; intros f dl R Hf Hok HR.
  { by apply scan_blank. }
  cbn [forallb] in Hok. apply andb_true_iff in Hok as [Hit Hok].
  destruct f as [|f]; [simpl in Hf; lia|].
  change (render_items (it :: items)) with (render_item it ++ render_items items).
  rewrite <- app_assoc, (scan_item f it _ dl Hit).
  rewrite IH; [done|simpl in Hf; lia|done|done].
Qed.

End RecipeItems.

Lemma render_items_no_nul D M items :
  is_keyword D = true -> is_keyword M = true ->
  forallb (item_ok D M) items = true ->
  Forall (fun c => is_nul c = false) (render_items items).
Proof.
  intros HD HM. induction items as [|it items IH]; [constructor|].
  cbn [forallb]. intros [Hit Hok]%andb_true_iff.
  change (render_items (it :: items)) with (render_item it ++ render_items items).
  apply Forall_app. split; [|by apply IH].
  destruct it as [indent text|indent kw body comment]; cbn [item_ok render_item] in *.
  - apply andb_true_iff in Hit as [Hit _]. apply andb_true_iff in Hit as [Hit _].
    apply andb_true_iff in Hit as [Hit Hfree]. apply andb_true_iff in Hit as [Hit _].
    apply andb_true_iff in Hit as [Hind _].
    apply Forall_app. split; [by apply blank_no_nul|].
    apply Forall_app. split; [by eapply free_of_no_nul|by constructor].
  - apply andb_true_iff in Hit as [Hit Hcomment]. apply andb_true_iff in Hit as [Hit Hbody].
    apply andb_true_iff in Hit as [Hind Hkw].
    assert (Hkey : is_keyword kw = true).
    { apply orb_true_iff in Hkw as [->%String.eqb_eq| ->%String.eqb_eq]; auto. }
    apply Forall_app. split; [by apply blank_no_nul|].
    apply Forall_app. split; [by apply keyword_no_nul|].
    apply Forall_app. split; [by eapply free_of_no_nul|].
    constructor; [done|].
    apply Forall_app. split; [by eapply free_of_no_nul|by constructor].
Qed.

Lemma render_items_length items : length items <= length (render_items items).
Proof.
  induction items as [|it items IH]; [done|].
  change (render_items (it :: items)) with (render_item it ++ render_items items).
  rewrite length_app. cbn [length].
  assert (1 <= length (render_item it)); [|lia].
  destruct it; cbn [render_item]; rewrite !length_app; cbn [length];
    rewrite ?length_app; cbn [length]; lia.
Qed.

Lemma get_deps_of_recipe (D M : string) (first : list ascii)
    (items : list recipe_item) (Wend : list ascii) :
  is_keyword D = true -> is_keyword M = true ->
  no_newline (String.list_ascii_of_string D) = true ->
  no_newline (String.list_ascii_of_string M) = true ->
  free_of nl first = true ->
  forallb (item_ok D M) items = true -> is_blank Wend = true ->
  value_of (pkgbuild_get_deps D M
              (buffer_of (String.string_of_list_ascii
                            (first ++ newline :: render_items items ++ Wend))))
  = Done (names_of_items items []).
Proof.
  intros HD HM HDl HMl Hfirst Hitems Hend.
  destruct (free_of_nl_Forall _ Hfirst) as [Hfn Hfl].
  unfold buffer_of. rewrite String.list_ascii_of_string_of_list_ascii.
  set (s := first ++ newline :: render_items items ++ Wend).
  assert (Hs : Forall (fun c => is_nul c = false) s).
  { unfold s. apply Forall_app. split; [done|]. constructor; [done|].
    apply Forall_app.
    split; [exact (render_items_no_nul D M items HD HM Hitems)|by apply blank_no_nul]. }
  unfold pkgbuild_get_deps.
  pose proof (get_loop_scan D M (S (length (s ++ [NUL]))) [] s [] [] Hs) as Hscan.
  cbn [app length] in Hscan. rewrite Hscan. unfold s.
  rewrite (scan_rest_of_line D M _ first _ [] Hfl).
  apply scan_items; try done.
  rewrite !length_app. cbn [length]. rewrite length_app.
  pose proof (render_items_length items). lia.
Qed.

(** X17.  A recipe made of a first line and of any number of pieces,
    each a line that starts with no keyword or an array of one of the two
    keywords (indented or not, after blank lines or not, with a body that
    may run over several lines and anything but a newline after its
    closing parenthesis), and that ends with whitespace:
    [pkgbuild_get_deps] returns the names of all the arrays, those of
    [depends] and of [makedepends] merged in one list in the order of the
    recipe, each name once; the other lines add nothing. *)
Theorem recipe_arrays_accumulate (D M : string) (first : list ascii)
    (items : list recipe_item) (Wend : list ascii) :
  is_keyword D = true -> is_keyword M = true ->
  no_newline (String.list_ascii_of_string D) = true ->
  no_newline (String.list_ascii_of_string M) = true ->
  free_of nl first = true ->
  forallb (item_ok D M) items = true -> is_blank Wend = true ->
  value_of (pkgbuild_get_deps D M
              (buffer_of (String.string_of_list_ascii
                            (first ++ newline :: render_items items ++ Wend))))
  = Done (names_of_items items []).
Proof. apply get_deps_of_recipe. Qed.

Lemma recipe_arrays_accumulate_witness :
  value_of
    (pkgbuild_get_deps "depends=(" "makedepends=("
       (buffer_of
          (String.string_of_list_ascii
             (String.list_ascii_of_string "pkgname=foo"
              ++ newline
                 :: render_items
                      [OtherLine [] (String.list_ascii_of_string "pkgver=1");
                       ArrayLine [] "depends=("
                         (String.list_ascii_of_string "'a' 'b>=1'")
                         (String.list_ascii_of_string " # runtime");
                       OtherLine [newline] (String.list_ascii_of_string "url=x");
                       ArrayLine (String.list_ascii_of_string "  ") "makedepends=("
                         (String.list_ascii_of_string "c" ++ newline
                            :: String.list_ascii_of_string "   a")
                         []]
              ++ [newline]))))
  = Done ["a"; "b"; "c"]%string.
Proof.
  apply (recipe_arrays_accumulate "depends=(" "makedepends=("
           (String.list_ascii_of_string "pkgname=foo")
           [OtherLine [] (String.list_ascii_of_string "pkgver=1");
            ArrayLine [] "depends=("
              (String.list_ascii_of_string "'a' 'b>=1'")
              (String.list_ascii_of_string " # runtime");
            OtherLine [newline] (String.list_ascii_of_string "url=x");
            ArrayLine (String.list_ascii_of_string "  ") "makedepends=("
              (String.list_ascii_of_string "c" ++ newline
                 :: String.list_ascii_of_string "   a")
              []]
           [newline]); vm_compute; reflexivity.
Defined.

(** Pieces of a recipe followed by anything. *)
Lemma scan_items_then (D M : string) items :
  is_keyword D = true -> is_keyword M = true ->
  no_newline (String.list_ascii_of_string D) = true ->
  no_newline (String.list_ascii_of_string M) = true ->
  forall f dl R,
    forallb (item_ok D M) items = true ->
    scan_lines D M (S (length items + f)) (newline :: render_items items ++ R) dl
    = scan_lines D M (S f) (newline :: R) (names_of_items items dl).
Proof.
  intros HD HM HDl HMl.
  induction items as [|it items IH]; intros f dl R Hok; [done|].
  cbn [forallb] in Hok. apply andb_true_iff in Hok as [Hit Hok].
  change (render_items (it :: items)) with (render_item it ++ render_items items).
  cbn [length Nat.add].
  rewrite <- app_assoc, (scan_item D M HD HM HDl HMl (length items + f) it _ dl Hit).
  by rewrite IH.
Qed.

(** X24.  An array that is never closed makes [pkgbuild_get_deps] write
    through a NULL pointer, whatever precedes it in the recipe (lines,
    arrays that are closed) and whatever follows its keyword, provided
    that no [)] follows: the names read before are lost with it. *)
Theorem unclosed_array_faults (D M : string) (first : list ascii)
    (items : list recipe_item) (indent : list ascii) (keyword : string)
    (rest : list ascii) :
  is_keyword D = true -> is_keyword M = true ->
  no_newline (String.list_ascii_of_string D) = true ->
  no_newline (String.list_ascii_of_string M) = true ->
  free_of nl first = true ->
  forallb (item_ok D M) items = true -> is_blank indent = true ->
  String.eqb keyword D || String.eqb keyword M = true ->
  free_of ")" rest = true ->
  pkgbuild_get_deps D M
    (buffer_of (String.string_of_list_ascii
                  (first ++ newline :: render_items items
                   ++ indent ++ String.list_ascii_of_string keyword ++ rest)))
  = Crash.
Proof.
  intros HD HM HDl HMl Hfirst Hitems Hind Hkw Hrest.
  destruct (free_of_nl_Forall _ Hfirst) as [Hfn Hfl].
  pose proof (free_of_no_nul _ _ Hrest) as Hrn.
  pose proof (free_of_span ")" rest ")" Hrest eq_refl) as Hrc.
  assert (Hkey : is_keyword keyword = true /\ (keyword = D \/ keyword = M)).
  { apply orb_true_iff in Hkw as [->%String.eqb_eq| ->%String.eqb_eq]; auto. }
  destruct Hkey as [Hkey Hwhich].
  destruct (is_keyword_shape keyword Hkey) as (K0 & HK & HK0 & Hhead).
  unfold buffer_of. rewrite String.list_ascii_of_string_of_list_ascii.
  set (R := indent ++ String.list_ascii_of_string keyword ++ rest).
  set (s := first ++ newline :: render_items items ++ R).
  assert (Hs : Forall (fun c => is_nul c = false) s).
  { unfold s, R. apply Forall_app. split; [done|]. constructor; [done|].
    apply Forall_app. split; [exact (render_items_no_nul D M items HD HM Hitems)|].
    apply Forall_app. split; [by apply blank_no_nul|].
    apply Forall_app. split; [by apply keyword_no_nul|done]. }
  enough (Hv : value_of (pkgbuild_get_deps D M (s ++ [NUL])) = Crash).
  { by destruct (pkgbuild_get_deps D M (s ++ [NUL])) as [[dl m]| |]. }
  unfold pkgbuild_get_deps.
  pose proof (get_loop_scan D M (S (length (s ++ [NUL]))) [] s [] [] Hs) as Hscan.
  cbn [app length] in Hscan. rewrite Hscan. unfold s.
  rewrite (scan_rest_of_line D M _ first _ [] Hfl).
  assert (Hfuel : exists f, length (first ++ newline :: render_items items ++ R) + 1
                            = length items + S f).
  { exists (length first + (length (render_items items) - length items) + length R + 1).
    rewrite !length_app. cbn [length]. rewrite length_app.
    pose proof (render_items_length items). lia. }
  destruct Hfuel as (f & Hf). rewrite length_app. cbn [length]. rewrite Hf.
  rewrite (scan_items_then D M items HD HM HDl HMl (S f) [] R Hitems).
  rewrite (scan_newline_eq D M (S f) R). cbv zeta.
  set (tail := without_trailing_space rest).
  assert (Hline : trimmed R = (K0 ++ ["("%char]) ++ tail).
  { unfold R. rewrite trimmed_indent by done. rewrite HK.
    rewrite trimmed_start by (done || by destruct K0).
    rewrite <- app_assoc. cbn [app]. rewrite wts_nonspace by done.
    unfold tail. same_list. }
  rewrite Hline.
  assert (Hstart : negb (starts_with D ((K0 ++ ["("%char]) ++ tail))
                   && negb (starts_with M ((K0 ++ ["("%char]) ++ tail)) = false).
  { pose proof (keyword_no_nul keyword Hkey) as Hkn.
    destruct Hwhich as [<-|<-].
    - replace (starts_with keyword _) with true; [done|].
      symmetry. apply starts_with_true; [done|]. rewrite HK. eauto.
    - replace (starts_with keyword _) with true; [by rewrite andb_false_r|].
      symmetry. apply starts_with_true; [done|]. rewrite HK. eauto. }
  rewrite Hstart.
  rewrite find_char_none; [done|].
  apply Forall_app. split.
  - apply Forall_app. split; [|by constructor].
    eapply List.Forall_impl; [|exact HK0]. intros x (_ & Hx & _). by rewrite Hx.
  - by apply Forall_wts.
Qed.

Lemma unclosed_array_faults_witness :
  pkgbuild_get_deps "depends=(" "makedepends=("
    (buffer_of
       (String.string_of_list_ascii
          (String.list_ascii_of_string "pkgname=foo"
           ++ newline
              :: render_items
                   [ArrayLine [] "depends=(" (String.list_ascii_of_string "a b") []]
           ++ String.list_ascii_of_string "  "
           ++ String.list_ascii_of_string "makedepends=("
           ++ String.list_ascii_of_string "c d" ++ [newline])))
  = Crash.
Proof.
  apply (unclosed_array_faults "depends=(" "makedepends=("
           (String.list_ascii_of_string "pkgname=foo")
           [ArrayLine [] "depends=(" (String.list_ascii_of_string "a b") []]
           (String.list_ascii_of_string "  ") "makedepends=("
           (String.list_ascii_of_string "c d" ++ [newline])); vm_compute; reflexivity.
Defined.

(** * depends.c: the three lists of a recipe *)

Section FieldFacts.

Variables PKGBUILD_DEPENDS PKGBUILD_MAKEDEPENDS PKGBUILD_OPTDEPENDS : string.

Local Abbreviation pop_loop :=
  (populate_pkg_deps_loop PKGBUILD_DEPENDS PKGBUILD_MAKEDEPENDS PKGBUILD_OPTDEPENDS).
Local Abbreviation scan :=
  (scan_fields PKGBUILD_DEPENDS PKGBUILD_MAKEDEPENDS PKGBUILD_OPTDEPENDS).

Lemma select_field_at (pre s J : list ascii) :
  Forall (fun x => is_nul x = false) s ->
  select_field PKGBUILD_DEPENDS PKGBUILD_MAKEDEPENDS PKGBUILD_OPTDEPENDS
    (pre ++ s ++ NUL :: J) (length pre)
  = field_of_line PKGBUILD_DEPENDS PKGBUILD_MAKEDEPENDS PKGBUILD_OPTDEPENDS s.
Proof.
  intros Hs. unfold select_field, field_of_line.
  by rewrite !line_starts_with_at.
Qed.

(** The loop on a buffer returns what the scan of the string at [bptr]
    returns, turn for turn. *)
Lemma pop_loop_scan n :
  forall pre s J pkg,
    Forall (fun x => is_nul x = false) s ->
    value_of (pop_loop n (pre ++ s ++ NUL :: J) (length pre) pkg) = scan n s pkg.
Proof.
  induction n as [|n IH]; intros pre s J pkg Hs; [done|].
  cbn [populate_pkg_deps_loop scan_fields].
  rewrite strchr_at by done.
  destruct (find_char newline s) as [i|] eqn:Hi; [|done].
  cbn [fmap option_fmap option_map].
  destruct (find_char_Some _ _ _ Hi) as [Hilt _].
  destruct (string_at pre s J (S i)) as [Hm Hlen]; [lia|].
  rewrite Hm. replace (S (length pre + i)) with (length (pre ++ take (S i) s))
    by (rewrite Hlen; lia).
  set (pre1 := pre ++ take (S i) s) in *.
  assert (Hs1 : Forall (fun x => is_nul x = false) (drop (S i) s)) by (by apply Forall_drop).
  destruct (strtrim_at pre1 (drop (S i) s) J Hs1) as (X & -> & _).
  set (line := trimmed (drop (S i) s)).
  assert (Hline : Forall (fun x => is_nul x = false) line) by (by apply trimmed_no_nul).
  rewrite select_field_at by done.
  destruct (field_of_line _ _ _ line) as [fld|].
  - (* the line holds an array *)
    rewrite strchr_at by done.
    destruct (find_char ")" line) as [e|] eqn:He; [|done].
    cbn [fmap option_fmap option_map].
    destruct (find_char_Some _ _ _ He) as [Helt _].
    rewrite cut_at by done.
    assert (Htake : Forall (fun x => is_nul x = false) (take e line)) by (by apply Forall_take).
    rewrite strchr_at by done.
    destruct (find_char "(" (take e line)) as [p|] eqn:Hp; [|done].
    cbn [fmap option_fmap option_map].
    destruct (find_char_Some _ _ _ Hp) as [Hplt _].
    rewrite length_take in Hplt.
    set (rest := drop (S e) line ++ NUL :: X ++ J).
    destruct (string_at pre1 (take e line) rest (S p)) as [Hm2 Hlen2];
      [rewrite length_take; lia|].
    set (m2 := pre1 ++ take e line ++ NUL :: rest) in *.
    destruct (parse_bash_array_spec (get_field pkg fld) m2 (S (length pre1 + p)) false)
      as (m3 & Hrun & Hframe).
    rewrite Hrun.
    assert (Hbody : c_string (drop (S (length pre1 + p)) m2) = drop (S p) (take e line)).
    { rewrite Hm2.
      replace (S (length pre1 + p)) with (length (pre1 ++ take (S p) (take e line)))
        by (rewrite Hlen2; lia).
      rewrite drop_app_length. apply c_string_string. by apply Forall_drop. }
    rewrite Hbody.
    assert (Hlen3 : length m3 = length m2) by (by eapply parse_bash_array_length).
    assert (Hrest : drop (S (length pre1 + e)) m3 = rest).
    { rewrite Hframe.
      - unfold m2.
        replace (pre1 ++ take e line ++ NUL :: rest)
          with ((pre1 ++ take e line ++ [NUL]) ++ rest) by same_list.
        replace (S (length pre1 + e)) with (length (pre1 ++ take e line ++ [NUL])).
        + by rewrite drop_app_length.
        + rewrite !length_app, length_take. simpl. lia.
      - rewrite strlen_c_string, Hbody, length_drop, length_take. lia. }
    assert (Hm3 : m3 = take (S (length pre1 + e)) m3 ++ drop (S e) line ++ NUL :: X ++ J).
    { rewrite <- (take_drop (S (length pre1 + e)) m3) at 1. by rewrite Hrest. }
    assert (Hpre3 : length (take (S (length pre1 + e)) m3) = S (length pre1 + e)).
    { rewrite length_take, Hlen3. unfold m2.
      rewrite !length_app. cbn [length]. rewrite length_take. lia. }
    rewrite Hm3. rewrite <- Hpre3 at 2.
    apply IH. by apply Forall_drop.
  - (* the line is skipped *)
    rewrite strchr_at by done.
    destruct (find_char newline line) as [j|] eqn:Hj; [|done].
    cbn [fmap option_fmap option_map].
    destruct (find_char_Some _ _ _ Hj) as [Hjlt _].
    destruct (string_at pre1 line (X ++ J) j) as [Hm1 Hlen1]; [lia|].
    rewrite Hm1, <- Hlen1. apply IH. by apply Forall_drop.
Qed.

End FieldFacts.

(** X22.  [populate_pkg_deps] writes into the buffer it scans as
    [pkgbuild_get_deps] does, and what it returns is likewise what the
    same steps return on strings that are values: the writes of one turn
    of the loop never change what a later turn reads.  The call never
    loops for ever. *)
Theorem populate_pkg_deps_is_a_function_of_the_text (D M O : string)
    (pkg : aur_pkg_t) (text : string) :
  value_of (populate_pkg_deps D M O pkg (buffer_of text)) = fields_of_text D M O pkg text
  /\ fields_of_text D M O pkg text <> OutOfFuel.
Proof.
  assert (Heq : value_of (populate_pkg_deps D M O pkg (buffer_of text))
                = fields_of_text D M O pkg text).
  { unfold populate_pkg_deps, fields_of_text, buffer_of. cbv zeta.
    set (s := String.list_ascii_of_string text).
    rewrite length_app. cbn [length]. rewrite Nat.add_1_r.
    destruct (buffer_split s) as (J & HJ). rewrite HJ.
    apply (pop_loop_scan D M O _ [] (c_string s) J pkg), c_string_no_nul. }
  split; [done|].
  rewrite <- Heq. pose proof (populate_no_timeout D M O pkg (buffer_of text)) as Ht.
  by destruct (populate_pkg_deps D M O pkg (buffer_of text)) as [[p m]| |].
Qed.

(** ** The scan of the pieces of a recipe, list by list *)

Lemma differ_at_start_other k1 k2 r :
  differ_at_start k1 k2 = true ->
  starts_with k1 (String.list_ascii_of_string k2 ++ r) = false.
Proof.
  intros Hd. unfold starts_with.
  apply Z.eqb_neq. apply (line_starts_with_other _ k1 k2 Hd).
  destruct k1 as [|c1 k1]; [done|]. destruct k2 as [|c2 k2]; [done|]. done.
Qed.

Lemma differ_at_start_neq k1 k2 :
  differ_at_start k1 k2 = true -> String.eqb k2 k1 = false.
Proof.
  intros Hd. apply String.eqb_neq. intros ->.
  destruct k1 as [|c k1]; [done|]. simpl in Hd.
  apply andb_true_iff in Hd as [_ Hd]. by rewrite Ascii.eqb_refl in Hd.
Qed.

Section FieldItems.

Variables D M O : string.

Hypothesis D_keyword : is_keyword D = true.
Hypothesis M_keyword : is_keyword M = true.
Hypothesis O_keyword : is_keyword O = true.
Hypothesis D_line : no_newline (String.list_ascii_of_string D) = true.
Hypothesis M_line : no_newline (String.list_ascii_of_string M) = true.
Hypothesis O_line : no_newline (String.list_ascii_of_string O) = true.
Hypothesis D_M : differ_at_start D M = true.
Hypothesis D_O : differ_at_start D O = true.
Hypothesis M_O : differ_at_start M O = true.

Local Abbreviation scan := (scan_fields D M O).

Lemma field_of_line_nil : field_of_line D M O [] = None.
Proof.
  unfold field_of_line.
  rewrite !starts_with_false_nil
    by (apply keyword_not_nil || apply keyword_no_nul; done).
  done.
Qed.

(** A line that starts with a keyword goes to the list of the keyword. *)
Lemma field_of_line_keyword kw r :
  String.eqb kw D || String.eqb kw M || String.eqb kw O = true ->
  is_keyword kw = true
  /\ field_of_line D M O (String.list_ascii_of_string kw ++ r)
     = Some (field_of_keyword D M kw).
Proof.
  intros Hkw.
  assert (Hself : forall k, is_keyword k = true ->
            starts_with k (String.list_ascii_of_string k ++ r) = true).
  { intros k Hk. apply starts_with_true; [by apply keyword_no_nul|]. eauto. }
  unfold field_of_line, field_of_keyword.
  apply orb_true_iff in Hkw as [Hkw|HO].
  - apply orb_true_iff in Hkw as [HD|HM].
    + apply String.eqb_eq in HD as ->. split; [done|].
      by rewrite Hself, String.eqb_refl.
    + apply String.eqb_eq in HM as ->. split; [done|].
      by rewrite (differ_at_start_other D M r D_M), Hself,
           (differ_at_start_neq D M D_M), String.eqb_refl.
  - apply String.eqb_eq in HO as ->. split; [done|].
    by rewrite (differ_at_start_other D O r D_O), (differ_at_start_other M O r M_O),
         Hself, (differ_at_start_neq D O D_O), (differ_at_start_neq M O M_O).
Qed.

Lemma field_scan_newline_eq f x pkg :
  scan (S f) (newline :: x) pkg
  = let line := trimmed x in
    match field_of_line D M O line with
    | None =>
        match find_char newline line with
        | None => Done pkg
        | Some j => scan f (drop j line) pkg
        end
    | Some deplist =>
        match find_char ")" line with
        | None => Crash
        | Some e =>
            match find_char "(" (take e line) with
            | None => Crash
            | Some p =>
                scan f (drop (S e) line)
                  (set_field pkg deplist
                     (extract_names false (get_field pkg deplist)
                        (drop (S p) (take e line))))
            end
        end
    end.
Proof.
  cbn [scan_fields]. rewrite (find_char_head newline x).
  cbn [length drop]. by rewrite drop_0.
Qed.

Lemma field_scan_trimmed f x y pkg :
  trimmed x = trimmed y -> scan (S f) (newline :: x) pkg = scan (S f) (newline :: y) pkg.
Proof. intros H. rewrite !field_scan_newline_eq. cbv zeta. by rewrite H. Qed.

Lemma field_scan_rest_of_line f Z y pkg :
  Forall (fun x => negb (Ascii.eqb x newline) = true) Z ->
  scan (S f) (Z ++ newline :: y) pkg = scan (S f) (newline :: y) pkg.
Proof.
  intros HZ. cbn [scan_fields].
  rewrite (find_char_here newline Z y HZ), (find_char_head newline y).
  cbn [length drop]. rewrite drop_0.
  replace (drop (S (length Z)) (Z ++ newline :: y)) with y; [done|].
  replace (Z ++ newline :: y) with ((Z ++ [newline]) ++ y) by same_list.
  rewrite drop_app_length'; [done|]. rewrite length_app. simpl. lia.
Qed.

Lemma field_scan_blank f R pkg :
  is_blank R = true -> scan (S f) (newline :: R) pkg = Done pkg.
Proof.
  intros HR. rewrite field_scan_newline_eq. cbv zeta.
  by rewrite (trimmed_blank R HR), field_of_line_nil.
Qed.

Lemma field_scan_after_array f comment R pkg :
  Forall (fun x => negb (Ascii.eqb x newline) = true) comment ->
  scan (S f) (without_trailing_space (comment ++ newline :: R)) pkg
  = scan (S f) (newline :: R) pkg.
Proof.
  intros Hc. rewrite wts_line_tail.
  destruct (is_blank R) eqn:HR.
  - rewrite field_scan_blank by done. cbn [scan_fields].
    by rewrite find_char_none by (by apply Forall_wts).
  - rewrite field_scan_rest_of_line by done.
    apply field_scan_trimmed, trimmed_wts.
Qed.

Lemma field_scan_after_line f text R pkg :
  Forall (fun x => negb (Ascii.eqb x newline) = true) text ->
  match find_char newline (without_trailing_space (text ++ newline :: R)) with
  | None => Done pkg
  | Some j => scan (S f) (drop j (without_trailing_space (text ++ newline :: R))) pkg
  end
  = scan (S f) (newline :: R) pkg.
Proof.
  intros Ht. rewrite wts_line_tail.
  destruct (is_blank R) eqn:HR.
  - rewrite field_scan_blank by done.
    by rewrite find_char_none by (by apply Forall_wts).
  - rewrite (find_char_here newline text _ Ht), drop_app_length.
    apply field_scan_trimmed, trimmed_wts.
Qed.

Lemma field_scan_item f it R pkg :
  field_item_ok D M O it = true ->
  scan (S (S f)) (newline :: render_item it ++ R) pkg
  = scan (S f) (newline :: R) (fields_of_items D M [it] pkg).
Proof.
  intros Hok.
  pose proof (keyword_no_nul D D_keyword) as HDn.
  pose proof (keyword_no_nul M M_keyword) as HMn.
  pose proof (keyword_no_nul O O_keyword) as HOn.
  destruct it as [indent text|indent kw body comment]; cbn [field_item_ok] in Hok.
  - (* a line that is no array *)
    apply andb_true_iff in Hok as [Hok HnO].
    apply andb_true_iff in Hok as [Hok HnM]. apply andb_true_iff in Hok as [Hok HnD].
    apply andb_true_iff in Hok as [Hok Hfree]. apply andb_true_iff in Hok as [Hok Hsp].
    apply andb_true_iff in Hok as [Hind Hlen].
    apply negb_true_iff in HnO, HnM, HnD, Hsp, Hlen. apply Nat.eqb_neq in Hlen.
    destruct (free_of_nl_Forall _ Hfree) as [Htn Htl].
    assert (Htne : text <> []) by (by destruct text).
    cbn [fields_of_items fold_left render_item].
    rewrite (field_scan_newline_eq (S f) ((indent ++ text ++ [newline]) ++ R)). cbv zeta.
    assert (Hline : trimmed ((indent ++ text ++ [newline]) ++ R)
                    = without_trailing_space (text ++ newline :: R)).
    { replace ((indent ++ text ++ [newline]) ++ R) with (indent ++ text ++ newline :: R)
        by same_list.
      rewrite trimmed_indent by done. by apply trimmed_start. }
    rewrite Hline. unfold field_of_line.
    rewrite (starts_with_line D text R HDn D_line HnD).
    rewrite (starts_with_line M text R HMn M_line HnM).
    rewrite (starts_with_line O text R HOn O_line HnO).
    by apply field_scan_after_line.
  - (* an array *)
    apply andb_true_iff in Hok as [Hok Hcomment]. apply andb_true_iff in Hok as [Hok Hbody].
    apply andb_true_iff in Hok as [Hind Hkw].
    destruct (free_of_nl_Forall _ Hcomment) as [Hcn Hcl].
    pose proof (free_of_no_nul _ _ Hbody) as Hbn.
    pose proof (free_of_span ")" body ")" Hbody eq_refl) as Hbc.
    set (tail := without_trailing_space (comment ++ newline :: R)).
    destruct (field_of_line_keyword kw (body ++ ")"%char :: tail) Hkw) as [Hkey Hfield].
    destruct (is_keyword_shape kw Hkey) as (K0 & HK & HK0 & Hhead).
    cbn [fields_of_items fold_left render_item].
    rewrite HK in Hfield |- *.
    rewrite (field_scan_newline_eq (S f)
               ((indent ++ (K0 ++ ["("%char]) ++ body ++ ")"%char :: comment ++ [newline])
                ++ R)).
    cbv zeta.
    assert (Hline : trimmed ((indent ++ (K0 ++ ["("%char]) ++ body
                              ++ ")"%char :: comment ++ [newline]) ++ R)
                    = (K0 ++ ["("%char]) ++ body ++ ")"%char :: tail).
    { replace ((indent ++ (K0 ++ ["("%char]) ++ body ++ ")"%char :: comment ++ [newline])
               ++ R)
        with (indent ++ ((K0 ++ ["("%char]) ++ body) ++ ")"%char :: comment ++ newline :: R)
        by same_list.
      rewrite trimmed_indent by done.
      rewrite <- app_assoc, trimmed_start, app_assoc by (done || by destruct K0).
      rewrite wts_nonspace by done. unfold tail. same_list. }
    rewrite Hline, Hfield.
    assert (Hclose : find_char ")" ((K0 ++ ["("%char]) ++ body ++ ")"%char :: tail)
                     = Some (length ((K0 ++ ["("%char]) ++ body))).
    { rewrite app_assoc. apply find_char_here.
      apply Forall_app. split; [|done].
      apply Forall_app. split; [|by constructor].
      eapply List.Forall_impl; [|exact HK0]. intros x (_ & Hx & _). by rewrite Hx. }
    rewrite Hclose.
    assert (Htake : take (length ((K0 ++ ["("%char]) ++ body))
                      ((K0 ++ ["("%char]) ++ body ++ ")"%char :: tail)
                    = (K0 ++ ["("%char]) ++ body).
    { by rewrite app_assoc, take_app_length. }
    rewrite Htake.
    assert (Hopen : find_char "(" ((K0 ++ ["("%char]) ++ body) = Some (length K0)).
    { rewrite <- app_assoc. apply find_char_here.
      eapply List.Forall_impl; [|exact HK0]. intros x (Hx & _). by rewrite Hx. }
    rewrite Hopen.
    assert (Hbody' : drop (S (length K0)) ((K0 ++ ["("%char]) ++ body) = body).
    { rewrite drop_app_length'; [done|]. rewrite length_app. simpl. lia. }
    rewrite Hbody'.
    assert (Hrest : drop (S (length ((K0 ++ ["("%char]) ++ body)))
                      ((K0 ++ ["("%char]) ++ body ++ ")"%char :: tail) = tail).
    { replace ((K0 ++ ["("%char]) ++ body ++ ")"%char :: tail)
        with ((((K0 ++ ["("%char]) ++ body) ++ [")"%char]) ++ tail) by same_list.
      rewrite drop_app_length'; [done|]. rewrite (length_app _ [")"%char]). simpl. lia. }
    rewrite Hrest. unfold tail.
    by apply field_scan_after_array.
Qed.

Lemma field_scan_items items :
  forall f pkg R,
    length items <= f ->
    forallb (field_item_ok D M O) items = true -> is_blank R = true ->
    scan (S f) (newline :: render_items items ++ R) pkg
    = Done (fields_of_items D M items pkg).
Proof.
  induction items as [|it items IH]; intros f pkg R Hf Hok HR.
  { by apply field_scan_blank. }
  cbn [forallb] in Hok. apply andb_true_iff in Hok as [Hit Hok].
  destruct f as [|f]; [simpl in Hf; lia|].
  change (render_items (it :: items)) with (render_item it ++ render_items items).
  rewrite <- app_assoc, (field_scan_item f it _ pkg Hit).
  rewrite IH; [done|simpl in Hf; lia|done|done].
Qed.

Lemma field_items_no_nul items :
  forallb (field_item_ok D M O) items = true ->
  Forall (fun c => is_nul c = false) (render_items items).
Proof.
  induction items as [|it items IH]; [constructor|].
  cbn [forallb]. intros [Hit Hok]%andb_true_iff.
  change (render_items (it :: items)) with (render_item it ++ render_items items).
  apply Forall_app. split; [|by apply IH].
  destruct it as [indent text|indent kw body comment];
    cbn [field_item_ok render_item] in *.
  - apply andb_true_iff in Hit as [Hit _].
    apply andb_true_iff in Hit as [Hit _]. apply andb_true_iff in Hit as [Hit _].
    apply andb_true_iff in Hit as [Hit Hfree]. apply andb_true_iff in Hit as [Hit _].
    apply andb_true_iff in Hit as [Hind _].
    apply Forall_app. split; [by apply blank_no_nul|].
    apply Forall_app. split; [by eapply free_of_no_nul|by constructor].
  - apply andb_true_iff in Hit as [Hit Hcomment]. apply andb_true_iff in Hit as [Hit Hbody].
    apply andb_true_iff in Hit as [Hind Hkw].
    destruct (field_of_line_keyword kw [] Hkw) as [Hkey _].
    apply Forall_app. split; [by apply blank_no_nul|].
    apply Forall_app. split; [by apply keyword_no_nul|].
    apply Forall_app. split; [by eapply free_of_no_nul|].
    constructor; [done|].
    apply Forall_app. split; [by eapply free_of_no_nul|by constructor].
Qed.

End FieldItems.

(** The lists of a recipe of lines and arrays. *)
Lemma fields_of_recipe (D M O : string) (pkg : aur_pkg_t)
    (first : list ascii) (items : list recipe_item) (Wend : list ascii) :
  is_keyword D = true -> is_keyword M = true -> is_keyword O = true ->
  no_newline (String.list_ascii_of_string D) = true ->
  no_newline (String.list_ascii_of_string M) = true ->
  no_newline (String.list_ascii_of_string O) = true ->
  differ_at_start D M = true -> differ_at_start D O = true ->
  differ_at_start M O = true ->
  free_of nl first = true ->
  forallb (field_item_ok D M O) items = true -> is_blank Wend = true ->
  value_of (populate_pkg_deps D M O pkg
              (buffer_of (String.string_of_list_ascii
                            (first ++ newline :: render_items items ++ Wend))))
  = Done (fields_of_items D M items pkg).
Proof.
  intros HD HM HO HDl HMl HOl HDM HDO HMO Hfirst Hitems Hend.
  destruct (free_of_nl_Forall _ Hfirst) as [Hfn Hfl].
  unfold buffer_of. rewrite String.list_ascii_of_string_of_list_ascii.
  set (s := first ++ newline :: render_items items ++ Wend).
  assert (Hs : Forall (fun c => is_nul c = false) s).
  { unfold s. apply Forall_app. split; [done|]. constructor; [done|].
    apply Forall_app.
    split; [exact (field_items_no_nul D M O HD HM HO HDM HDO HMO items Hitems)|
            by apply blank_no_nul]. }
  unfold populate_pkg_deps.
  pose proof (pop_loop_scan D M O (S (length (s ++ [NUL]))) [] s [] pkg Hs) as Hscan.
  cbn [app length] in Hscan. rewrite Hscan. unfold s.
  rewrite (field_scan_rest_of_line D M O _ first _ pkg Hfl).
  apply field_scan_items; try done.
  rewrite !length_app. cbn [length]. rewrite length_app.
  pose proof (render_items_length items). lia.
Qed.

(** X23.  For three keywords that start with different characters and a
    recipe made of a first line and of any number of pieces, each a line
    that starts with no keyword or an array of one of the keywords
    (indented or not, after blank lines or not), ending with whitespace:
    [populate_pkg_deps] appends the names of every array, in raw mode, to
    the list of its keyword ([depends], [makedepends] or [optdepends]),
    in the order of the recipe; the other lines change nothing. *)
Theorem recipe_arrays_fill_their_lists (D M O : string) (pkg : aur_pkg_t)
    (first : list ascii) (items : list recipe_item) (Wend : list ascii) :
  is_keyword D = true -> is_keyword M = true -> is_keyword O = true ->
  no_newline (String.list_ascii_of_string D) = true ->
  no_newline (String.list_ascii_of_string M) = true ->
  no_newline (String.list_ascii_of_string O) = true ->
  differ_at_start D M = true -> differ_at_start D O = true ->
  differ_at_start M O = true ->
  free_of nl first = true ->
  forallb (field_item_ok D M O) items = true -> is_blank Wend = true ->
  value_of (populate_pkg_deps D M O pkg
              (buffer_of (String.string_of_list_ascii
                            (first ++ newline :: render_items items ++ Wend))))
  = Done (fields_of_items D M items pkg).
Proof. apply fields_of_recipe. Qed.

Lemma recipe_arrays_fill_their_lists_witness :
  value_of
    (populate_pkg_deps "depends=(" "makedepends=(" "optdepends=(" (no_deps "foo")
       (buffer_of
          (String.string_of_list_ascii
             (String.list_ascii_of_string "pkgname=foo"
              ++ newline
                 :: render_items
                      [ArrayLine [] "depends=("
                         (String.list_ascii_of_string "'a' 'b>=1'") [];
                       OtherLine [newline] (String.list_ascii_of_string "url=x");
                       ArrayLine (String.list_ascii_of_string "  ") "optdepends=("
                         (String.list_ascii_of_string "'c: for d'") [];
                       ArrayLine [] "makedepends=("
                         (String.list_ascii_of_string "a") []]
              ++ [newline]))))
  = Done {| name := "foo"; depends := ["a"; "b>=1"]%string;
            makedepends := ["a"]%string;
            optdepends := ["c:"; "for"; "d"]%string |}.
Proof.
  apply (recipe_arrays_fill_their_lists "depends=(" "makedepends=(" "optdepends=("
           (no_deps "foo") (String.list_ascii_of_string "pkgname=foo")
           [ArrayLine [] "depends=("
              (String.list_ascii_of_string "'a' 'b>=1'") [];
            OtherLine [newline] (String.list_ascii_of_string "url=x");
            ArrayLine (String.list_ascii_of_string "  ") "optdepends=("
              (String.list_ascii_of_string "'c: for d'") [];
            ArrayLine [] "makedepends=("
              (String.list_ascii_of_string "a") []]
           [newline]); vm_compute; reflexivity.
Defined.

(** * depends.c: from the text of a recipe to the count *)

(** X26.  For a recipe made of a first line and of lines and arrays as
    above, which is read from [dir/pkg/PKGBUILD]: [get_pkg_dependencies]
    returns the number of names of its [depends] and [makedepends] arrays
    that are neither installed nor in a sync database and for which the
    AUR query has a result; the AUR is queried for exactly the names that
    are neither installed nor in a sync database, each once, in the order
    of the recipe, and the tarball of the first result is asked for. *)
Theorem count_of_a_recipe (D M : string) (w : world) (pkg dir : string)
    (first : list ascii) (items : list recipe_item) (Wend : list ascii) :
  is_keyword D = true -> is_keyword M = true ->
  no_newline (String.list_ascii_of_string D) = true ->
  no_newline (String.list_ascii_of_string M) = true ->
  free_of nl first = true ->
  forallb (item_ok D M) items = true -> is_blank Wend = true ->
  working_dir w = Some dir ->
  path_fits dir pkg = true ->
  get_file_as_buffer w (pkgbuild_path_of dir pkg)
    = Some (String.string_of_list_ascii (first ++ newline :: render_items items ++ Wend)) ->
  let names := names_of_items items [] in
  exists calls,
    get_pkg_dependencies D M w pkg
    = Done (Z.of_nat (length (List.filter (in_aur w) names)),
            EvReadFile (pkgbuild_path_of dir pkg) :: calls)
    /\ omap aur_query_of calls
       = List.filter (fun d => negb (alpm_db_get_pkg (db_local w) d)
                               && negb (is_in_pacman (syncdbs w) d)) names
    /\ omap tarball_of calls = aur_hits w names.
Proof.
  intros HD HM HDl HMl Hfirst Hitems Hend Hdir Hfits Hfile names.
  pose proof (get_deps_of_recipe D M first items Wend HD HM HDl HMl Hfirst Hitems Hend)
    as Hparse.
  unfold get_pkg_dependencies. rewrite Hdir.
  unfold path_fits in Hfits. apply negb_true_iff in Hfits. rewrite Hfits, Hfile.
  destruct (pkgbuild_get_deps D M _) as [[deplist m']| |]; [|done|done].
  injection Hparse as ->. fold names.
  pose proof (resolve_dependencies_lookups w names 0%Z) as (_ & _ & H3).
  pose proof (resolve_dependencies_spec w names 0%Z) as [Hret Htar].
  destruct (resolve_dependencies w names 0) as [ret calls].
  cbn [fst snd] in *. exists calls. rewrite Hret, Z.add_0_l.
  split_and!; [done|done|exact Htar].
Qed.

Lemma count_of_a_recipe_witness :
  exists calls,
    get_pkg_dependencies "depends=(" "makedepends=(" (example_world true) "foo"
    = Done (1%Z, EvReadFile "/build/foo/PKGBUILD" :: calls)
    /\ omap aur_query_of calls = ["z"]%string.
Proof.
  destruct (count_of_a_recipe "depends=(" "makedepends=(" (example_world true)
              "foo" "/build" (String.list_ascii_of_string "pkgname=foo")
              [ArrayLine [] "depends=(" (String.list_ascii_of_string "'x' 'y>=2' 'z'") []]
              [])
    as (calls & Hrun & Hq & _); try (vm_compute; reflexivity).
  exists calls. split; [exact Hrun|exact Hq].
Defined.

(** * depends.c: the two modes of extraction on whole recipes *)

(** The claim of C6 as it is stated fails: the recipe whose text is the
    line [depends=('a' 'b>=1.0' 'a')], which is then the first line,
    yields no name, with a newline after the line or without. *)
Lemma first_line_array_yields_nothing :
  value_of (pkgbuild_get_deps "depends=(" "makedepends=("
              (buffer_of "depends=('a' 'b>=1.0' 'a')"))
  = Done []
  /\ value_of (pkgbuild_get_deps "depends=(" "makedepends=("
                 (buffer_of ("depends=('a' 'b>=1.0' 'a')" ++ nl)))
     = Done [].
Proof. split; vm_compute; reflexivity. Qed.

(** C6 (amended).  In stripped mode [parse_bash_array] records, for each
    token of the array body in turn, the token without a leading quote
    and cut at the first [=], [<], [>] or quote, unless that string is
    already in the list.  For a recipe made of a first line, which is not
    examined, and of any number of pieces after it, each a line that
    starts with no keyword or an array of one of the two keywords,
    [pkgbuild_get_deps] returns what this gives for the bodies of the
    arrays, one after the other.  For every recipe text, the list it
    builds is free of duplicates and of names with such a character.  And
    the recipe in which [depends=('a' 'b>=1.0' 'a')] follows a first
    line, whatever this line and whatever the last line after the array,
    yields [a] and [b], in this order, whereas the recipe that starts
    with this array yields nothing. *)
Theorem stripped_extraction (D M : string) (first : list ascii)
    (items : list recipe_item) (Wend : list ascii) (line tail text : string)
    (deplist : list string) (m : buffer) (deparray : nat) :
  is_keyword D = true -> is_keyword M = true ->
  no_newline (String.list_ascii_of_string D) = true ->
  no_newline (String.list_ascii_of_string M) = true ->
  free_of nl first = true ->
  forallb (item_ok D M) items = true -> is_blank Wend = true ->
  is_line line = true -> is_last_line tail = true ->
  value_of (parse_bash_array deplist m deparray true)
    = Done (extract_names true deplist (c_string (drop deparray m)))
  /\ value_of (pkgbuild_get_deps D M
                 (buffer_of (String.string_of_list_ascii
                               (first ++ newline :: render_items items ++ Wend))))
     = Done (names_of_items items [])
  /\ match value_of (pkgbuild_get_deps D M (buffer_of text)) with
     | Done names => NoDup names /\ Forall (fun s => is_stripped s = true) names
     | Crash => True
     | OutOfFuel => False
     end
  /\ value_of (pkgbuild_get_deps "depends=(" "makedepends=("
                 (buffer_of (line ++ nl ++ "depends=('a' 'b>=1.0' 'a')" ++ tail)))
     = Done ["a"; "b"]%string
  /\ value_of (pkgbuild_get_deps "depends=(" "makedepends=("
                 (buffer_of ("depends=('a' 'b>=1.0' 'a')" ++ nl)))
     = Done [].
Proof.
  intros HD HM HDl HMl Hfirst Hitems Hend Hline Htail. split_and!.
  - by destruct (parse_bash_array_spec deplist m deparray true) as (m' & -> & _).
  - by apply get_deps_of_recipe.
  - pose proof (get_deps_no_timeout D M (buffer_of text)) as Ht.
    destruct (pkgbuild_get_deps D M (buffer_of text)) as [[names m']| |] eqn:H; [|done|done].
    simpl. eapply get_loop_stripped; [exact H|]. split; constructor.
  - exact (get_deps_one_array "depends=(" "makedepends=(" "depends=(" line
             "'a' 'b>=1.0' 'a'" tail (or_introl eq_refl) eq_refl Hline eq_refl Htail).
  - vm_compute. reflexivity.
Qed.

Lemma stripped_extraction_witness :
  value_of
    (pkgbuild_get_deps "depends=(" "makedepends=("
       (buffer_of
          (String.string_of_list_ascii
             (String.list_ascii_of_string "pkgname=foo"
              ++ newline
                 :: render_items
                      [OtherLine [] (String.list_ascii_of_string "pkgver=1");
                       ArrayLine [] "depends=("
                         (String.list_ascii_of_string "'a' 'b>=1.0' 'a'") [];
                       ArrayLine (String.list_ascii_of_string "  ") "makedepends=("
                         (String.list_ascii_of_string "'b<2' c")
                         (String.list_ascii_of_string " # build")]
              ++ []))))
  = Done ["a"; "b"; "c"]%string.
Proof.
  apply (stripped_extraction "depends=(" "makedepends=("
           (String.list_ascii_of_string "pkgname=foo")
           [OtherLine [] (String.list_ascii_of_string "pkgver=1");
            ArrayLine [] "depends=("
              (String.list_ascii_of_string "'a' 'b>=1.0' 'a'") [];
            ArrayLine (String.list_ascii_of_string "  ") "makedepends=("
              (String.list_ascii_of_string "'b<2' c")
              (String.list_ascii_of_string " # build")]
           [] "pkgname=foo" nl EmptyString [] [] 0); vm_compute; reflexivity.
Defined.

(** C7 (amended).  In raw mode [parse_bash_array] records, for each token
    of the array body in turn (the body is cut at every space and
    newline, inside quotes too), the token without a single leading quote
    and a single trailing quote, nothing else being removed, unless that
    string is already in the list.  For a recipe made of a first line,
    which is not examined, and of any number of pieces after it, each a
    line that starts with no keyword or an array of one of the three
    keywords, [populate_pkg_deps] records in this way the body of every
    array in the list of its keyword.  And the recipe in which
    [optdepends=('a: description text')] follows a first line, whatever
    this line and whatever the last line after the array, yields the
    three entries [a:], [description] and [text], whereas the recipe that
    starts with this array yields none. *)
Theorem raw_extraction (D M O : string) (pkg : aur_pkg_t) (first : list ascii)
    (items : list recipe_item) (Wend : list ascii) (line tail n : string)
    (deplist : list string) (m : buffer) (deparray : nat) (t : list ascii) :
  is_keyword D = true -> is_keyword M = true -> is_keyword O = true ->
  no_newline (String.list_ascii_of_string D) = true ->
  no_newline (String.list_ascii_of_string M) = true ->
  no_newline (String.list_ascii_of_string O) = true ->
  differ_at_start D M = true -> differ_at_start D O = true ->
  differ_at_start M O = true ->
  free_of nl first = true ->
  forallb (field_item_ok D M O) items = true -> is_blank Wend = true ->
  is_line line = true -> is_last_line tail = true ->
  value_of (parse_bash_array deplist m deparray false)
    = Done (extract_names false deplist (c_string (drop deparray m)))
  /\ (exists a b, t = a ++ raw_name t ++ b
                  /\ length a <= 1 /\ length b <= 1
                  /\ forallb is_quote a = true /\ forallb is_quote b = true)
  /\ value_of (populate_pkg_deps D M O pkg
                 (buffer_of (String.string_of_list_ascii
                               (first ++ newline :: render_items items ++ Wend))))
     = Done (fields_of_items D M items pkg)
  /\ value_of (populate_pkg_deps "depends=(" "makedepends=(" "optdepends=(" (no_deps n)
                 (buffer_of (line ++ nl ++ "optdepends=('a: description text')" ++ tail)))
     = Done {| name := n; depends := []; makedepends := [];
               optdepends := ["a:"; "description"; "text"]%string |}
  /\ value_of (populate_pkg_deps "depends=(" "makedepends=(" "optdepends=(" (no_deps n)
                 (buffer_of ("optdepends=('a: description text')" ++ nl)))
     = Done (no_deps n).
Proof.
  intros HD HM HO HDl HMl HOl HDM HDO HMO Hfirst Hitems Hend Hline Htail. split_and!.
  - by destruct (parse_bash_array_spec deplist m deparray false) as (m' & -> & _).
  - apply raw_name_between_quotes.
  - by apply fields_of_recipe.
  - exact (populate_one_optdepends "depends=(" "makedepends=(" "optdepends=(" (no_deps n)
             line "'a: description text'" tail eq_refl eq_refl eq_refl Hline eq_refl Htail).
  - vm_compute. reflexivity.
Qed.

Lemma raw_extraction_witness :
  value_of
    (populate_pkg_deps "depends=(" "makedepends=(" "optdepends=(" (no_deps "foo")
       (buffer_of
          (String.string_of_list_ascii
             (String.list_ascii_of_string "pkgname=foo"
              ++ newline
                 :: render_items
                      [ArrayLine [] "makedepends=("
                         (String.list_ascii_of_string "'b>=1.0' 'b>=1.0'") [];
                       OtherLine [] (String.list_ascii_of_string "pkgver=1");
                       ArrayLine [] "optdepends=("
                         (String.list_ascii_of_string "'a: description text'") []]
              ++ []))))
  = Done {| name := "foo"; depends := []; makedepends := ["b>=1.0"]%string;
            optdepends := ["a:"; "description"; "text"]%string |}.
Proof.
  apply (raw_extraction "depends=(" "makedepends=(" "optdepends=(" (no_deps "foo")
           (String.list_ascii_of_string "pkgname=foo")
           [ArrayLine [] "makedepends=("
              (String.list_ascii_of_string "'b>=1.0' 'b>=1.0'") [];
            OtherLine [] (String.list_ascii_of_string "pkgver=1");
            ArrayLine [] "optdepends=("
              (String.list_ascii_of_string "'a: description text'") []]
           [] "pkgname=foo" nl "foo" [] [] 0 []); vm_compute; reflexivity.
Defined.

(** The claim of C7 as it is stated fails: the description does not
    stay in one piece. *)
Lemma raw_extraction_splits_descriptions :
  exists pkg,
    value_of (populate_pkg_deps "depends=(" "makedepends=(" "optdepends=(" (no_deps "foo")
                (buffer_of ("pkgname=foo" ++ nl ++ "optdepends=('a: description text')" ++ nl)))
    = Done pkg
    /\ ~ In "a: description text"%string (optdepends pkg).
Proof.
  eexists. split; [vm_compute; reflexivity|].
  simpl. intros [H|[H|[H|[]]]]; discriminate H.
Qed.
